(** * Masternode payment voting (masternode-payments.h / masternode-payments.cpp)

    A shallow embedding of the payment-vote ledger of the node: the vote
    record [CMasternodePaymentWinner], the per-height tally
    [CMasternodeBlockPayees], the ledger [CMasternodePayments] with its
    admission pipeline, clean-up and peer synchronisation, and the snapshot
    file of [CMasternodePaymentDB].

    Conventions.
    - C++ [int], [unsigned int] and [CAmount] values are integers of [Z].
      Where the code subtracts from the height of the chain tip an [int] that
      comes from outside unchecked (the height of a vote loaded from a file,
      the count a peer asks for, the argument of an RPC call) the difference
      can leave the range of a 32-bit [int]; the compiled code then wraps
      around, and the model writes that out ([height_minus]).  The other sums
      and differences have operands that come from the chain and the roster
      and stay in range.  [uint256] arithmetic is modular and its wrap-around
      is written out ([u256]).
    - [int (k * 1.25)] for a 32-bit [k] is computed exactly in binary64
      (5k/4 needs at most 34 significant bits) and the conversion to [int]
      truncates toward zero: it is [Z.quot (5 * k) 4].
    - [std::map] is a [gmap]; iteration over a [std::map] visits the keys in
      ascending order ([std_map_iter]).
    - Everything the code reaches outside the two files (chain tip, roster,
      sporks, reward schedule, hashing, signature check) is a field of the
      record [Env]: the collaborators as they answer during one call.
    - The SerializationOp of each class is in the sources; the serializers of
      the field types (serialize.h) are the fields of the record
      [Stream.Primitives], and the snapshot files of the scenarios are written
      with the encodings of the Bitcoin wire format ([Bitcoin.primitives]). *)

From stdpp Require Import base gmap list strings sorting fin_maps.
From Stdlib.Strings Require Import Byte.

#[global] Open Scope Z_scope.

#[global] Instance byte_eq_dec : EqDecision byte := Byte.byte_eq_dec.

(** ** Primitive data *)

Abbreviation uint256 := Z (only parsing).

Definition u256 (x : Z) : Z := x mod 2 ^ 256.

Abbreviation CScript := (list byte) (only parsing).

Record COutPoint := { op_hash : uint256; op_n : Z }.

Record CTxIn := { prevout : COutPoint; scriptSig : CScript; nSequence : Z }.

Record CTxOut := { nValue : Z; scriptPubKey : CScript }.

Record CTransaction := { vout : list CTxOut }.

#[global] Instance COutPoint_eq_dec : EqDecision COutPoint.
Proof. solve_decision. Defined.

#[global] Instance CTxIn_eq_dec : EqDecision CTxIn.
Proof. solve_decision. Defined.

Definition MNPAYMENTS_SIGNATURES_REQUIRED : Z := 6.
Definition MNPAYMENTS_SIGNATURES_TOTAL : Z := 10.

(** ** The classes of masternode-payments.h *)

Record CMasternodePayee := {
  payee_scriptPubKey : CScript;
  masternodeLevel : Z;
  nVotes : Z
}.

Record CMasternodeBlockPayees := {
  nBlockHeight : Z;
  vecPayments : list CMasternodePayee
}.

Record CMasternodePaymentWinner := {
  vinMasternode : CTxIn;
  winner_nBlockHeight : Z;
  payee : CScript;
  vinPayee : CTxIn;
  vchSig : list byte
}.

Record CMasternodePayments := {
  nSyncedFromPeer : Z;
  nLastBlockHeight : Z;
  mapMasternodePayeeVotes : gmap Z CMasternodePaymentWinner;
  mapMasternodeBlocks : gmap Z CMasternodeBlockPayees;
  mapMasternodesLastVote : gmap Z Z
}.

(** ** External collaborators *)

(** What the payment code reads of a roster entry ([CMasternode]). *)
Record CMasternode := {
  mn_vin : CTxIn;
  mn_collateralScript : CScript;  (* GetScriptForDestination (pubKeyCollateralAddress.GetID ()) *)
  mn_pubKeyMasternode : list byte;
  mn_protocolVersion : Z;
  mn_GetPhase : Z → Z             (* GetPhase (nBlockHeight) *)
}.

(** The field hashed first by [GetHash]: the inline script of the legacy wire
    form, or the collateral input of the current one. *)
Inductive PayeeField :=
  | LegacyPayee (s : CScript)
  | VinPayee (v : CTxIn).

(** The message signed by a voter: outpoint, height and resolved payee script
    (the code concatenates their printed forms). *)
Record SignedMessage := {
  msg_outpoint : COutPoint;
  msg_height : Z;
  msg_payee : CScript
}.

Record CNode := { node_id : Z; nVersion : Z }.

Record Env := {
  (* chainActive, main.h *)
  chainTip : option Z;            (* Tip ()->nHeight; None: no tip, or cs_main not taken *)
  GetBlockHash : Z → bool;        (* a block hash exists at that height *)
  GetBlockValue : Z → Z;
  GetMasternodePayment : Z → Z → Z → Z → bool → Z;
  GetTransaction : COutPoint → option CScript;  (* prevTx.vout [n].scriptPubKey *)
  (* Params () *)
  getMasternodePhaseCount : Z → Z;
  MasternodeCountDrift : Z;
  (* protocol versions *)
  ActiveProtocol : Z;
  MIN_PEER_PROTO_VERSION_MNW_VIN : Z;
  (* sporks, sync state, mode *)
  SPORK_8_MASTERNODE_PAYMENT_ENFORCEMENT : bool;
  IsSynced : bool;
  IsBlockchainSynced : bool;
  fLiteMode : bool;
  (* mnodeman *)
  mn_Find : CTxIn → option CMasternode;
  mn_FindScript : CScript → option CMasternode;
  mn_size : Z;
  mn_stable_size : Z;
  CountEnabled : Z;
  CountEnabledOnLevel : Z → Z;
  GetMasternodeRank : CTxIn → Z → Z → Z;
  (* hashing and signatures *)
  SerializeHash : PayeeField → Z → COutPoint → uint256;
  VerifyMessage : list byte → list byte → SignedMessage → bool
}.

(** Calls made on collaborators that the ledger does not read back. *)
Inductive Effect :=
  | Misbehaving (peer : Z) (howmuch : Z)
  | AskForMN (peer : Z) (vin : CTxIn)
  | Relay (h : uint256)
  | AddedMasternodeWinner (h : uint256)
  | SeenSyncErase (h : uint256)
  | PushInventory (peer : Z) (h : uint256)
  | PushMessage_ssc (peer : Z) (count : Z).

(** [int (k * 1.25)] *)
Definition times_1_25 (k : Z) : Z := Z.quot (5 * k) 4.

(** ** 32-bit int *)

Definition int_min : Z := -2147483648.
Definition int_max : Z := 2147483647.

(** The [int] a two's complement machine holds for the exact result [z]. *)
Definition wrap_int (z : Z) : Z := (z + 2 ^ 31) mod 2 ^ 32 - 2 ^ 31.

(** [nHeight - x] as the compiled code computes it, for the height [nHeight]
    of the chain tip and an [int] [x].  A height is never negative, so the
    exact difference cannot fall below [int_min]; when it exceeds [int_max]
    the result wraps around to the difference less 2^32. *)
Definition height_minus (nHeight x : Z) : Z :=
  let d := nHeight - x in
  if decide (d > int_max) then d - 2 ^ 32 else d.

(** ** std::map iteration *)

Section std_map.
Context {V : Type}.

Definition key_le (a b : Z * V) : Prop := a.1 ≤ b.1.

#[global] Instance key_le_dec : RelDecision key_le.
Proof. intros a b. unfold key_le. apply _. Defined.

(** begin () .. end (): the entries by ascending key. *)
Definition std_map_iter (m : gmap Z V) : list (Z * V) :=
  merge_sort key_le (map_to_list m).
End std_map.

(** ** CMasternodeBlockPayees *)

Module BlockPayees.

Definition add_votes (p : CMasternodePayee) (nIncrement : Z) : CMasternodePayee :=
  {| payee_scriptPubKey := payee_scriptPubKey p;
     masternodeLevel := masternodeLevel p;
     nVotes := nVotes p + nIncrement |}.

(** AddPayee (payeeIn, masternodeLevel, nIncrement) on [vecPayments]: the
    first entry with that script and level is incremented, otherwise a new
    entry is pushed at the back. *)
Fixpoint AddPayee_vec (payeeIn : CScript) (level nIncrement : Z)
    (v : list CMasternodePayee) : list CMasternodePayee :=
  match v with
  | [] => [ {| payee_scriptPubKey := payeeIn; masternodeLevel := level;
               nVotes := nIncrement |} ]
  | p :: rest =>
      if decide (payee_scriptPubKey p = payeeIn ∧ masternodeLevel p = level)
      then add_votes p nIncrement :: rest
      else p :: AddPayee_vec payeeIn level nIncrement rest
  end.

Definition AddPayee (bp : CMasternodeBlockPayees) (payeeIn : CScript)
    (level nIncrement : Z) : CMasternodeBlockPayees :=
  {| nBlockHeight := nBlockHeight bp;
     vecPayments := AddPayee_vec payeeIn level nIncrement (vecPayments bp) |}.

(** GetPayee (payee, masternodeLevel): the running pair (payee, nVotes),
    started at the caller's [payee] and -1. *)
Definition GetPayee_loop (level : Z) (v : list CMasternodePayee)
    (init : CScript * Z) : CScript * Z :=
  foldl (λ acc p,
           if decide (masternodeLevel p = level ∧ nVotes p > acc.2)
           then (payee_scriptPubKey p, nVotes p) else acc)
        init v.

Definition GetPayee (bp : CMasternodeBlockPayees) (payee0 : CScript)
    (level : Z) : bool * CScript :=
  let r := GetPayee_loop level (vecPayments bp) (payee0, -1) in
  (bool_decide (r.2 > -1), r.1).

(** The first inner loop of IsTransactionValid: nMaxSignatures. *)
Definition nMaxSignatures (phase : Z) (v : list CMasternodePayee) : Z :=
  foldl (λ nMax p,
           if decide (nVotes p >= nMax ∧ masternodeLevel p = phase)
           then nVotes p else nMax)
        0 v.

(** The loop over txNew.vout for one payee: left at the first output to the
    payee's script that carries at least the required amount. *)
Fixpoint payee_paid (script : CScript) (required : Z) (outs : list CTxOut) : bool :=
  match outs with
  | [] => false
  | out :: rest =>
      if decide (script = scriptPubKey out)
      then if decide (nValue out >= required) then true
           else payee_paid script required rest
      else payee_paid script required rest
  end.

(** The second inner loop: hasLevelPayment. *)
Fixpoint hasLevelPayment (phase required : Z) (v : list CMasternodePayee)
    (outs : list CTxOut) : bool :=
  match v with
  | [] => false
  | p :: rest =>
      if decide (masternodeLevel p ≠ phase)
      then hasLevelPayment phase required rest outs
      else if decide (nVotes p < MNPAYMENTS_SIGNATURES_REQUIRED)
      then hasLevelPayment phase required rest outs
      else if payee_paid (payee_scriptPubKey p) required outs then true
      else hasLevelPayment phase required rest outs
  end.

Definition nMasternode_Drift_Count (e : Env) : Z :=
  if SPORK_8_MASTERNODE_PAYMENT_ENFORCEMENT e
  then mn_stable_size e + MasternodeCountDrift e
  else mn_size e + MasternodeCountDrift e.

Definition requiredMasternodePayment (e : Env) (bp : CMasternodeBlockPayees)
    (phase : Z) : Z :=
  GetMasternodePayment e (nBlockHeight bp) phase
    (GetBlockValue e (nBlockHeight bp)) (nMasternode_Drift_Count e) false.

(** The levels visited by
    [for (masternodePhase = 1; masternodePhase <= getMasternodePhaseCount (h); masternodePhase++)]. *)
Definition phases (e : Env) (h : Z) : list Z :=
  seqZ 1 (getMasternodePhaseCount e h).

Definition IsTransactionValid (e : Env) (bp : CMasternodeBlockPayees)
    (txNew : CTransaction) : bool :=
  foldl (λ (transactionCorrect : bool) masternodePhase,
           if decide (nMaxSignatures masternodePhase (vecPayments bp)
                      < MNPAYMENTS_SIGNATURES_REQUIRED)
           then transactionCorrect
           else if hasLevelPayment masternodePhase
                     (requiredMasternodePayment e bp masternodePhase)
                     (vecPayments bp) (vout txNew)
           then transactionCorrect
           else false)
        true (phases e (nBlockHeight bp)).

(** The verdict of one pass of the outer loop: false exactly when the pass
    clears [transactionCorrect]. *)
Definition level_valid (e : Env) (bp : CMasternodeBlockPayees)
    (txNew : CTransaction) (phase : Z) : bool :=
  if decide (nMaxSignatures phase (vecPayments bp) < MNPAYMENTS_SIGNATURES_REQUIRED)
  then true
  else hasLevelPayment phase (requiredMasternodePayment e bp phase)
         (vecPayments bp) (vout txNew).

(** Some payee of the level has reached the threshold. *)
Definition has_quorum (bp : CMasternodeBlockPayees) (phase : Z) : Prop :=
  ∃ p, p ∈ vecPayments bp ∧ masternodeLevel p = phase
       ∧ MNPAYMENTS_SIGNATURES_REQUIRED ≤ nVotes p.

(** The transaction has an output of at least [required] to script [s]. *)
Definition pays (txNew : CTransaction) (s : CScript) (required : Z) : Prop :=
  ∃ out, out ∈ vout txNew ∧ scriptPubKey out = s ∧ required ≤ nValue out.

End BlockPayees.

(** ** CMasternodePaymentWinner *)

Module Winner.

(** The payee is carried as a script while
    [ActiveProtocol () < MIN_PEER_PROTO_VERSION_MNW_VIN]. *)
Definition legacy (e : Env) : bool :=
  bool_decide (ActiveProtocol e < MIN_PEER_PROTO_VERSION_MNW_VIN e).

Definition GetHash (e : Env) (w : CMasternodePaymentWinner) : uint256 :=
  SerializeHash e
    (if legacy e then LegacyPayee (payee w) else VinPayee (vinPayee w))
    (winner_nBlockHeight w) (prevout (vinMasternode w)).

Definition GetPhase (e : Env) (w : CMasternodePaymentWinner) : Z :=
  match mn_Find e (vinMasternode w) with
  | Some pmn => mn_GetPhase pmn (winner_nBlockHeight w)
  | None => 0
  end.

Definition GetPayeeScript (e : Env) (w : CMasternodePaymentWinner) : CScript :=
  if legacy e then payee w
  else match mn_Find e (vinPayee w) with
       | Some pmn => mn_collateralScript pmn
       | None =>
           match GetTransaction e (prevout (vinPayee w)) with
           | Some s => s
           | None => []
           end
       end.

Definition GetPayeePhase (e : Env) (w : CMasternodePaymentWinner) : Z :=
  match (if legacy e then mn_FindScript e (payee w) else mn_Find e (vinPayee w)) with
  | Some pmn => mn_GetPhase pmn (winner_nBlockHeight w)
  | None => 0
  end.

Definition IsValid (e : Env) (pnode : CNode) (w : CMasternodePaymentWinner)
    : bool * list Effect :=
  match mn_Find e (vinMasternode w) with
  | None => (false, [AskForMN (node_id pnode) (vinMasternode w)])
  | Some pmn =>
      if decide (mn_protocolVersion pmn < ActiveProtocol e) then (false, [])
      else
        let n := GetMasternodeRank e (vinMasternode w)
                   (winner_nBlockHeight w - 100) (ActiveProtocol e) in
        if decide (n > MNPAYMENTS_SIGNATURES_TOTAL) then (false, [])
        else (true, [])
  end.

Definition SignatureValid (e : Env) (w : CMasternodePaymentWinner) : bool :=
  match mn_Find e (vinMasternode w) with
  | Some pmn =>
      VerifyMessage e (mn_pubKeyMasternode pmn) (vchSig w)
        {| msg_outpoint := prevout (vinMasternode w);
           msg_height := winner_nBlockHeight w;
           msg_payee := GetPayeeScript e w |}
  | None => false
  end.

End Winner.

(** ** CMasternodePayments *)

Module Payments.

Definition empty : CMasternodePayments :=
  {| nSyncedFromPeer := 0; nLastBlockHeight := 0;
     mapMasternodePayeeVotes := ∅; mapMasternodeBlocks := ∅;
     mapMasternodesLastVote := ∅ |}.

Definition set_votes (L : CMasternodePayments)
    (m : gmap Z CMasternodePaymentWinner) : CMasternodePayments :=
  {| nSyncedFromPeer := nSyncedFromPeer L; nLastBlockHeight := nLastBlockHeight L;
     mapMasternodePayeeVotes := m; mapMasternodeBlocks := mapMasternodeBlocks L;
     mapMasternodesLastVote := mapMasternodesLastVote L |}.

Definition set_blocks (L : CMasternodePayments)
    (m : gmap Z CMasternodeBlockPayees) : CMasternodePayments :=
  {| nSyncedFromPeer := nSyncedFromPeer L; nLastBlockHeight := nLastBlockHeight L;
     mapMasternodePayeeVotes := mapMasternodePayeeVotes L; mapMasternodeBlocks := m;
     mapMasternodesLastVote := mapMasternodesLastVote L |}.

Definition set_lastVote (L : CMasternodePayments) (m : gmap Z Z)
    : CMasternodePayments :=
  {| nSyncedFromPeer := nSyncedFromPeer L; nLastBlockHeight := nLastBlockHeight L;
     mapMasternodePayeeVotes := mapMasternodePayeeVotes L;
     mapMasternodeBlocks := mapMasternodeBlocks L;
     mapMasternodesLastVote := m |}.

Definition Clear (L : CMasternodePayments) : CMasternodePayments :=
  set_votes (set_blocks L ∅) ∅.

(** uint256 key = ((outMasternode.hash + outMasternode.n) << 4) + voteForPhase *)
Definition vote_key (e : Env) (w : CMasternodePaymentWinner) : uint256 :=
  let outMasternode := prevout (vinMasternode w) in
  u256 (u256 (Z.shiftl (u256 (op_hash outMasternode + op_n outMasternode)) 4)
        + Winner.GetPayeePhase e w).

(** CanVote (winner): the answer and the ledger it leaves. *)
Definition CanVote (e : Env) (L : CMasternodePayments)
    (w : CMasternodePaymentWinner) : bool * CMasternodePayments :=
  let key := vote_key e w in
  if decide (mapMasternodesLastVote L !! key = Some (winner_nBlockHeight w))
  then (false, L)
  else (true, set_lastVote L
                (<[key := winner_nBlockHeight w]> (mapMasternodesLastVote L))).

(** mapMasternodeBlocks [h]: operator[] default-constructs a missing entry. *)
Definition blocks_at (m : gmap Z CMasternodeBlockPayees) (h : Z)
    : CMasternodeBlockPayees :=
  default {| nBlockHeight := 0; vecPayments := [] |} (m !! h).

Definition AddWinningMasternode (e : Env) (L : CMasternodePayments)
    (winnerIn : CMasternodePaymentWinner) : bool * CMasternodePayments :=
  let h := winner_nBlockHeight winnerIn in
  if negb (GetBlockHash e (h - 100)) then (false, L)
  else
    let hash := Winner.GetHash e winnerIn in
    if decide (is_Some (mapMasternodePayeeVotes L !! hash)) then (false, L)
    else
      let votes := <[hash := winnerIn]> (mapMasternodePayeeVotes L) in
      let blocks :=
        if decide (is_Some (mapMasternodeBlocks L !! h)) then mapMasternodeBlocks L
        else <[h := {| nBlockHeight := h; vecPayments := [] |}]> (mapMasternodeBlocks L) in
      let blocks :=
        <[h := BlockPayees.AddPayee (blocks_at blocks h)
                 (Winner.GetPayeeScript e winnerIn)
                 (Winner.GetPayeePhase e winnerIn) 1]> blocks in
      (true, set_blocks (set_votes L votes) blocks).

(** The return points of the "mnw" branch of ProcessMessageMasternodePayments. *)
Inductive Outcome :=
  | Ignored        (* not synced, lite mode, old peer, or no chain tip *)
  | Incomplete     (* phase of the voter or of the payee not found *)
  | Duplicate      (* "Already seen" *)
  | OutOfWindow    (* "winner out of range" *)
  | Invalid        (* IsValid failed *)
  | AlreadyVoted   (* CanVote failed *)
  | BadSignature   (* SignatureValid failed *)
  | NotAdded       (* AddWinningMasternode returned false *)
  | Accepted.

#[global] Instance Outcome_eq_dec : EqDecision Outcome.
Proof. solve_decision. Defined.

Record Result := {
  outcome : Outcome;
  effects : list Effect;
  ledger : CMasternodePayments
}.

Definition misbehaving_if_synced (e : Env) (pfrom : CNode) : list Effect :=
  if IsSynced e then [Misbehaving (node_id pfrom) 20] else [].

Definition ProcessMessage_mnw (e : Env) (pfrom : CNode) (L : CMasternodePayments)
    (winner : CMasternodePaymentWinner) : Result :=
  if negb (IsBlockchainSynced e) then {| outcome := Ignored; effects := []; ledger := L |}
  else if fLiteMode e then {| outcome := Ignored; effects := []; ledger := L |}
  else if decide (nVersion pfrom < ActiveProtocol e)
  then {| outcome := Ignored; effects := []; ledger := L |}
  else if decide (Winner.GetPhase e winner = 0)
  then {| outcome := Incomplete;
          effects := misbehaving_if_synced e pfrom
                     ++ [AskForMN (node_id pfrom) (vinMasternode winner)];
          ledger := L |}
  else
    let payeePhase := Winner.GetPayeePhase e winner in
    if decide (payeePhase = 0)
    then {| outcome := Incomplete;
            effects := if Winner.legacy e then []
                       else [AskForMN (node_id pfrom) (vinPayee winner)];
            ledger := L |}
    else
      match chainTip e with
      | None => {| outcome := Ignored; effects := []; ledger := L |}
      | Some nHeight =>
          let hash := Winner.GetHash e winner in
          if decide (is_Some (mapMasternodePayeeVotes L !! hash))
          then {| outcome := Duplicate; effects := [AddedMasternodeWinner hash];
                  ledger := L |}
          else
            let nFirstBlock :=
              nHeight - times_1_25 (CountEnabledOnLevel e payeePhase) in
            if decide (winner_nBlockHeight winner < nFirstBlock
                       ∨ winner_nBlockHeight winner > nHeight + 20)
            then {| outcome := OutOfWindow; effects := []; ledger := L |}
            else
              let valid := Winner.IsValid e pfrom winner in
              if negb valid.1
              then {| outcome := Invalid; effects := valid.2; ledger := L |}
              else
                let can := CanVote e L winner in
                if negb can.1
                then {| outcome := AlreadyVoted; effects := []; ledger := can.2 |}
                else if negb (Winner.SignatureValid e winner)
                then {| outcome := BadSignature;
                        effects := misbehaving_if_synced e pfrom
                                   ++ [AskForMN (node_id pfrom) (vinMasternode winner)];
                        ledger := can.2 |}
                else
                  let added := AddWinningMasternode e can.2 winner in
                  if added.1
                  then {| outcome := Accepted;
                          effects := [Relay hash; AddedMasternodeWinner hash];
                          ledger := added.2 |}
                  else {| outcome := NotAdded; effects := []; ledger := added.2 |}
      end.

Definition GetBlockPayee (L : CMasternodePayments) (h level : Z) (payee0 : CScript)
    : bool * CScript :=
  match mapMasternodeBlocks L !! h with
  | Some bp => BlockPayees.GetPayee bp payee0 level
  | None => (false, payee0)
  end.

Definition IsTransactionValid (e : Env) (L : CMasternodePayments)
    (txNew : CTransaction) (h : Z) : bool :=
  match mapMasternodeBlocks L !! h with
  | Some bp => BlockPayees.IsTransactionValid e bp txNew
  | None => true
  end.

(** ** CleanPaymentList *)

(** std::max (int (mnodeman.size () * 1.25), 1000); the product fits an int
    for every roster of fewer than 1717986918 masternodes. *)
Definition nLimit (e : Env) : Z := Z.max (times_1_25 (mn_size e)) 1000.

(** One pass of the while loop, at the entry [it]. *)
Definition clean_step (nHeight limit : Z)
    (st : CMasternodePayments * list Effect)
    (it : Z * CMasternodePaymentWinner) : CMasternodePayments * list Effect :=
  let winner := it.2 in
  if decide (height_minus nHeight (winner_nBlockHeight winner) > limit)
  then (set_blocks
          (set_votes st.1 (delete it.1 (mapMasternodePayeeVotes st.1)))
          (delete (winner_nBlockHeight winner) (mapMasternodeBlocks st.1)),
        st.2 ++ [SeenSyncErase it.1])
  else st.

Definition CleanPaymentList (e : Env) (L : CMasternodePayments)
    : CMasternodePayments * list Effect :=
  match chainTip e with
  | None => (L, [])
  | Some nHeight =>
      foldl (clean_step nHeight (nLimit e)) (L, [])
            (std_map_iter (mapMasternodePayeeVotes L))
  end.

(** ** Sync *)

Definition in_sync_window (nHeight nCountNeeded : Z)
    (winner : CMasternodePaymentWinner) : Prop :=
  winner_nBlockHeight winner >= height_minus nHeight nCountNeeded
  ∧ winner_nBlockHeight winner <= nHeight + 20.

#[global] Instance in_sync_window_dec a b w : Decision (in_sync_window a b w).
Proof. unfold in_sync_window. apply _. Defined.

Definition sync_step (e : Env) (node : CNode) (nHeight nCountNeeded : Z)
    (st : list Effect * Z) (it : Z * CMasternodePaymentWinner) : list Effect * Z :=
  if decide (in_sync_window nHeight nCountNeeded it.2)
  then (st.1 ++ [PushInventory (node_id node) (Winner.GetHash e it.2)], st.2 + 1)
  else st.

Definition clamp_count (e : Env) (nCountNeeded : Z) : Z :=
  let nCount := times_1_25 (CountEnabled e) in
  if decide (nCountNeeded > nCount) then nCount else nCountNeeded.

Definition Sync (e : Env) (L : CMasternodePayments) (node : CNode)
    (nCountNeeded : Z) : list Effect :=
  match chainTip e with
  | None => []
  | Some nHeight =>
      let st := foldl (sync_step e node nHeight (clamp_count e nCountNeeded))
                      ([], 0) (std_map_iter (mapMasternodePayeeVotes L)) in
      st.1 ++ [PushMessage_ssc (node_id node) st.2]
  end.

(** The "mnget" branch; [isMain] is [Params ().NetworkID () == MAIN] and
    [fulfilled] is [pfrom->HasFulfilledRequest ("mnget")]. *)
Definition ProcessMessage_mnget (e : Env) (isMain fulfilled : bool)
    (pfrom : CNode) (L : CMasternodePayments) (nCountNeeded : Z) : list Effect :=
  if negb (IsBlockchainSynced e) then []
  else if fLiteMode e then []
  else if isMain && fulfilled then [Misbehaving (node_id pfrom) 20]
  else Sync e L pfrom nCountNeeded.

End Payments.

(** ** CMasternodePaymentDB::Read *)

Module PaymentDB.

Inductive ReadResult :=
  | Ok
  | FileError
  | HashReadError
  | IncorrectHash
  | IncorrectMagicMessage
  | IncorrectMagicNumber
  | IncorrectFormat.

#[global] Instance ReadResult_eq_dec : EqDecision ReadResult.
Proof. solve_decision. Defined.

(** The stream primitives of hash.h, serialize.h and chainparams.h used by
    Read.  [Unserialize_payments] is [ssObj >> objToLoad]: it answers whether
    the payload was read without an exception, and the two serialized maps as
    the attempt left them (a failed attempt may leave them half filled). *)
Record Codec := {
  Hash : list byte → list byte;
  MessageStart : list byte;
  Unserialize_string : list byte → option (string * list byte);
  Unserialize_payments :
    list byte → gmap Z CMasternodePaymentWinner → gmap Z CMasternodeBlockPayees →
    bool * (gmap Z CMasternodePaymentWinner * gmap Z CMasternodeBlockPayees)
}.

Definition strMagicMessage : string := "MasternodePayments".

(** sizeof (uint256) *)
Definition sizeof_uint256 : Z := 32.

Definition load (obj : CMasternodePayments)
    (r : gmap Z CMasternodePaymentWinner * gmap Z CMasternodeBlockPayees)
    : CMasternodePayments :=
  Payments.set_blocks (Payments.set_votes obj r.1) r.2.

(** The try block of Read on the checked stream [ssObj]. *)
Definition Read_stream (c : Codec) (e : Env) (ssObj : list byte)
    (objToLoad : CMasternodePayments) (fDryRun : bool)
    : ReadResult * CMasternodePayments :=
  match Unserialize_string c ssObj with
  | None => (IncorrectFormat, Payments.Clear objToLoad)
  | Some (strMagicMessageTmp, ssObj) =>
      if decide (strMagicMessage ≠ strMagicMessageTmp)
      then (IncorrectMagicMessage, objToLoad)
      else if decide (length ssObj < 4)%nat
      then (IncorrectFormat, Payments.Clear objToLoad)
      else
        let pchMsgTmp := take 4 ssObj in
        if decide (pchMsgTmp ≠ MessageStart c)
        then (IncorrectMagicNumber, objToLoad)
        else
          let r := Unserialize_payments c (drop 4 ssObj)
                     (mapMasternodePayeeVotes objToLoad)
                     (mapMasternodeBlocks objToLoad) in
          if negb r.1
          then (IncorrectFormat, Payments.Clear (load objToLoad r.2))
          else if fDryRun then (Ok, load objToLoad r.2)
          else (Ok, (Payments.CleanPaymentList e (load objToLoad r.2)).1)
  end.

(** Read (objToLoad, fDryRun) on the content of mnpayments.dat; [None] when
    the file cannot be opened. *)
Definition Read (c : Codec) (e : Env) (file : option (list byte))
    (objToLoad : CMasternodePayments) (fDryRun : bool)
    : ReadResult * CMasternodePayments :=
  match file with
  | None => (FileError, objToLoad)
  | Some bytes =>
      let fileSize := Z.of_nat (length bytes) in
      let dataSize := fileSize - sizeof_uint256 in
      let dataSize := if decide (dataSize < 0) then 0 else dataSize in
      let vchData := take (Z.to_nat dataSize) bytes in
      let rest := drop (Z.to_nat dataSize) bytes in
      if decide (Z.of_nat (length rest) < sizeof_uint256)
      then (HashReadError, objToLoad)
      else
        let hashIn := take (Z.to_nat sizeof_uint256) rest in
        let hashTmp := Hash c vchData in
        if decide (hashIn ≠ hashTmp) then (IncorrectHash, objToLoad)
        else Read_stream c e vchData objToLoad fDryRun
  end.

End PaymentDB.

(** CTxIn (): a null outpoint and the final sequence number. *)
Definition CTxIn_null : CTxIn :=
  {| prevout := {| op_hash := 0; op_n := 4294967295 |};
     scriptSig := []; nSequence := 4294967295 |}.

(** ** CMasternodePaymentDB::Write and DumpMasternodePayments *)

Module Store.

(** The operator<< of serialize.h used by Write. *)
Record Encoder := {
  Serialize_string : string → list byte;
  Serialize_payments : CMasternodePayments → list byte
}.

(** The stream built by Write: magic message, network magic, ledger, and the
    hash of these. *)
Definition Write_stream (c : PaymentDB.Codec) (enc : Encoder)
    (objToSave : CMasternodePayments) : list byte :=
  let ssObj := Serialize_string enc PaymentDB.strMagicMessage
               ++ PaymentDB.MessageStart c
               ++ Serialize_payments enc objToSave in
  ssObj ++ PaymentDB.Hash c ssObj.

(** Write (objToSave): the answer and the file it leaves.  [fopen] is whether
    the file can be opened for writing; fopen "wb" empties it.  [thrown] is
    [Some n] when [fileout << ssObj] throws after [n] bytes have reached the
    file, [None] when the whole stream is written. *)
Definition Write (c : PaymentDB.Codec) (enc : Encoder) (fopen : bool)
    (thrown : option nat) (file : option (list byte))
    (objToSave : CMasternodePayments) : bool * option (list byte) :=
  if negb fopen then (false, file)
  else match thrown with
       | Some n => (false, Some (take n (Write_stream c enc objToSave)))
       | None => (true, Some (Write_stream c enc objToSave))
       end.

(** DumpMasternodePayments: the file after the call. *)
Definition DumpMasternodePayments (c : PaymentDB.Codec) (enc : Encoder) (e : Env)
    (fopen : bool) (thrown : option nat) (file : option (list byte))
    (masternodePayments : CMasternodePayments) : option (list byte) :=
  let tempPayments := Payments.empty in
  let readResult := (PaymentDB.Read c e file tempPayments true).1 in
  if decide (readResult = PaymentDB.FileError)
  then (Write c enc fopen thrown file masternodePayments).2
  else if decide (readResult ≠ PaymentDB.Ok)
  then if decide (readResult = PaymentDB.IncorrectFormat)
       then (Write c enc fopen thrown file masternodePayments).2
       else file
  else (Write c enc fopen thrown file masternodePayments).2.

End Store.

(** ** Streams (serialize.h) *)

Module Stream.

(** operator>> on a stream: the value read and the rest of the stream, or
    [None] when it throws. *)
Definition Reader (A : Type) : Type := list byte → option (A * list byte).

(** The two directions of READWRITE for one type. *)
Record Format (A : Type) := {
  Serialize : A → list byte;
  Unserialize : Reader A
}.
Arguments Serialize {A} _ _.
Arguments Unserialize {A} _ _.

(** READWRITE (a); READWRITE (b) *)
Definition pair_format {A B} (FA : Format A) (FB : Format B) : Format (A * B) :=
  {| Serialize := λ x, Serialize FA x.1 ++ Serialize FB x.2;
     Unserialize := λ l,
       match Unserialize FA l with
       | None => None
       | Some (a, l) =>
           match Unserialize FB l with
           | None => None
           | Some (b, l) => Some ((a, b), l)
           end
       end |}.

(** A class whose SerializationOp reads and writes the fields [fields x], and
    that is [make f] once the fields [f] are read. *)
Definition class_format {A B} (F : Format A) (make : A → B) (fields : B → A)
    : Format B :=
  {| Serialize := λ x, Serialize F (fields x);
     Unserialize := λ l,
       match Unserialize F l with
       | None => None
       | Some (f, l) => Some (make f, l)
       end |}.

(** [n] values read one after the other: those read before a throw, and the
    rest of the stream when none was thrown. *)
Fixpoint Unserialize_many {A} (r : Reader A) (n : nat) (l : list byte)
    : list A * option (list byte) :=
  match n with
  | O => ([], Some l)
  | S n =>
      match r l with
      | None => ([], None)
      | Some (x, l) =>
          let rest := Unserialize_many r n l in (x :: rest.1, rest.2)
      end
  end.

(** std::vector<T>: the number of elements, then the elements. *)
Definition vector_format (F_size : Format Z) {A} (F : Format A) : Format (list A) :=
  {| Serialize := λ v,
       Serialize F_size (Z.of_nat (length v)) ++ concat (Serialize F <$> v);
     Unserialize := λ l,
       match Unserialize F_size l with
       | None => None
       | Some (nSize, l) =>
           match Unserialize_many (Unserialize F) (Z.to_nat nSize) l with
           | (v, Some l) => Some (v, l)
           | (_, None) => None
           end
       end |}.

(** m.insert (mi, item): an entry whose key is already there is dropped. *)
Definition insert_new {V} (m : gmap Z V) (item : Z * V) : gmap Z V :=
  if decide (is_Some (m !! item.1)) then m else <[item.1 := item.2]> m.

(** std::map<K, T>: the number of entries, then the (key, value) pairs in the
    order of the keys. *)
Definition Serialize_map (F_size : Format Z) {V} (FK : Format Z) (FV : Format V)
    (m : gmap Z V) : list byte :=
  Serialize F_size (Z.of_nat (size m))
  ++ concat (Serialize (pair_format FK FV) <$> std_map_iter m).

(** Reading a std::map clears it, reads the number of entries and inserts the
    pairs one by one: the map as a throw leaves it, and the rest of the
    stream when none was thrown. *)
Definition Unserialize_map (F_size : Format Z) {V} (FK : Format Z) (FV : Format V)
    (l : list byte) : gmap Z V * option (list byte) :=
  match Unserialize F_size l with
  | None => (∅, None)
  | Some (nSize, l) =>
      let r := Unserialize_many (Unserialize (pair_format FK FV)) (Z.to_nat nSize) l in
      (foldl insert_new ∅ r.1, r.2)
  end.

(** The serializers of the field types, from serialize.h, uint256.h, script.h
    and primitives/transaction.h. *)
Record Primitives := {
  MAX_SIZE : Z;
  F_size : Format Z;              (* WriteCompactSize, ReadCompactSize *)
  F_int : Format Z;               (* int *)
  F_uint : Format Z;              (* unsigned int *)
  F_uint256 : Format Z;           (* uint256 *)
  F_bytes : Format (list byte);   (* CScript, std::vector<unsigned char> *)
  F_txin : Format CTxIn;          (* CTxIn *)
  F_string : Format string        (* std::string *)
}.

(** [y] is read back from what was written for [x], whatever follows in the
    stream. *)
Definition reads_as {A} (F : Format A) (x y : A) : Prop :=
  ∀ rest, Unserialize F (Serialize F x ++ rest) = Some (y, rest).

(** The values of each type. *)
Definition is_int (z : Z) : Prop := int_min ≤ z ≤ int_max.
Definition is_uint (z : Z) : Prop := 0 ≤ z < 2 ^ 32.
Definition is_uint256 (z : Z) : Prop := 0 ≤ z < 2 ^ 256.
Definition is_size (p : Primitives) (n : nat) : Prop := Z.of_nat n ≤ MAX_SIZE p.
Definition is_txin (p : Primitives) (v : CTxIn) : Prop :=
  is_uint256 (op_hash (prevout v)) ∧ is_uint (op_n (prevout v))
  ∧ is_size p (length (scriptSig v)) ∧ is_uint (nSequence v).

#[global] Instance is_int_dec z : Decision (is_int z).
Proof. unfold is_int. apply _. Defined.

#[global] Instance is_uint_dec z : Decision (is_uint z).
Proof. unfold is_uint. apply _. Defined.

#[global] Instance is_uint256_dec z : Decision (is_uint256 z).
Proof. unfold is_uint256. apply _. Defined.

#[global] Instance is_size_dec p n : Decision (is_size p n).
Proof. unfold is_size. apply _. Defined.

#[global] Instance is_txin_dec p v : Decision (is_txin p v).
Proof. unfold is_txin. apply _. Defined.

(** What serialize.h promises: a value of the type, of a size within
    [MAX_SIZE], is read back as it was written. *)
Record Lawful (p : Primitives) : Prop := {
  size_exact : ∀ n, is_size p n → reads_as (F_size p) (Z.of_nat n) (Z.of_nat n);
  int_exact : ∀ z, is_int z → reads_as (F_int p) z z;
  uint_exact : ∀ z, is_uint z → reads_as (F_uint p) z z;
  uint256_exact : ∀ z, is_uint256 z → reads_as (F_uint256 p) z z;
  bytes_exact : ∀ l, is_size p (length l) → reads_as (F_bytes p) l l;
  txin_exact : ∀ v, is_txin p v → reads_as (F_txin p) v v;
  string_exact : ∀ s, is_size p (length (String.list_byte_of_string s)) →
                      reads_as (F_string p) s s
}.

End Stream.

(** ** The SerializationOp of the classes, and the payload of mnpayments.dat *)

Module Wire.
Import Stream.

Section classes.
Context (p : Primitives).

(** CMasternodePayee::SerializationOp *)
Definition Payee : Format CMasternodePayee :=
  class_format (pair_format (F_bytes p) (pair_format (F_uint p) (F_int p)))
    (λ f, {| payee_scriptPubKey := f.1; masternodeLevel := f.2.1; nVotes := f.2.2 |})
    (λ x, (payee_scriptPubKey x, (masternodeLevel x, nVotes x))).

(** CMasternodeBlockPayees::SerializationOp *)
Definition BlockPayees : Format CMasternodeBlockPayees :=
  class_format (pair_format (F_int p) (vector_format (F_size p) Payee))
    (λ f, {| nBlockHeight := f.1; vecPayments := f.2 |})
    (λ x, (nBlockHeight x, vecPayments x)).

(** CMasternodePaymentWinner (): the object a std::map entry is read into. *)
Definition Winner_default : CMasternodePaymentWinner :=
  {| vinMasternode := CTxIn_null; winner_nBlockHeight := 0; payee := [];
     vinPayee := CTxIn_null; vchSig := [] |}.

(** CMasternodePaymentWinner::SerializationOp on a stream of version
    [nVersion], read into the object [obj]: below
    MIN_PEER_PROTO_VERSION_MNW_VIN the field [payee] is read and written,
    otherwise the field [vinPayee]; the other of the two keeps the value it
    has in [obj]. *)
Definition PaymentWinner (MNW_VIN nVersion : Z) (obj : CMasternodePaymentWinner)
    : Format CMasternodePaymentWinner :=
  if decide (nVersion < MNW_VIN)
  then class_format
         (pair_format (F_txin p)
            (pair_format (F_int p) (pair_format (F_bytes p) (F_bytes p))))
         (λ f, {| vinMasternode := f.1; winner_nBlockHeight := f.2.1;
                  payee := f.2.2.1; vinPayee := vinPayee obj; vchSig := f.2.2.2 |})
         (λ w, (vinMasternode w, (winner_nBlockHeight w, (payee w, vchSig w))))
  else class_format
         (pair_format (F_txin p)
            (pair_format (F_int p) (pair_format (F_txin p) (F_bytes p))))
         (λ f, {| vinMasternode := f.1; winner_nBlockHeight := f.2.1;
                  payee := payee obj; vinPayee := f.2.2.1; vchSig := f.2.2.2 |})
         (λ w, (vinMasternode w, (winner_nBlockHeight w, (vinPayee w, vchSig w)))).

(** CMasternodePayments::SerializationOp, writing:
    READWRITE (mapMasternodePayeeVotes); READWRITE (mapMasternodeBlocks). *)
Definition Serialize_payments (MNW_VIN nVersion : Z) (L : CMasternodePayments)
    : list byte :=
  Serialize_map (F_size p) (F_uint256 p) (PaymentWinner MNW_VIN nVersion Winner_default)
    (mapMasternodePayeeVotes L)
  ++ Serialize_map (F_size p) (F_int p) BlockPayees (mapMasternodeBlocks L).

(** CMasternodePayments::SerializationOp, reading into an object whose maps
    are [votes] and [blocks]: whether nothing was thrown, and the two maps as
    they are left. *)
Definition Unserialize_payments (MNW_VIN nVersion : Z) (l : list byte)
    (votes : gmap Z CMasternodePaymentWinner) (blocks : gmap Z CMasternodeBlockPayees)
    : bool * (gmap Z CMasternodePaymentWinner * gmap Z CMasternodeBlockPayees) :=
  let v := Unserialize_map (F_size p) (F_uint256 p)
             (PaymentWinner MNW_VIN nVersion Winner_default) l in
  match v.2 with
  | None => (false, (v.1, blocks))
  | Some l =>
      let b := Unserialize_map (F_size p) (F_int p) BlockPayees l in
      (bool_decide (is_Some b.2), (v.1, b.1))
  end.

(** The streams of CMasternodePaymentDB: [hash] is Hash of hash.h, [start] is
    Params ().MessageStart (), [CLIENT_VERSION] the version of the streams. *)
Definition codec (hash : list byte → list byte) (start : list byte)
    (MNW_VIN CLIENT_VERSION : Z) : PaymentDB.Codec :=
  {| PaymentDB.Hash := hash;
     PaymentDB.MessageStart := start;
     PaymentDB.Unserialize_string := Unserialize (F_string p);
     PaymentDB.Unserialize_payments := Unserialize_payments MNW_VIN CLIENT_VERSION |}.

Definition encoder (MNW_VIN CLIENT_VERSION : Z) : Store.Encoder :=
  {| Store.Serialize_string := Serialize (F_string p);
     Store.Serialize_payments := Serialize_payments MNW_VIN CLIENT_VERSION |}.

(** A vote as it comes back from a stream of version [nVersion]: the field
    that is not written is the one of a fresh object. *)
Definition stored (MNW_VIN nVersion : Z) (w : CMasternodePaymentWinner)
    : CMasternodePaymentWinner :=
  if decide (nVersion < MNW_VIN)
  then {| vinMasternode := vinMasternode w; winner_nBlockHeight := winner_nBlockHeight w;
          payee := payee w; vinPayee := CTxIn_null; vchSig := vchSig w |}
  else {| vinMasternode := vinMasternode w; winner_nBlockHeight := winner_nBlockHeight w;
          payee := []; vinPayee := vinPayee w; vchSig := vchSig w |}.

(** The fields hold values of their C++ types, and no container is larger
    than MAX_SIZE. *)
Definition winner_ok (MNW_VIN nVersion : Z) (w : CMasternodePaymentWinner) : Prop :=
  is_txin p (vinMasternode w) ∧ is_int (winner_nBlockHeight w)
  ∧ (if decide (nVersion < MNW_VIN) then is_size p (length (payee w))
     else is_txin p (vinPayee w))
  ∧ is_size p (length (vchSig w)).

Definition payee_ok (x : CMasternodePayee) : Prop :=
  is_size p (length (payee_scriptPubKey x)) ∧ is_uint (masternodeLevel x)
  ∧ is_int (nVotes x).

Definition tally_ok (bp : CMasternodeBlockPayees) : Prop :=
  is_int (nBlockHeight bp) ∧ is_size p (length (vecPayments bp))
  ∧ Forall payee_ok (vecPayments bp).

Definition storable (MNW_VIN nVersion : Z) (L : CMasternodePayments) : Prop :=
  is_size p (size (mapMasternodePayeeVotes L))
  ∧ map_Forall (λ k w, is_uint256 k ∧ winner_ok MNW_VIN nVersion w)
      (mapMasternodePayeeVotes L)
  ∧ is_size p (size (mapMasternodeBlocks L))
  ∧ map_Forall (λ h bp, is_int h ∧ tally_ok bp) (mapMasternodeBlocks L).

#[global] Instance winner_ok_dec MNW_VIN nVersion w :
  Decision (winner_ok MNW_VIN nVersion w).
Proof. unfold winner_ok. case_decide; apply _. Defined.

#[global] Instance payee_ok_dec x : Decision (payee_ok x).
Proof. unfold payee_ok. apply _. Defined.

#[global] Instance tally_ok_dec bp : Decision (tally_ok bp).
Proof. unfold tally_ok. apply _. Defined.

#[global] Instance storable_dec MNW_VIN nVersion L :
  Decision (storable MNW_VIN nVersion L).
Proof. unfold storable. apply _. Defined.

End classes.

End Wire.

(** ** The encodings of the Bitcoin wire format

    serialize.h is not among the sources; the snapshot files of the scenarios
    are written with the encodings it implements: integers little-endian on
    their width, a size as one byte below 253 and as a marker byte (253, 254,
    255) followed by 2, 4 or 8 bytes otherwise, a byte vector or a string as
    its size and its bytes, an outpoint as its 36 bytes. *)

Module Bitcoin.
Import Stream.

Definition byte_val (b : byte) : Z := Z.of_N (Byte.to_N b).

Definition byte_of (z : Z) : byte :=
  default x00 (Byte.of_N (Z.to_N (z mod 256))).

(** The [n] low bytes of [z], lowest first (two's complement for a negative [z]). *)
Fixpoint le_bytes (n : nat) (z : Z) : list byte :=
  match n with
  | O => []
  | S n => byte_of z :: le_bytes n (z / 256)
  end.

Fixpoint le_value (l : list byte) : Z :=
  match l with
  | [] => 0
  | b :: l => byte_val b + 256 * le_value l
  end.

(** CDataStream::read: throws when fewer than [n] bytes are left. *)
Definition read (n : nat) : Reader (list byte) :=
  λ l, if decide (length l < n)%nat then None else Some (take n l, drop n l).

Definition read_le (n : nat) : Reader Z :=
  λ l, match read n l with
       | None => None
       | Some (b, l) => Some (le_value b, l)
       end.

Definition unsigned (n : nat) : Format Z :=
  {| Serialize := le_bytes n; Unserialize := read_le n |}.

Definition signed32 : Format Z :=
  {| Serialize := le_bytes 4;
     Unserialize := λ l,
       match read_le 4 l with
       | None => None
       | Some (v, l) => Some (if decide (v > int_max) then v - 2 ^ 32 else v, l)
       end |}.

Definition MAX_SIZE : Z := 33554432.   (* 0x02000000 *)

Definition WriteCompactSize (nSize : Z) : list byte :=
  if decide (nSize < 253) then [byte_of nSize]
  else if decide (nSize <= 65535) then xfd :: le_bytes 2 nSize
  else if decide (nSize <= 4294967295) then xfe :: le_bytes 4 nSize
  else xff :: le_bytes 8 nSize.

(** ReadCompactSize: throws on a size that is not written the shortest way and
    on a size above MAX_SIZE. *)
Definition ReadCompactSize : Reader Z :=
  λ l, match l with
       | [] => None
       | chSize :: l =>
           let sized (r : option (Z * list byte)) (least : Z) :=
             match r with
             | None => None
             | Some (nSizeRet, l) =>
                 if decide (nSizeRet < least) then None
                 else if decide (nSizeRet > MAX_SIZE) then None
                 else Some (nSizeRet, l)
             end in
           if decide (byte_val chSize < 253) then sized (Some (byte_val chSize, l)) 0
           else if decide (byte_val chSize = 253) then sized (read_le 2 l) 253
           else if decide (byte_val chSize = 254) then sized (read_le 4 l) 65536
           else sized (read_le 8 l) 4294967296
       end.

Definition compact_size : Format Z :=
  {| Serialize := WriteCompactSize; Unserialize := ReadCompactSize |}.

(** std::vector<unsigned char> and CScript: the size, then the bytes. *)
Definition bytes : Format (list byte) :=
  {| Serialize := λ v, WriteCompactSize (Z.of_nat (length v)) ++ v;
     Unserialize := λ l,
       match ReadCompactSize l with
       | None => None
       | Some (nSize, l) => read (Z.to_nat nSize) l
       end |}.

Definition str : Format string :=
  class_format bytes String.string_of_list_byte String.list_byte_of_string.

(** COutPoint: FLATDATA of the 32 bytes of the hash and the 4 bytes of n. *)
Definition outpoint : Format COutPoint :=
  class_format (pair_format (unsigned 32) (unsigned 4))
    (λ f, {| op_hash := f.1; op_n := f.2 |})
    (λ o, (op_hash o, op_n o)).

(** CTxIn: prevout, scriptSig, nSequence. *)
Definition txin : Format CTxIn :=
  class_format (pair_format outpoint (pair_format bytes (unsigned 4)))
    (λ f, {| prevout := f.1; scriptSig := f.2.1; nSequence := f.2.2 |})
    (λ v, (prevout v, (scriptSig v, nSequence v))).

Definition primitives : Primitives :=
  {| Stream.MAX_SIZE := MAX_SIZE;
     F_size := compact_size;
     F_int := signed32;
     F_uint := unsigned 4;
     F_uint256 := unsigned 32;
     F_bytes := bytes;
     F_txin := txin;
     F_string := str |}.

End Bitcoin.

(** ** Sequences of admissions *)

Record Call := {
  call_env : Env;
  call_peer : CNode;
  call_winner : CMasternodePaymentWinner
}.

Definition step (L : CMasternodePayments) (c : Call) : Payments.Result :=
  Payments.ProcessMessage_mnw (call_env c) (call_peer c) L (call_winner c).

(** The ledger after a sequence of "mnw" messages. *)
Definition run (L : CMasternodePayments) (calls : list Call) : CMasternodePayments :=
  foldl (λ L c, Payments.ledger (step L c)) L calls.

Definition call_key (c : Call) : uint256 :=
  Payments.vote_key (call_env c) (call_winner c).

Definition call_height (c : Call) : Z := winner_nBlockHeight (call_winner c).

(** The recorded votes of one voter for payees of one tier at one height. *)
Definition accepted_votes (e : Env) (L : CMasternodePayments)
    (voter : COutPoint) (tier h : Z) : list (Z * CMasternodePaymentWinner) :=
  filter (λ it, prevout (vinMasternode it.2) = voter
                ∧ Winner.GetPayeePhase e it.2 = tier
                ∧ winner_nBlockHeight it.2 = h)
         (std_map_iter (mapMasternodePayeeVotes L)).

(** ** The window of Sync as the specification words it *)

Definition ceil_1_25 (k : Z) : Z := (5 * k + 3) / 4.

Definition spec_sync_window (tip c roster : Z) (h : Z) : Prop :=
  tip - Z.min c (ceil_1_25 roster) ≤ h ≤ tip + 20.

(** ** A concrete network for the scenarios *)

Module Scenario.

Definition vin_of (id : Z) : CTxIn :=
  {| prevout := {| op_hash := id; op_n := 0 |}; scriptSig := []; nSequence := 0 |}.

Definition script_of (id : Z) : CScript := replicate (Z.to_nat id) x51.

(** Twenty masternodes, all on level 1, each signing with its own id. *)
Definition masternode (id : Z) : CMasternode :=
  {| mn_vin := vin_of id;
     mn_collateralScript := script_of id;
     mn_pubKeyMasternode := script_of id;
     mn_protocolVersion := 70920;
     mn_GetPhase := λ _, 1 |}.

Definition find (v : CTxIn) : option CMasternode :=
  let id := op_hash (prevout v) in
  if decide (1 ≤ id ≤ 20 ∧ v = vin_of id) then Some (masternode id) else None.

Definition find_script (s : CScript) : option CMasternode :=
  let id := Z.of_nat (length s) in
  if decide (1 ≤ id ≤ 20 ∧ s = script_of id) then Some (masternode id) else None.

Definition payee_tag (p : PayeeField) : Z :=
  match p with
  | LegacyPayee s => Z.of_nat (length s)
  | VinPayee v => op_hash (prevout v)
  end.

(** A stand-in for the double SHA-256 of the three serialized fields, free of
    collisions on the records used below. *)
Definition toy_hash (p : PayeeField) (h : Z) (o : COutPoint) : uint256 :=
  u256 ((payee_tag p * 1000003 + h) * 1000003 + op_hash o * 31 + op_n o).

(** The collaborators at tip [tip] with [roster] masternodes, all enabled;
    one level, with a reward of 50. *)
Definition env (tip roster : Z) : Env :=
  {| chainTip := Some tip;
     GetBlockHash := λ h, bool_decide (0 ≤ h);
     GetBlockValue := λ _, 100;
     GetMasternodePayment := λ _ _ _ _ _, 50;
     GetTransaction := λ _, None;
     getMasternodePhaseCount := λ _, 1;
     MasternodeCountDrift := 20;
     ActiveProtocol := 70920;
     MIN_PEER_PROTO_VERSION_MNW_VIN := 70920;
     SPORK_8_MASTERNODE_PAYMENT_ENFORCEMENT := true;
     IsSynced := true;
     IsBlockchainSynced := true;
     fLiteMode := false;
     mn_Find := find;
     mn_FindScript := find_script;
     mn_size := roster;
     mn_stable_size := roster;
     CountEnabled := roster;
     CountEnabledOnLevel := λ _, roster;
     GetMasternodeRank := λ _ _ _, 1;
     SerializeHash := toy_hash;
     VerifyMessage := λ pk sig _, bool_decide (pk = sig) |}.

Definition peer : CNode := {| node_id := 7; nVersion := 70920 |}.

(** The vote of masternode [voter] for payee [to] at height [h]. *)
Definition vote (voter to h : Z) : CMasternodePaymentWinner :=
  {| vinMasternode := vin_of voter;
     winner_nBlockHeight := h;
     payee := script_of to;
     vinPayee := vin_of to;
     vchSig := script_of voter |}.

Definition call (tip roster : Z) (voter to h : Z) : Call :=
  {| call_env := env tip roster; call_peer := peer; call_winner := vote voter to h |}.

(** Masternode 1 votes payee 2 at 995, payee 2 at 996, then payee 3 at 995. *)
Definition three_calls : list Call :=
  [call 1000 8 1 2 995; call 1000 8 1 2 996; call 1000 8 1 3 995].

(** Masternodes 11 to 16 each vote payee 2 at 995, payee 2 at 996, then
    payee 3 at 995: the tally of height 995 ends with six votes for payee 2
    and six votes for payee 3. *)
Definition six_double_voters : list Call :=
  flat_map (λ v, [call 1000 8 v 2 995; call 1000 8 v 2 996; call 1000 8 v 3 995])
           [11; 12; 13; 14; 15; 16].

Definition two_quorums : CMasternodePayments := run Payments.empty six_double_voters.

(** Scenario B: six votes for payee 2 on level 1 at height 995. *)
Definition one_quorum : CMasternodeBlockPayees :=
  foldl (λ bp to, BlockPayees.AddPayee bp (script_of to) 1 1)
        {| nBlockHeight := 995; vecPayments := [] |} [2; 2; 2; 2; 2; 2].

(** Scenario C: three votes only. *)
Definition three_votes : CMasternodeBlockPayees :=
  foldl (λ bp to, BlockPayees.AddPayee bp (script_of to) 1 1)
        {| nBlockHeight := 995; vecPayments := [] |} [2; 2; 2].

Definition pay (to amount : Z) : CTransaction :=
  {| vout := [ {| nValue := amount; scriptPubKey := script_of to |} ] |}.

(** A ledger holding one vote per listed height, from masternode 1 for payee 2,
    as the admission pipeline records them at tip [tip]. *)
Definition ledger_with (tip roster : Z) (heights : list Z) : CMasternodePayments :=
  run Payments.empty (map (λ h, call tip roster 1 2 h) heights).

(** The snapshot files of the scenarios: the streams are those of the
    Bitcoin wire format, of a client version above
    MIN_PEER_PROTO_VERSION_MNW_VIN, on the main network.  The digest stands in
    for the double SHA-256 of hash.h: 32 copies of the length byte. *)
Definition toy_digest (l : list byte) : list byte :=
  replicate 32 (default x00 (Byte.of_N (N.of_nat (length l) mod 256))).

Definition CLIENT_VERSION : Z := 1000000.

Definition codec : PaymentDB.Codec :=
  Wire.codec Bitcoin.primitives toy_digest [x90; xc4; xfd; xe9] 70920 CLIENT_VERSION.

Definition encoder : Store.Encoder :=
  Wire.encoder Bitcoin.primitives 70920 CLIENT_VERSION.

Definition header : list byte :=
  x12 :: String.list_byte_of_string PaymentDB.strMagicMessage
  ++ [x90; xc4; xfd; xe9].

Definition snapshot (payload checksum : list byte) : option (list byte) :=
  Some (header ++ payload ++ checksum).

End Scenario.

(** ** Further collaborators: budget, block production, this node's keys *)

Inductive TrxValidationStatus :=
  | InValid
  | Valid
  | DoublePayment
  | VoteThreshold.

Record CPaymentWinner := {
  strAddress : string;
  pw_nVotes : Z;            (* uint64_t *)
  pw_masternodeLevel : Z
}.

Record Node := {
  (* sporks and budget (masternode-budget.h) *)
  SPORK_13_ENABLE_SUPERBLOCKS : bool;
  SPORK_9_MASTERNODE_BUDGET_ENFORCEMENT : bool;
  SPORK_10_MASTERNODE_PAY_UPDATED_NODES : bool;
  MIN_PEER_PROTO_VERSION_BEFORE_ENFORCEMENT : Z;
  IsBudgetPaymentBlock : Z → bool;
  budget_IsTransactionValid : CTransaction → Z → TrxValidationStatus;
  budget_GetRequiredPayments : Z → list CPaymentWinner;
  budget_FillBlockPayee : list CTxOut → Z → bool → list CTxOut;
  GetBudgetPaymentCycleBlocks : Z;
  LAST_POW_BLOCK : Z;
  (* this node as a masternode (activemasternode.h, obfuscation.h) *)
  fMasterNode : bool;
  activeMasternode_vin : CTxIn;
  SetKey : option (list byte);        (* pubKeyMasternode of strMasterNodePrivKey *)
  SignMessage : SignedMessage → option (list byte);
  (* mnodeman *)
  GetNextMasternodeInQueueForPayment : Z → Z → option CMasternode;
  GetCurrentMasternodeOnLevel : Z → Z → option CMasternode;
  (* scripts and addresses *)
  IsZerocoinMint : CTxOut → bool;
  EncodeAddress : CScript → string    (* CBitcoinAddress (destination).ToString () *)
}.

(** ** CMasternodeBlockPayees: the overloads without a level, the queries *)

Module Tally.

(** AddPayee (payeeIn, nIncrement): entries are matched on the script alone and
    a new entry is made on level 0. *)
Fixpoint AddPayee_script_vec (payeeIn : CScript) (nIncrement : Z)
    (v : list CMasternodePayee) : list CMasternodePayee :=
  match v with
  | [] => [ {| payee_scriptPubKey := payeeIn; masternodeLevel := 0;
               nVotes := nIncrement |} ]
  | p :: rest =>
      if decide (payee_scriptPubKey p = payeeIn)
      then BlockPayees.add_votes p nIncrement :: rest
      else p :: AddPayee_script_vec payeeIn nIncrement rest
  end.

Definition AddPayee_script (bp : CMasternodeBlockPayees) (payeeIn : CScript)
    (nIncrement : Z) : CMasternodeBlockPayees :=
  {| nBlockHeight := nBlockHeight bp;
     vecPayments := AddPayee_script_vec payeeIn nIncrement (vecPayments bp) |}.

(** GetPayee (payee): the leader over all levels. *)
Definition GetPayee_any (bp : CMasternodeBlockPayees) (payee0 : CScript)
    : bool * CScript :=
  let r := foldl (λ (acc : CScript * Z) p,
                    if decide (nVotes p > acc.2)
                    then (payee_scriptPubKey p, nVotes p) else acc)
                 (payee0, -1) (vecPayments bp) in
  (bool_decide (r.2 > -1), r.1).

Fixpoint HasPayeeWithVotes_vec (payee : CScript) (nVotesReq : Z)
    (v : list CMasternodePayee) : bool :=
  match v with
  | [] => false
  | p :: rest =>
      if decide (nVotes p >= nVotesReq ∧ payee_scriptPubKey p = payee) then true
      else HasPayeeWithVotes_vec payee nVotesReq rest
  end.

Definition HasPayeeWithVotes (bp : CMasternodeBlockPayees) (payee : CScript)
    (nVotesReq : Z) : bool :=
  HasPayeeWithVotes_vec payee nVotesReq (vecPayments bp).

(** GetRequiredPayments (): one row per entry, in the order of the vector; the
    int count is stored in a uint64_t. *)
Definition GetRequiredPayments (n : Node) (bp : CMasternodeBlockPayees)
    : list CPaymentWinner :=
  (λ p, {| strAddress := EncodeAddress n (payee_scriptPubKey p);
           pw_nVotes := nVotes p mod 2 ^ 64;
           pw_masternodeLevel := masternodeLevel p |}) <$> vecPayments bp.

(** The (script, level) pair that identifies an entry for the levelled AddPayee. *)
Definition entry_key (p : CMasternodePayee) : CScript * Z :=
  (payee_scriptPubKey p, masternodeLevel p).

(** The votes a vector holds for one (script, level) pair. *)
Definition votes_for (k : CScript * Z) (v : list CMasternodePayee) : Z :=
  foldr (λ p acc, if decide (entry_key p = k) then nVotes p + acc else acc) 0 v.

(** All votes of a vector. *)
Definition total_votes (v : list CMasternodePayee) : Z :=
  foldr (λ p acc, nVotes p + acc) 0 v.

End Tally.

(** ** CMasternodePayments: the remaining queries *)

Module Ledger.

Definition set_nLastBlockHeight (L : CMasternodePayments) (h : Z) : CMasternodePayments :=
  {| nSyncedFromPeer := nSyncedFromPeer L; nLastBlockHeight := h;
     mapMasternodePayeeVotes := mapMasternodePayeeVotes L;
     mapMasternodeBlocks := mapMasternodeBlocks L;
     mapMasternodesLastVote := mapMasternodesLastVote L |}.

(** CanVote (outMasternode, nBlockHeight): the guard keyed by hash + n alone. *)
Definition CanVote_outpoint (L : CMasternodePayments) (outMasternode : COutPoint)
    (h : Z) : bool * CMasternodePayments :=
  let key := u256 (op_hash outMasternode + op_n outMasternode) in
  if decide (mapMasternodesLastVote L !! key = Some h) then (false, L)
  else (true, Payments.set_lastVote L (<[key := h]> (mapMasternodesLastVote L))).

Definition GetBlockPayee_any (L : CMasternodePayments) (h : Z) (payee0 : CScript)
    : bool * CScript :=
  match mapMasternodeBlocks L !! h with
  | Some bp => Tally.GetPayee_any bp payee0
  | None => (false, payee0)
  end.

Definition GetRequiredPayments (n : Node) (L : CMasternodePayments) (h : Z)
    : list CPaymentWinner :=
  match mapMasternodeBlocks L !! h with
  | Some bp => Tally.GetRequiredPayments n bp
  | None => []
  end.

(** std::numeric_limits<int>::max () *)
Definition INT_MAX : Z := 2147483647.

Definition GetOldestBlock (L : CMasternodePayments) : Z :=
  foldl (λ nOldestBlock (it : Z * CMasternodeBlockPayees),
           if decide (it.1 < nOldestBlock) then it.1 else nOldestBlock)
        INT_MAX (std_map_iter (mapMasternodeBlocks L)).

Definition GetNewestBlock (L : CMasternodePayments) : Z :=
  foldl (λ nNewestBlock (it : Z * CMasternodeBlockPayees),
           if decide (it.1 > nNewestBlock) then it.1 else nNewestBlock)
        0 (std_map_iter (mapMasternodeBlocks L)).

(** The loop of IsScheduled (mn, nNotBlockHeight) over the heights [hs]; the
    variable [payee] is carried from one pass to the next. *)
Fixpoint IsScheduled_loop (L : CMasternodePayments) (mnpayee : CScript)
    (nNotBlockHeight : Z) (payee : CScript) (hs : list Z) : bool :=
  match hs with
  | [] => false
  | h :: rest =>
      if decide (h = nNotBlockHeight)
      then IsScheduled_loop L mnpayee nNotBlockHeight payee rest
      else
        match mapMasternodeBlocks L !! h with
        | Some bp =>
            let r := Tally.GetPayee_any bp payee in
            if r.1 then
              if decide (mnpayee = r.2) then true
              else IsScheduled_loop L mnpayee nNotBlockHeight r.2 rest
            else IsScheduled_loop L mnpayee nNotBlockHeight r.2 rest
        | None => IsScheduled_loop L mnpayee nNotBlockHeight payee rest
        end
  end.

(** for (int64_t h = nHeight; h <= nHeight + 8; h++) *)
Definition IsScheduled (e : Env) (L : CMasternodePayments) (mn : CMasternode)
    (nNotBlockHeight : Z) : bool :=
  match chainTip e with
  | None => false
  | Some nHeight =>
      IsScheduled_loop L (mn_collateralScript mn) nNotBlockHeight []
        (seqZ nHeight 9)
  end.

(** The loop of IsScheduled (mn, mnLevelCount, nNotBlockHeight). *)
Fixpoint IsScheduled_level_loop (L : CMasternodePayments) (mnPayee : CScript)
    (masternodeLevel nNotBlockHeight : Z) (payee : CScript) (hs : list Z) : bool :=
  match hs with
  | [] => false
  | h :: rest =>
      if decide (h = nNotBlockHeight)
      then IsScheduled_level_loop L mnPayee masternodeLevel nNotBlockHeight payee rest
      else
        match mapMasternodeBlocks L !! h with
        | None =>
            IsScheduled_level_loop L mnPayee masternodeLevel nNotBlockHeight payee rest
        | Some bp =>
            let r := BlockPayees.GetPayee bp payee masternodeLevel in
            if negb r.1
            then IsScheduled_level_loop L mnPayee masternodeLevel nNotBlockHeight r.2 rest
            else if decide (mnPayee = r.2) then true
            else IsScheduled_level_loop L mnPayee masternodeLevel nNotBlockHeight r.2 rest
        end
  end.

(** The heights visited by
    [for (h_upper_bound = nHeight + 10,
          h = h_upper_bound - std::min (10, mnLevelCount - 1); h < h_upper_bound; ++h)]. *)
Definition scheduled_heights (nHeight mnLevelCount : Z) : list Z :=
  let h_upper_bound := nHeight + 10 in
  let h := h_upper_bound - Z.min 10 (mnLevelCount - 1) in
  seqZ h (h_upper_bound - h).

(** [phase] is [mn.GetPhase ()], the current level of the masternode. *)
Definition IsScheduled_level (e : Env) (L : CMasternodePayments) (mn : CMasternode)
    (phase mnLevelCount nNotBlockHeight : Z) : bool :=
  match chainTip e with
  | None => false
  | Some nHeight =>
      IsScheduled_level_loop L (mn_collateralScript mn) phase nNotBlockHeight []
        (scheduled_heights nHeight mnLevelCount)
  end.

Definition GetMinMasternodePaymentsProto (e : Env) (n : Node) : Z :=
  if SPORK_10_MASTERNODE_PAY_UPDATED_NODES n then ActiveProtocol e
  else MIN_PEER_PROTO_VERSION_BEFORE_ENFORCEMENT n.

End Ledger.

(** ** Block production: FillBlockPayee and ProcessBlock *)

Module Producer.

(** txNew.vout [fProofOfStake ? 1 : 0] *)
Definition primary (fProofOfStake : bool) : nat := if fProofOfStake then 1%nat else 0%nat.

Definition with_value (out : CTxOut) (v : Z) : CTxOut :=
  {| nValue := v; scriptPubKey := scriptPubKey out |}.

(** One pass of the loop of CMasternodePayments::FillBlockPayee on the outputs
    and the variable [payee]; [None] when the pass indexes [vout] out of range
    (undefined in C++). *)
Definition fill_step (e : Env) (n : Node) (L : CMasternodePayments)
    (nHeightPrev : Z) (fProofOfStake fZLENOStake : bool)
    (st : option (list CTxOut * CScript)) (masternodePhase : Z)
    : option (list CTxOut * CScript) :=
  match st with
  | None => None
  | Some (vout, payee) =>
      let r := Payments.GetBlockPayee L (nHeightPrev + 1) masternodePhase payee in
      let found :=
        if r.1 then (true, r.2)
        else match GetCurrentMasternodeOnLevel n masternodePhase 1 with
             | None => (false, r.2)
             | Some winningNode => (true, mn_collateralScript winningNode)
             end in
      let hasPayment := found.1 in
      let payee := found.2 in
      let blockValue := GetBlockValue e nHeightPrev in
      let masternodePayment :=
        GetMasternodePayment e (nHeightPrev + 1) masternodePhase blockValue 0
          fZLENOStake in
      if hasPayment then
        let vout := vout ++ [ {| nValue := masternodePayment; scriptPubKey := payee |} ] in
        match vout !! primary fProofOfStake with
        | None => None
        | Some out =>
            if IsZerocoinMint n out then Some (vout, payee)
            else Some (<[primary fProofOfStake :=
                          with_value out (nValue out - masternodePayment)]> vout,
                       payee)
        end
      else if negb fProofOfStake then
        match vout !! 0%nat with
        | None => None
        | Some out =>
            Some (<[0%nat := with_value out (blockValue - masternodePayment)]> vout,
                  payee)
        end
      else Some (vout, payee)
  end.

(** CMasternodePayments::FillBlockPayee on txNew.vout. *)
Definition FillBlockPayee (e : Env) (n : Node) (L : CMasternodePayments)
    (vout : list CTxOut) (fProofOfStake fZLENOStake : bool) : option (list CTxOut) :=
  match chainTip e with
  | None => Some vout
  | Some nHeightPrev =>
      fst <$> foldl (fill_step e n L nHeightPrev fProofOfStake fZLENOStake)
                    (Some (vout, []))
                    (BlockPayees.phases e (nHeightPrev + 1))
  end.

(** The free function FillBlockPayee: budget blocks are filled by the budget. *)
Definition FillBlockPayee_global (e : Env) (n : Node) (L : CMasternodePayments)
    (vout : list CTxOut) (nFees : Z) (fProofOfStake fZLENOStake : bool)
    : option (list CTxOut) :=
  match chainTip e with
  | None => Some vout
  | Some nHeightPrev =>
      if SPORK_13_ENABLE_SUPERBLOCKS n && IsBudgetPaymentBlock n (nHeightPrev + 1)
      then Some (budget_FillBlockPayee n vout nFees fProofOfStake)
      else FillBlockPayee e n L vout fProofOfStake fZLENOStake
  end.

(** CMasternodePaymentWinner::AddPayee (vinPayeeIn) *)
Definition winner_AddPayee (e : Env) (w : CMasternodePaymentWinner)
    (vinPayeeIn : CTxIn) : CMasternodePaymentWinner :=
  let w1 := {| vinMasternode := vinMasternode w;
               winner_nBlockHeight := winner_nBlockHeight w;
               payee := payee w; vinPayee := vinPayeeIn; vchSig := vchSig w |} in
  {| vinMasternode := vinMasternode w1;
     winner_nBlockHeight := winner_nBlockHeight w1;
     payee := Winner.GetPayeeScript e w1; vinPayee := vinPayee w1;
     vchSig := vchSig w1 |}.

(** CMasternodePaymentWinner::Sign: the signed record, when signing and the
    check of the fresh signature both succeed. *)
Definition Sign (e : Env) (n : Node) (pubKeyMasternode : list byte)
    (w : CMasternodePaymentWinner) : option CMasternodePaymentWinner :=
  let strMessage := {| msg_outpoint := prevout (vinMasternode w);
                       msg_height := winner_nBlockHeight w;
                       msg_payee := Winner.GetPayeeScript e w |} in
  match SignMessage n strMessage with
  | None => None
  | Some sig =>
      if VerifyMessage e pubKeyMasternode sig strMessage
      then Some {| vinMasternode := vinMasternode w;
                   winner_nBlockHeight := winner_nBlockHeight w;
                   payee := payee w; vinPayee := vinPayee w; vchSig := sig |}
      else None
  end.

(** One pass of the loop of ProcessBlock, for one level. *)
Definition process_step (e : Env) (n : Node) (pubKeyMasternode : list byte)
    (nBlockHeight : Z) (st : CMasternodePayments * list Effect)
    (masternodePhase : Z) : CMasternodePayments * list Effect :=
  let newWinner := {| vinMasternode := activeMasternode_vin n;
                      winner_nBlockHeight := 0; payee := [];
                      vinPayee := CTxIn_null; vchSig := [] |} in
  match GetNextMasternodeInQueueForPayment n (nBlockHeight + 1) masternodePhase with
  | None => st
  | Some pmn =>
      let newWinner := {| vinMasternode := vinMasternode newWinner;
                          winner_nBlockHeight := nBlockHeight;
                          payee := payee newWinner; vinPayee := vinPayee newWinner;
                          vchSig := vchSig newWinner |} in
      let newWinner := winner_AddPayee e newWinner (mn_vin pmn) in
      match Sign e n pubKeyMasternode newWinner with
      | None => st
      | Some newWinner =>
          let added := Payments.AddWinningMasternode e st.1 newWinner in
          if added.1
          then (Ledger.set_nLastBlockHeight added.2 nBlockHeight,
                st.2 ++ [Relay (Winner.GetHash e newWinner)])
          else (added.2, st.2)
      end
  end.

Definition ProcessBlock (e : Env) (n : Node) (L : CMasternodePayments)
    (nBlockHeight : Z) : bool * (CMasternodePayments * list Effect) :=
  if negb (fMasterNode n) then (false, (L, []))
  else
    let rank := GetMasternodeRank e (activeMasternode_vin n) (nBlockHeight - 100)
                  (ActiveProtocol e) in
    if decide (rank = -1) then (false, (L, []))
    else if decide (rank > MNPAYMENTS_SIGNATURES_TOTAL) then (false, (L, []))
    else if decide (nBlockHeight <= nLastBlockHeight L) then (false, (L, []))
    else if IsBudgetPaymentBlock n nBlockHeight then (true, (L, []))
    else
      match SetKey n with
      | None => (false, (L, []))
      | Some pubKeyMasternode =>
          let st := foldl (process_step e n pubKeyMasternode nBlockHeight) (L, [])
                          (BlockPayees.phases e (nBlockHeight + 1)) in
          (bool_decide (nLastBlockHeight st.1 = nBlockHeight), st)
      end.

End Producer.

(** ** IsBlockValueValid, IsBlockPayeeValid, GetRequiredPayments *)

Module Validation.

(** [tip] is the hash and height of chainActive.Tip (), [mapBlockIndex] gives
    the height of an indexed block. *)
Definition IsBlockValueValid (e : Env) (n : Node) (tip : option (uint256 * Z))
    (mapBlockIndex : uint256 → option Z) (hashPrevBlock : uint256)
    (nExpectedValue nMinted : Z) : bool :=
  match tip with
  | None => true
  | Some (tipHash, tipHeight) =>
      let nHeight :=
        if decide (tipHash = hashPrevBlock) then tipHeight + 1
        else match mapBlockIndex hashPrevBlock with
             | Some h => h + 1
             | None => 0
             end in
      if negb (IsSynced e) then
        if decide (Z.rem nHeight (GetBudgetPaymentCycleBlocks n) < 100) then true
        else if decide (nMinted > nExpectedValue) then false
        else true
      else if negb (SPORK_13_ENABLE_SUPERBLOCKS n)
      then bool_decide (nMinted <= nExpectedValue)
      else if IsBudgetPaymentBlock n nHeight then true
      else if decide (nMinted > nExpectedValue) then false
      else true
  end.

(** The budget part of IsBlockPayeeValid: its verdict when it returns. *)
Definition budget_verdict (n : Node) (txNew : CTransaction) (nBlockHeight : Z)
    : option bool :=
  if SPORK_13_ENABLE_SUPERBLOCKS n then
    if IsBudgetPaymentBlock n nBlockHeight then
      match budget_IsTransactionValid n txNew nBlockHeight with
      | Valid => Some true
      | InValid =>
          if SPORK_9_MASTERNODE_BUDGET_ENFORCEMENT n then Some false else None
      | _ => None
      end
    else None
  else None.

(** IsBlockPayeeValid (block, nBlockHeight) on block.vtx; [None] when block.vtx
    has no transaction at the index read (undefined in C++). *)
Definition IsBlockPayeeValid (e : Env) (n : Node) (L : CMasternodePayments)
    (vtx : list CTransaction) (nBlockHeight : Z) : option bool :=
  if negb (IsSynced e) then Some true
  else
    match vtx !! (if decide (nBlockHeight > LAST_POW_BLOCK n) then 1%nat else 0%nat) with
    | None => None
    | Some txNew =>
        match budget_verdict n txNew nBlockHeight with
        | Some b => Some b
        | None =>
            if Payments.IsTransactionValid e L txNew nBlockHeight then Some true
            else if SPORK_8_MASTERNODE_PAYMENT_ENFORCEMENT e then Some false
            else Some true
        end
    end.

(** The free function GetRequiredPayments. *)
Definition GetRequiredPayments (n : Node) (L : CMasternodePayments) (h : Z)
    : list CPaymentWinner :=
  if SPORK_13_ENABLE_SUPERBLOCKS n && IsBudgetPaymentBlock n h
  then budget_GetRequiredPayments n h
  else Ledger.GetRequiredPayments n L h.

End Validation.

(** ** rpc/masternode.cpp: getmasternodewinners *)

Module Rpc.

Record WinnerRow := { row_address : string; row_nVotes : Z; row_phase : Z }.

Definition winner_rows (vPaymentWinners : list CPaymentWinner) : list WinnerRow :=
  let winners :=
    (λ pw, {| row_address := strAddress pw; row_nVotes := pw_nVotes pw;
              row_phase := pw_masternodeLevel pw |}) <$> vPaymentWinners in
  if decide (length vPaymentWinners = 0%nat)
  then winners ++ [ {| row_address := "Unknown"; row_nVotes := 0; row_phase := 0 |} ]
  else winners.

(** The array built by getmasternodewinners for [nLast], the [int] that atoi
    made of the argument (10 when the argument is absent); [None] when there
    is no chain tip (the call returns 0).  The loop is
    [for (int i = nHeight - nLast; i < nHeight + 20; i++)]. *)
Definition getmasternodewinners (e : Env) (n : Node) (L : CMasternodePayments)
    (nLast : Z) : option (list (Z * list WinnerRow)) :=
  match chainTip e with
  | None => None
  | Some nHeight =>
      let first := height_minus nHeight nLast in
      Some ((λ i, (i, winner_rows (Validation.GetRequiredPayments n L i)))
              <$> seqZ first (nHeight + 20 - first))
  end.

End Rpc.

(** ** Ledgers built by the node *)

Module Built.

Inductive Op :=
  | Mnw (c : Call)                       (* a "mnw" message *)
  | Block (e : Env) (n : Node) (h : Z)   (* ProcessBlock *)
  | Clean (e : Env)                      (* CleanPaymentList *)
  | Reset.                               (* Clear *)

Definition apply (L : CMasternodePayments) (op : Op) : CMasternodePayments :=
  match op with
  | Mnw c => Payments.ledger (step L c)
  | Block e n h => (Producer.ProcessBlock e n L h).2.1
  | Clean e => (Payments.CleanPaymentList e L).1
  | Reset => Payments.Clear L
  end.

(** The ledger of a node that started empty and went through [ops]. *)
Definition after (ops : list Op) : CMasternodePayments :=
  foldl apply Payments.empty ops.

(** The votes recorded for height [h]. *)
Definition votes_at (L : CMasternodePayments) (h : Z) : nat :=
  size (filter (λ it : Z * CMasternodePaymentWinner, winner_nBlockHeight it.2 = h)
          (mapMasternodePayeeVotes L)).

(** The votes counted by the tally of height [h]. *)
Definition counted_at (L : CMasternodePayments) (h : Z) : Z :=
  match mapMasternodeBlocks L !! h with
  | Some bp => Tally.total_votes (vecPayments bp)
  | None => 0
  end.

(** A tally as ProcessMessage and ProcessBlock build it. *)
Definition tally_wf (h : Z) (bp : CMasternodeBlockPayees) : Prop :=
  nBlockHeight bp = h
  ∧ NoDup (Tally.entry_key <$> vecPayments bp)
  ∧ Forall (λ p, 1 ≤ nVotes p) (vecPayments bp).

(** Each tally counts the votes recorded for its height. *)
Definition counts_match (votes : gmap Z CMasternodePaymentWinner)
    (blocks : gmap Z CMasternodeBlockPayees) : Prop :=
  ∀ h, match blocks !! h with
       | Some bp => Tally.total_votes (vecPayments bp)
       | None => 0
       end
       = Z.of_nat (size (filter (λ it : Z * CMasternodePaymentWinner,
                                   winner_nBlockHeight it.2 = h) votes)).

(** Every tally is well formed. *)
Definition tallies_wf (votes : gmap Z CMasternodePaymentWinner)
    (blocks : gmap Z CMasternodeBlockPayees) : Prop :=
  ∀ h bp, blocks !! h = Some bp → tally_wf h bp.

End Built.

(** ** Further fixtures *)

Module Fixtures.

(** The vote of masternode 1 for payee 2 at height 995 with a signature that
    is not the voter's. *)
Definition forged : CMasternodePaymentWinner :=
  {| vinMasternode := Scenario.vin_of 1; winner_nBlockHeight := 995;
     payee := Scenario.script_of 2; vinPayee := Scenario.vin_of 2;
     vchSig := [] |}.

(** Masternode 9 sits on level 2 in this network, the others on level 1. *)
Definition find2 (v : CTxIn) : option CMasternode :=
  let id := op_hash (prevout v) in
  if decide (1 ≤ id ≤ 20 ∧ v = Scenario.vin_of id)
  then Some {| mn_vin := Scenario.vin_of id;
               mn_collateralScript := Scenario.script_of id;
               mn_pubKeyMasternode := Scenario.script_of id;
               mn_protocolVersion := 70920;
               mn_GetPhase := λ _, if decide (id = 9) then 2 else 1 |}
  else None.

Definition env2 : Env :=
  {| chainTip := Some 1000;
     GetBlockHash := λ h, bool_decide (0 ≤ h);
     GetBlockValue := λ _, 100;
     GetMasternodePayment := λ _ phase _ _ _, 10 * phase;
     GetTransaction := λ _, None;
     getMasternodePhaseCount := λ _, 2;
     MasternodeCountDrift := 20;
     ActiveProtocol := 70920;
     MIN_PEER_PROTO_VERSION_MNW_VIN := 70920;
     SPORK_8_MASTERNODE_PAYMENT_ENFORCEMENT := true;
     IsSynced := true;
     IsBlockchainSynced := true;
     fLiteMode := false;
     mn_Find := find2;
     mn_FindScript := Scenario.find_script;
     mn_size := 8;
     mn_stable_size := 8;
     CountEnabled := 8;
     CountEnabledOnLevel := λ _, 8;
     GetMasternodeRank := λ _ _ _, 1;
     SerializeHash := Scenario.toy_hash;
     VerifyMessage := λ pk sig _, bool_decide (pk = sig) |}.

(** This node is masternode 1; the queue names masternode 2 on level 1 and
    masternode 9 on level 2; there are no budget blocks. *)
Definition node : Node :=
  {| SPORK_13_ENABLE_SUPERBLOCKS := false;
     SPORK_9_MASTERNODE_BUDGET_ENFORCEMENT := false;
     SPORK_10_MASTERNODE_PAY_UPDATED_NODES := true;
     MIN_PEER_PROTO_VERSION_BEFORE_ENFORCEMENT := 70910;
     IsBudgetPaymentBlock := λ _, false;
     budget_IsTransactionValid := λ _ _, VoteThreshold;
     budget_GetRequiredPayments := λ _, [];
     budget_FillBlockPayee := λ vout _ _, vout;
     GetBudgetPaymentCycleBlocks := 43200;
     LAST_POW_BLOCK := 200;
     fMasterNode := true;
     activeMasternode_vin := Scenario.vin_of 1;
     SetKey := Some (Scenario.script_of 1);
     SignMessage := λ _, Some (Scenario.script_of 1);
     GetNextMasternodeInQueueForPayment :=
       λ _ phase, find2 (Scenario.vin_of (if decide (phase = 2) then 9 else 2));
     GetCurrentMasternodeOnLevel :=
       λ phase _, find2 (Scenario.vin_of (if decide (phase = 2) then 9 else 3));
     IsZerocoinMint := λ _, false;
     EncodeAddress := λ s, String.string_of_list_byte s |}.

(** The ledger of this node after ProcessBlock for height 1001: its two votes,
    for masternode 2 on level 1 and masternode 9 on level 2. *)
Definition produced : CMasternodePayments :=
  (Producer.ProcessBlock env2 node Payments.empty 1001).2.1.

(** mnpayments.dat as Write leaves it for a ledger. *)
Definition file_of (L : CMasternodePayments) : list byte :=
  Store.Write_stream Scenario.codec Scenario.encoder L.

(** The file of a node that recorded votes of heights 999, 1000, 1875 and 1876
    at tip 1880. *)
Definition old_file : list byte :=
  file_of (Scenario.ledger_with 1880 900 [999; 1000; 1875; 1876]).

(** A file that holds one vote, of height -2147483000. *)
Definition ancient_file : list byte :=
  file_of (Payments.set_votes Payments.empty
             {[ 5 := Scenario.vote 1 2 (-2147483000) ]}).

Definition coinbase : list CTxOut :=
  [ {| nValue := 100; scriptPubKey := Scenario.script_of 7 |} ].

Definition coinstake : list CTxOut :=
  [ {| nValue := 0; scriptPubKey := [] |};
    {| nValue := 250; scriptPubKey := Scenario.script_of 7 |} ].

End Fixtures.

(** ** Amounts of a transaction under construction *)

Module Amounts.

Definition total_value (vout : list CTxOut) : Z :=
  foldr (λ out acc, nValue out + acc) 0 vout.

(** The payments FillBlockPayee computes at tip [nHeightPrev], one per level. *)
Definition payments_due (e : Env) (nHeightPrev : Z) (fZLENOStake : bool) : list Z :=
  (λ masternodePhase,
     GetMasternodePayment e (nHeightPrev + 1) masternodePhase
       (GetBlockValue e nHeightPrev) 0 fZLENOStake)
  <$> BlockPayees.phases e (nHeightPrev + 1).

Definition sum (l : list Z) : Z := foldr Z.add 0 l.

End Amounts.

(** * Properties *)

(** ** The tally check *)

Section tally_loops.
Import BlockPayees.

Lemma nMaxSignatures_from (phase : Z) (v : list CMasternodePayee) (m : Z) :
  foldl (λ nMax p,
           if decide (nVotes p >= nMax ∧ masternodeLevel p = phase)
           then nVotes p else nMax) m v < MNPAYMENTS_SIGNATURES_REQUIRED
  ↔ m < MNPAYMENTS_SIGNATURES_REQUIRED
    ∧ Forall (λ p, masternodeLevel p = phase →
                   nVotes p < MNPAYMENTS_SIGNATURES_REQUIRED) v.
Proof.
  revert m. induction v as [|p v IH]; intros m; simpl.
  - split; [intros H; split; [done | constructor] | tauto].
  - rewrite IH, Forall_cons. case_decide as Hc.
    + destruct Hc as [Hge ->]. split; [intros [H1 H2] | intros [H1 [H2 H3]]].
      * repeat split; [lia | done | done].
      * split; [by apply H2 | done].
    + split; [intros [H1 H2] | tauto].
      repeat split; [done | | done]. intros Hl. lia.
Qed.

Lemma nMaxSignatures_below (bp : CMasternodeBlockPayees) (phase : Z) :
  nMaxSignatures phase (vecPayments bp) < MNPAYMENTS_SIGNATURES_REQUIRED
  ↔ ¬ has_quorum bp phase.
Proof.
  unfold nMaxSignatures. rewrite nMaxSignatures_from, Forall_forall.
  unfold has_quorum, MNPAYMENTS_SIGNATURES_REQUIRED. split.
  - intros [_ H] (p & Hin & Hl & Hv). specialize (H p Hin Hl). lia.
  - intros H. split; [lia |]. intros p Hin Hl.
    destruct (decide (nVotes p < 6)) as [|Hn]; [done |].
    exfalso. apply H. exists p. repeat split; [done | done | lia].
Qed.

Lemma payee_paid_true (s : CScript) (required : Z) (outs : list CTxOut) :
  payee_paid s required outs = true
  ↔ ∃ out, out ∈ outs ∧ scriptPubKey out = s ∧ required ≤ nValue out.
Proof.
  induction outs as [|o outs IH]; simpl.
  - split; [done | intros (out & Hin & _); by apply elem_of_nil in Hin].
  - repeat case_decide; rewrite ?IH; split.
    + intros _. exists o. repeat split; [left | done | lia].
    + done.
    + intros (out & Hin & Hs & Hv). exists out. split; [by right | done].
    + intros (out & Hin & Hs & Hv). apply elem_of_cons in Hin as [-> | Hin].
      * lia.
      * by exists out.
    + intros (out & Hin & Hs & Hv). exists out. split; [by right | done].
    + intros (out & Hin & Hs & Hv). apply elem_of_cons in Hin as [-> | Hin].
      * congruence.
      * by exists out.
Qed.

Lemma hasLevelPayment_true (phase required : Z) (v : list CMasternodePayee)
    (txNew : CTransaction) :
  hasLevelPayment phase required v (vout txNew) = true
  ↔ ∃ p, p ∈ v ∧ masternodeLevel p = phase
         ∧ MNPAYMENTS_SIGNATURES_REQUIRED ≤ nVotes p
         ∧ pays txNew (payee_scriptPubKey p) required.
Proof.
  induction v as [|p v IH]; simpl.
  - split; [done | intros (q & Hin & _); by apply elem_of_nil in Hin].
  - assert (Hrest : (∃ q, q ∈ v ∧ masternodeLevel q = phase
                       ∧ MNPAYMENTS_SIGNATURES_REQUIRED ≤ nVotes q
                       ∧ pays txNew (payee_scriptPubKey q) required)
                    → ∃ q, q ∈ p :: v ∧ masternodeLevel q = phase
                       ∧ MNPAYMENTS_SIGNATURES_REQUIRED ≤ nVotes q
                       ∧ pays txNew (payee_scriptPubKey q) required).
    { intros (q & Hin & Hq). exists q. split; [by right | done]. }
    repeat case_decide.
    + rewrite IH. split; [done |].
      intros (q & Hin & Hl & Hq). apply elem_of_cons in Hin as [-> | Hin];
        [done | by exists q].
    + rewrite IH. split; [done |].
      intros (q & Hin & Hl & Hv & Hq). apply elem_of_cons in Hin as [-> | Hin];
        [lia | by exists q].
    + destruct (payee_paid (payee_scriptPubKey p) required (vout txNew)) eqn:Hp.
      * split; [intros _ | done]. exists p.
        apply payee_paid_true in Hp.
        split_and!; [left | done | lia | done].
      * rewrite IH. split; [done |].
        intros (q & Hin & Hl & Hv & Hq). apply elem_of_cons in Hin as [-> | Hin];
          [| by exists q].
        apply payee_paid_true in Hq. congruence.
Qed.

Lemma transactionCorrect_fold (e : Env) (bp : CMasternodeBlockPayees)
    (txNew : CTransaction) (l : list Z) (b : bool) :
  foldl (λ (transactionCorrect : bool) masternodePhase,
           if decide (nMaxSignatures masternodePhase (vecPayments bp)
                      < MNPAYMENTS_SIGNATURES_REQUIRED)
           then transactionCorrect
           else if hasLevelPayment masternodePhase
                     (requiredMasternodePayment e bp masternodePhase)
                     (vecPayments bp) (vout txNew)
           then transactionCorrect
           else false) b l
  = b && forallb (level_valid e bp txNew) l.
Proof.
  revert b. induction l as [|ph l IH]; intros b; simpl.
  - by rewrite andb_true_r.
  - rewrite IH. unfold level_valid. case_decide; [done |].
    destruct (hasLevelPayment _ _ _ _); [done |]. simpl. by rewrite andb_false_r.
Qed.

Lemma IsTransactionValid_levels (e : Env) (bp : CMasternodeBlockPayees)
    (txNew : CTransaction) :
  IsTransactionValid e bp txNew
  = forallb (level_valid e bp txNew) (phases e (nBlockHeight bp)).
Proof. unfold IsTransactionValid. by rewrite transactionCorrect_fold. Qed.

Lemma level_valid_quorum (e : Env) (bp : CMasternodeBlockPayees)
    (txNew : CTransaction) (phase : Z) :
  has_quorum bp phase →
  level_valid e bp txNew phase
  = hasLevelPayment phase (requiredMasternodePayment e bp phase)
      (vecPayments bp) (vout txNew).
Proof.
  intros Hq. unfold level_valid. case_decide as Hm; [| done].
  by apply nMaxSignatures_below in Hm.
Qed.

(** GetPayee keeps the first entry of the level with the largest count. *)
Lemma GetPayee_loop_max (level : Z) (v : list CMasternodePayee) (acc : CScript * Z) :
  (GetPayee_loop level v acc = acc
   ∧ Forall (λ q, masternodeLevel q = level → nVotes q ≤ acc.2) v)
  ∨ (∃ p, p ∈ v ∧ masternodeLevel p = level
          ∧ GetPayee_loop level v acc = (payee_scriptPubKey p, nVotes p)
          ∧ acc.2 < nVotes p
          ∧ Forall (λ q, masternodeLevel q = level → nVotes q ≤ nVotes p) v).
Proof.
  revert acc. induction v as [|p v IH]; intros acc.
  - left. split; [done | constructor].
  - unfold GetPayee_loop in *. simpl. case_decide as Hc.
    + destruct Hc as [Hl Hv].
      destruct (IH (payee_scriptPubKey p, nVotes p)) as [[Heq Hall] | (q & Hin & Hql & Heq & Hlt & Hall)].
      * right. exists p. simpl in *.
        repeat split; [left | done | done | lia |].
        constructor; [lia | done].
      * right. exists q. simpl in *.
        repeat split; [by right | done | done | lia |].
        constructor; [lia | done].
    + destruct (IH acc) as [[Heq Hall] | (q & Hin & Hql & Heq & Hlt & Hall)].
      * left. split; [done |]. constructor; [| done]. intros Hl.
        destruct (decide (nVotes p ≤ acc.2)); [done |].
        exfalso. apply Hc. split; [done | lia].
      * right. exists q.
        repeat split; [by right | done | done | done |].
        constructor; [| done]. intros Hl.
        destruct (decide (nVotes p ≤ acc.2)); [lia |].
        exfalso. apply Hc. split; [done | lia].
Qed.

Lemma GetPayee_quorum (bp : CMasternodeBlockPayees) (payee0 : CScript) (phase : Z) :
  has_quorum bp phase →
  ∃ p, p ∈ vecPayments bp ∧ masternodeLevel p = phase
       ∧ MNPAYMENTS_SIGNATURES_REQUIRED ≤ nVotes p
       ∧ GetPayee bp payee0 phase = (true, payee_scriptPubKey p).
Proof.
  intros (q & Hin & Hl & Hv). unfold GetPayee.
  destruct (GetPayee_loop_max phase (vecPayments bp) (payee0, -1))
    as [[_ Hall] | (p & Hp & Hpl & Heq & Hlt & Hall)].
  - rewrite Forall_forall in Hall. specialize (Hall q Hin Hl).
    unfold MNPAYMENTS_SIGNATURES_REQUIRED in *. simpl in *. lia.
  - exists p. rewrite Forall_forall in Hall. specialize (Hall q Hin Hl).
    rewrite Heq. simpl in *. repeat split; [done | done | lia |].
    rewrite bool_decide_eq_true_2; [done | lia].
Qed.

End tally_loops.

Lemma forallb_drop_true {A} (f : A → bool) (P : A → Prop) `{∀ x, Decision (P x)}
    (l : list A) :
  (∀ x, ¬ P x → f x = true) → forallb f l = forallb f (filter P l).
Proof.
  intros Hf. induction l as [|x l IH]; [done |]. simpl.
  rewrite filter_cons. case_decide as Hx; simpl.
  - by rewrite IH.
  - by rewrite (Hf x Hx), IH.
Qed.

(** C1, as the code has it: on a level where some payee has reached the six
    votes, the pass of IsTransactionValid for that level succeeds exactly when
    the transaction has an output of at least the required amount to SOME payee
    of the level with six votes or more.  The leading payee of the level is
    one of these payees, so paying it suffices; a transaction all of whose
    outputs are below the required amount fails the level; and the result of
    IsTransactionValid is the conjunction of the passes of all levels. *)
Theorem IsTransactionValid_quorum_payees (e : Env) (bp : CMasternodeBlockPayees)
    (txNew : CTransaction) (phase : Z) (payee0 : CScript) :
  BlockPayees.has_quorum bp phase →
  (BlockPayees.level_valid e bp txNew phase = true
   ↔ ∃ p, p ∈ vecPayments bp ∧ masternodeLevel p = phase
          ∧ MNPAYMENTS_SIGNATURES_REQUIRED ≤ nVotes p
          ∧ BlockPayees.pays txNew (payee_scriptPubKey p)
              (BlockPayees.requiredMasternodePayment e bp phase))
  ∧ (BlockPayees.pays txNew (BlockPayees.GetPayee bp payee0 phase).2
       (BlockPayees.requiredMasternodePayment e bp phase)
     → BlockPayees.level_valid e bp txNew phase = true)
  ∧ ((∀ out, out ∈ vout txNew →
        nValue out < BlockPayees.requiredMasternodePayment e bp phase)
     → BlockPayees.level_valid e bp txNew phase = false)
  ∧ BlockPayees.IsTransactionValid e bp txNew
    = forallb (BlockPayees.level_valid e bp txNew)
        (BlockPayees.phases e (nBlockHeight bp)).
Proof.
  intros Hq.
  assert (Hiff : BlockPayees.level_valid e bp txNew phase = true
    ↔ ∃ p, p ∈ vecPayments bp ∧ masternodeLevel p = phase
          ∧ MNPAYMENTS_SIGNATURES_REQUIRED ≤ nVotes p
          ∧ BlockPayees.pays txNew (payee_scriptPubKey p)
              (BlockPayees.requiredMasternodePayment e bp phase)).
  { rewrite level_valid_quorum by done. apply hasLevelPayment_true. }
  split_and!.
  - exact Hiff.
  - intros Hpay. apply Hiff.
    destruct (GetPayee_quorum bp payee0 phase Hq) as (p & Hin & Hl & Hv & Heq).
    exists p. rewrite Heq in Hpay. by split_and!.
  - intros Hlow. apply not_true_is_false. rewrite Hiff.
    intros (p & _ & _ & _ & out & Hin & _ & Hv). specialize (Hlow out Hin). lia.
  - apply IsTransactionValid_levels.
Qed.

Lemma one_quorum_has_quorum : BlockPayees.has_quorum Scenario.one_quorum 1.
Proof.
  exists {| payee_scriptPubKey := Scenario.script_of 2; masternodeLevel := 1;
            nVotes := 6 |}.
  split_and!; [| done | done]. vm_compute. left.
Defined.

(** Scenario B: with six votes for the payee and a required reward of 50, a
    transaction paying the payee 50 passes and one paying 40 fails. *)
Lemma IsTransactionValid_quorum_payees_witness :
  BlockPayees.has_quorum Scenario.one_quorum 1
  ∧ BlockPayees.level_valid (Scenario.env 1000 8) Scenario.one_quorum
      (Scenario.pay 2 40) 1 = false.
Proof.
  split; [exact one_quorum_has_quorum |].
  refine (proj1 (proj2 (proj2
            (IsTransactionValid_quorum_payees (Scenario.env 1000 8)
               Scenario.one_quorum (Scenario.pay 2 40) 1 []
               one_quorum_has_quorum))) _).
  intros out Hin. apply list_elem_of_singleton in Hin. subst out.
  vm_compute. reflexivity.
Defined.

Example scenario_B_pass :
  BlockPayees.IsTransactionValid (Scenario.env 1000 8) Scenario.one_quorum
    (Scenario.pay 2 50) = true.
Proof. reflexivity. Qed.

Example scenario_B_fail :
  BlockPayees.IsTransactionValid (Scenario.env 1000 8) Scenario.one_quorum
    (Scenario.pay 2 40) = false.
Proof. reflexivity. Qed.

(** C1 as stated fails: after the messages of [Scenario.six_double_voters]
    the tally of height 995 holds six votes for payee 2 and six for payee 3 on
    level 1.  The leading payee is payee 2 (entered first), yet a transaction
    paying only payee 3 the required 50 is valid. *)
Lemma leading_payee_not_required :
  (vecPayments <$> mapMasternodeBlocks Scenario.two_quorums !! 995)
  = Some [ {| payee_scriptPubKey := Scenario.script_of 2; masternodeLevel := 1;
              nVotes := 6 |};
           {| payee_scriptPubKey := Scenario.script_of 3; masternodeLevel := 1;
              nVotes := 6 |} ]
  ∧ Payments.GetBlockPayee Scenario.two_quorums 995 1 []
    = (true, Scenario.script_of 2)
  ∧ Payments.IsTransactionValid (Scenario.env 1000 8) Scenario.two_quorums
      (Scenario.pay 3 50) 995 = true
  ∧ ¬ BlockPayees.pays (Scenario.pay 3 50) (Scenario.script_of 2) 50.
Proof.
  split_and!; [vm_compute; reflexivity .. |].
  intros (out & Hin & Hs & _). apply list_elem_of_singleton in Hin.
  subst out. discriminate Hs.
Qed.

(** C6: when no payee of a level has six votes, the pass of IsTransactionValid
    for that level accepts every transaction, and the result is decided by the
    other levels alone. *)
Theorem IsTransactionValid_unconstrained (e : Env) (bp : CMasternodeBlockPayees)
    (txNew : CTransaction) (phase : Z) :
  (∀ p, p ∈ vecPayments bp → masternodeLevel p = phase →
        nVotes p < MNPAYMENTS_SIGNATURES_REQUIRED) →
  BlockPayees.level_valid e bp txNew phase = true
  ∧ BlockPayees.IsTransactionValid e bp txNew
    = forallb (BlockPayees.level_valid e bp txNew)
        (filter (λ ph, ph ≠ phase) (BlockPayees.phases e (nBlockHeight bp))).
Proof.
  intros Hlow.
  assert (Hv : BlockPayees.level_valid e bp txNew phase = true).
  { unfold BlockPayees.level_valid. case_decide as Hm; [done |].
    exfalso. apply Hm, nMaxSignatures_below.
    intros (p & Hin & Hl & Hp). specialize (Hlow p Hin Hl). lia. }
  split; [exact Hv |].
  rewrite IsTransactionValid_levels. apply forallb_drop_true.
  intros ph Hph. apply dec_stable in Hph. by subst ph.
Qed.

(** Scenario C: three votes at height 995, and a transaction that pays nobody
    of the tally. *)
Lemma IsTransactionValid_unconstrained_witness :
  BlockPayees.IsTransactionValid (Scenario.env 1000 8) Scenario.three_votes
    (Scenario.pay 9 0) = true.
Proof.
  assert (Hlow : ∀ p, p ∈ vecPayments Scenario.three_votes →
                      masternodeLevel p = 1 →
                      nVotes p < MNPAYMENTS_SIGNATURES_REQUIRED).
  { intros p Hin _. apply list_elem_of_singleton in Hin. subst p. reflexivity. }
  rewrite (proj2 (IsTransactionValid_unconstrained (Scenario.env 1000 8)
                    Scenario.three_votes (Scenario.pay 9 0) 1 Hlow)).
  reflexivity.
Defined.

(** C7: without a tally for the height, IsTransactionValid of the ledger
    accepts every transaction. *)
Theorem IsTransactionValid_no_tally (e : Env) (L : CMasternodePayments)
    (txNew : CTransaction) (h : Z) :
  mapMasternodeBlocks L !! h = None →
  Payments.IsTransactionValid e L txNew h = true.
Proof. intros Hnone. unfold Payments.IsTransactionValid. by rewrite Hnone. Qed.

Lemma IsTransactionValid_no_tally_witness :
  Payments.IsTransactionValid (Scenario.env 1000 8) Payments.empty
    (Scenario.pay 2 0) 995 = true.
Proof.
  apply (IsTransactionValid_no_tally (Scenario.env 1000 8) Payments.empty
           (Scenario.pay 2 0) 995).
  reflexivity.
Defined.

(** ** Iterating a std::map *)

Lemma elem_of_std_map_iter {V} (m : gmap Z V) (k : Z) (v : V) :
  (k, v) ∈ std_map_iter m ↔ m !! k = Some v.
Proof.
  unfold std_map_iter. rewrite merge_sort_Permutation.
  apply elem_of_map_to_list.
Qed.

Lemma NoDup_std_map_iter {V} (m : gmap Z V) : NoDup (std_map_iter m).*1.
Proof.
  unfold std_map_iter. rewrite merge_sort_Permutation.
  apply NoDup_fst_map_to_list.
Qed.

Lemma times_1_25_floor (k : Z) : 0 ≤ k → times_1_25 k = 5 * k / 4.
Proof. intros Hk. unfold times_1_25. apply Z.quot_div_nonneg; lia. Qed.

(** ** CleanPaymentList *)

Section cleaning.
Import Payments.

Variables nHeight limit : Z.

Lemma clean_fold_votes (l : list (Z * CMasternodePaymentWinner))
    (st : CMasternodePayments * list Effect) (k : Z) :
  mapMasternodePayeeVotes (foldl (clean_step nHeight limit) st l).1 !! k
  = if decide (Exists (λ it, it.1 = k
                             ∧ height_minus nHeight (winner_nBlockHeight it.2) > limit) l)
    then None else mapMasternodePayeeVotes st.1 !! k.
Proof.
  revert st. induction l as [|it l IH]; intros st.
  - destruct (decide (Exists _ [])) as [Hex%Exists_nil | _]; done.
  - cbn [foldl]. rewrite IH. unfold clean_step.
    destruct (decide (height_minus nHeight (winner_nBlockHeight it.2) > limit)) as [Ho | Ho];
      simpl.
    + destruct (decide (it.1 = k)) as [Hk | Hk].
      * rewrite (decide_True (P := Exists _ (it :: l))); [| by left].
        subst k. rewrite lookup_delete_eq. by case_decide.
      * rewrite lookup_delete_ne by done.
        destruct (decide (Exists _ l)) as [Hl | Hl].
        -- rewrite decide_True; [done | by right].
        -- rewrite decide_False; [done |].
           intros [[? _] | ?]%Exists_cons; done.
    + destruct (decide (Exists _ l)) as [Hl | Hl].
      * rewrite decide_True; [done | by right].
      * rewrite decide_False; [done |].
        intros [[_ ?] | ?]%Exists_cons; done.
Qed.

Lemma clean_fold_blocks (l : list (Z * CMasternodePaymentWinner))
    (st : CMasternodePayments * list Effect) (h : Z) :
  mapMasternodeBlocks (foldl (clean_step nHeight limit) st l).1 !! h
  = if decide (Exists (λ it, winner_nBlockHeight it.2 = h
                             ∧ height_minus nHeight (winner_nBlockHeight it.2) > limit) l)
    then None else mapMasternodeBlocks st.1 !! h.
Proof.
  revert st. induction l as [|it l IH]; intros st.
  - destruct (decide (Exists _ [])) as [Hex%Exists_nil | _]; done.
  - cbn [foldl]. rewrite IH. unfold clean_step.
    destruct (decide (height_minus nHeight (winner_nBlockHeight it.2) > limit)) as [Ho | Ho];
      simpl.
    + destruct (decide (winner_nBlockHeight it.2 = h)) as [Hk | Hk].
      * rewrite (decide_True (P := Exists _ (it :: l))); [| by left].
        subst h. rewrite lookup_delete_eq. by case_decide.
      * rewrite lookup_delete_ne by done.
        destruct (decide (Exists _ l)) as [Hl | Hl].
        -- rewrite decide_True; [done | by right].
        -- rewrite decide_False; [done |].
           intros [[? _] | ?]%Exists_cons; done.
    + destruct (decide (Exists _ l)) as [Hl | Hl].
      * rewrite decide_True; [done | by right].
      * rewrite decide_False; [done |].
        intros [[_ ?] | ?]%Exists_cons; done.
Qed.

Lemma clean_fold_lastVote (l : list (Z * CMasternodePaymentWinner))
    (st : CMasternodePayments * list Effect) :
  mapMasternodesLastVote (foldl (clean_step nHeight limit) st l).1
  = mapMasternodesLastVote st.1.
Proof.
  revert st. induction l as [|it l IH]; intros st; simpl; [done |].
  rewrite IH. unfold clean_step. by case_decide.
Qed.

End cleaning.

Lemma height_minus_le (nHeight x : Z) : height_minus nHeight x ≤ nHeight - x.
Proof. unfold height_minus. simpl. case_decide; lia. Qed.

Lemma height_minus_exact (nHeight x : Z) :
  nHeight - x ≤ int_max → height_minus nHeight x = nHeight - x.
Proof. intros Hd. unfold height_minus. simpl. by rewrite decide_False by lia. Qed.

(** On the heights of a chain and on ints, [height_minus] is the subtraction
    of a two's complement machine. *)
Lemma height_minus_wrap (nHeight x : Z) :
  0 ≤ nHeight ≤ int_max → int_min ≤ x ≤ int_max →
  height_minus nHeight x = wrap_int (nHeight - x).
Proof.
  unfold height_minus, wrap_int, int_min, int_max. intros Hh Hx. simpl.
  case_decide.
  - replace (nHeight - x + 2 ^ 31) with (nHeight - x - 2 ^ 31 + 1 * 2 ^ 32) by lia.
    rewrite Z.mod_add by lia. rewrite Z.mod_small by lia. lia.
  - rewrite Z.mod_small by lia. lia.
Qed.

Lemma clean_votes_lookup (e : Env) (L : CMasternodePayments) (nHeight k : Z)
    (w : CMasternodePaymentWinner) :
  chainTip e = Some nHeight →
  mapMasternodePayeeVotes (Payments.CleanPaymentList e L).1 !! k = Some w
  ↔ mapMasternodePayeeVotes L !! k = Some w
    ∧ ¬ height_minus nHeight (winner_nBlockHeight w) > Payments.nLimit e.
Proof.
  intros Htip. unfold Payments.CleanPaymentList. rewrite Htip.
  rewrite clean_fold_votes. simpl. case_decide as Hex.
  - apply Exists_exists in Hex as ([k' w'] & Hin & Hk & Hold). simpl in *.
    subst k'. apply elem_of_std_map_iter in Hin.
    split; [done |]. intros [Hw Hnew]. rewrite Hin in Hw.
    injection Hw as ->. done.
  - split; [| tauto]. intros Hw. split; [done |]. intros Hold.
    apply Hex, Exists_exists. exists (k, w).
    split; [by apply elem_of_std_map_iter |]. simpl. split; done.
Qed.

Lemma clean_blocks_lookup (e : Env) (L : CMasternodePayments) (nHeight h : Z) :
  chainTip e = Some nHeight →
  mapMasternodeBlocks (Payments.CleanPaymentList e L).1 !! h
  = if decide (height_minus nHeight h > Payments.nLimit e
               ∧ ∃ k w, mapMasternodePayeeVotes L !! k = Some w
                        ∧ winner_nBlockHeight w = h)
    then None else mapMasternodeBlocks L !! h.
Proof.
  intros Htip. unfold Payments.CleanPaymentList. rewrite Htip.
  rewrite clean_fold_blocks. simpl.
  destruct (decide (Exists _ _)) as [Hex | Hex].
  - apply Exists_exists in Hex as ([k w] & Hin & Hk & Hold). simpl in *.
    apply elem_of_std_map_iter in Hin. subst h.
    rewrite decide_True; [done |]. split; [done | by exists k, w].
  - rewrite decide_False; [done |]. intros (Hold & k & w & Hw & Hh).
    apply Hex, Exists_exists. exists (k, w).
    split; [by apply elem_of_std_map_iter |]. simpl. split; [done | by subst h].
Qed.

(** C3, as the code has it: CleanPaymentList at tip [nHeight] removes exactly
    the votes whose height is below [nHeight - retention], with
    retention = max (floor (1.25 × roster size), 1000); every other vote is
    kept as it was, and a tally is dropped exactly when a removed vote had its
    height.  This holds for the votes whose distance from the tip,
    [nHeight - height], fits a 32-bit int (every vote admitted from the
    network does; a vote loaded from a file need not), and for a roster whose
    1.25-fold fits an int.  Beyond that distance the subtraction of the
    compiled code wraps around ([height_minus]), and the last part states what
    is removed then.  At tip 2000 with a roster of 100 the retention is 1000
    (the floor of 1000 exceeds 125): the votes below height 1000 are removed
    and all votes at height 1000 or above, among them 1875 and 1876, are
    kept. *)
Theorem CleanPaymentList_removes_old (e : Env) (L : CMasternodePayments)
    (nHeight : Z) :
  chainTip e = Some nHeight →
  0 ≤ mn_size e →
  5 * mn_size e / 4 ≤ int_max →
  let retention := Z.max (5 * mn_size e / 4) 1000 in
  let L' := (Payments.CleanPaymentList e L).1 in
  (∀ k w, nHeight - winner_nBlockHeight w ≤ int_max →
          (mapMasternodePayeeVotes L' !! k = Some w
           ↔ mapMasternodePayeeVotes L !! k = Some w
             ∧ ¬ winner_nBlockHeight w < nHeight - retention))
  ∧ (∀ h, nHeight - h ≤ int_max →
          mapMasternodeBlocks L' !! h
          = if decide (h < nHeight - retention
                       ∧ ∃ k w, mapMasternodePayeeVotes L !! k = Some w
                                ∧ winner_nBlockHeight w = h)
            then None else mapMasternodeBlocks L !! h)
  ∧ mapMasternodesLastVote L' = mapMasternodesLastVote L
  ∧ (nHeight = 2000 → mn_size e = 100 →
     ∀ k w, 2000 - winner_nBlockHeight w ≤ int_max →
            (mapMasternodePayeeVotes L' !! k = Some w
             ↔ mapMasternodePayeeVotes L !! k = Some w
               ∧ 1000 ≤ winner_nBlockHeight w))
  ∧ (∀ k w, mapMasternodePayeeVotes L' !! k = Some w
            ↔ mapMasternodePayeeVotes L !! k = Some w
              ∧ ¬ height_minus nHeight (winner_nBlockHeight w) > retention).
Proof.
  intros Htip Hsize Hfits retention L'.
  assert (Hret : Payments.nLimit e = retention).
  { unfold Payments.nLimit, retention. by rewrite times_1_25_floor. }
  assert (Hvotes : ∀ k w, nHeight - winner_nBlockHeight w ≤ int_max →
            (mapMasternodePayeeVotes L' !! k = Some w
             ↔ mapMasternodePayeeVotes L !! k = Some w
               ∧ ¬ winner_nBlockHeight w < nHeight - retention)).
  { intros k w Hd. unfold L'. rewrite clean_votes_lookup by done.
    rewrite Hret, height_minus_exact by done.
    split; intros [? ?]; split; (done || lia). }
  split_and!.
  - exact Hvotes.
  - intros h Hd. unfold L'. rewrite (clean_blocks_lookup e L nHeight) by done.
    rewrite Hret, height_minus_exact by done.
    destruct (decide (nHeight - h > retention ∧ _)) as [[Ho Hex] | Hn].
    + rewrite decide_True; [done |]. split; [lia | done].
    + rewrite decide_False; [done |]. intros [Ho Hex]. apply Hn. split; [lia | done].
  - unfold L', Payments.CleanPaymentList. rewrite Htip.
    by rewrite clean_fold_lastVote.
  - intros -> H100 k w Hd. rewrite Hvotes by done.
    unfold retention. rewrite H100.
    change (Z.max (5 * 100 / 4) 1000) with 1000. split; intros [? ?]; split; (done || lia).
  - intros k w. unfold L'. rewrite clean_votes_lookup by done. by rewrite Hret.
Qed.

(** Scenario E on the code: votes of heights 999, 1000, 1875 and 1876,
    recorded at tip 1880, are cleaned at tip 2000 with a roster of 100; the
    vote of height 1000 is kept. *)
Lemma CleanPaymentList_removes_old_witness :
  mapMasternodePayeeVotes
    (Payments.CleanPaymentList (Scenario.env 2000 100)
       (Scenario.ledger_with 1880 900 [999; 1000; 1875; 1876])).1
    !! Winner.GetHash (Scenario.env 2000 100) (Scenario.vote 1 2 1000)
  = Some (Scenario.vote 1 2 1000).
Proof.
  refine (proj2 (proj1 (proj2 (proj2 (proj2
            (CleanPaymentList_removes_old (Scenario.env 2000 100)
               (Scenario.ledger_with 1880 900 [999; 1000; 1875; 1876]) 2000
               eq_refl _ _)))) eq_refl eq_refl _ _ _) (conj _ _)).
  - vm_compute. discriminate.
  - vm_compute. discriminate.
  - vm_compute. discriminate.
  - vm_compute. reflexivity.
  - vm_compute. discriminate.
Defined.

(** C3 as stated fails: at tip 2000 with a roster of 100, a vote of height
    1875 is in the ledger before the clean-up and still there after it. *)
Lemma CleanPaymentList_keeps_1875 :
  chainTip (Scenario.env 2000 100) = Some 2000
  ∧ mn_size (Scenario.env 2000 100) = 100
  ∧ mapMasternodePayeeVotes (Scenario.ledger_with 1880 100 [1875; 1876])
      !! Winner.GetHash (Scenario.env 2000 100) (Scenario.vote 1 2 1875)
    = Some (Scenario.vote 1 2 1875)
  ∧ winner_nBlockHeight (Scenario.vote 1 2 1875) ≤ 2000 - 125
  ∧ mapMasternodePayeeVotes
      (Payments.CleanPaymentList (Scenario.env 2000 100)
         (Scenario.ledger_with 1880 100 [1875; 1876])).1
      !! Winner.GetHash (Scenario.env 2000 100) (Scenario.vote 1 2 1875)
    = Some (Scenario.vote 1 2 1875).
Proof. vm_compute. split_and!; (reflexivity || discriminate). Qed.

Example scenario_E_heights :
  (λ it, winner_nBlockHeight it.2) <$>
    std_map_iter (mapMasternodePayeeVotes
      (Payments.CleanPaymentList (Scenario.env 2000 100)
         (Scenario.ledger_with 1880 900 [999; 1000; 1875; 1876])).1)
  = [1000; 1875; 1876].
Proof. vm_compute. reflexivity. Qed.

(** ** Sync *)

Lemma sync_fold (e : Env) (node : CNode) (nHeight c : Z)
    (l : list (Z * CMasternodePaymentWinner)) (st : list Effect * Z) :
  foldl (Payments.sync_step e node nHeight c) st l
  = (st.1 ++ ((λ it, PushInventory (node_id node) (Winner.GetHash e it.2)) <$>
                filter (λ it, Payments.in_sync_window nHeight c it.2) l),
     st.2 + Z.of_nat (length (filter (λ it, Payments.in_sync_window nHeight c it.2) l))).
Proof.
  revert st. induction l as [|it l IH]; intros [effs n].
  - simpl. f_equal; [by rewrite app_nil_r | lia].
  - cbn [foldl]. rewrite IH. unfold Payments.sync_step. rewrite filter_cons.
    case_decide; simpl.
    + f_equal; [by rewrite <- app_assoc | lia].
    + done.
Qed.

Lemma clamp_count_min (e : Env) (c : Z) :
  0 ≤ CountEnabled e →
  Payments.clamp_count e c = Z.min c (5 * CountEnabled e / 4).
Proof.
  intros Hn. unfold Payments.clamp_count. rewrite times_1_25_floor by done.
  case_decide; lia.
Qed.

(** C9, as the code has it: at tip [nHeight], Sync pushes one inventory item
    for each vote of the ledger whose height lies between a lower bound and
    [nHeight + 20], for these votes only and once each, and then one "ssc"
    message carrying their number.  For a requested count [c] of at least
    [nHeight - 2147483647] the lower bound is
    [nHeight - min (c, floor (1.25 × enabled))].  A peer may send any int:
    below that range the subtraction of the compiled code wraps around and
    the lower bound is that difference less 2^32 ([height_minus]). *)
Theorem Sync_announces_window (e : Env) (L : CMasternodePayments) (node : CNode)
    (c nHeight : Z) :
  chainTip e = Some nHeight →
  0 ≤ CountEnabled e →
  ∃ announced : list (Z * CMasternodePaymentWinner),
    Payments.Sync e L node c
    = ((λ it, PushInventory (node_id node) (Winner.GetHash e it.2)) <$> announced)
      ++ [PushMessage_ssc (node_id node) (Z.of_nat (length announced))]
    ∧ NoDup announced.*1
    ∧ (nHeight ≤ int_max → nHeight - int_max ≤ c →
       ∀ k w, (k, w) ∈ announced
              ↔ mapMasternodePayeeVotes L !! k = Some w
                ∧ nHeight - Z.min c (5 * CountEnabled e / 4)
                  ≤ winner_nBlockHeight w ≤ nHeight + 20)
    ∧ (∀ k w, (k, w) ∈ announced
              ↔ mapMasternodePayeeVotes L !! k = Some w
                ∧ height_minus nHeight (Z.min c (5 * CountEnabled e / 4))
                  ≤ winner_nBlockHeight w ≤ nHeight + 20).
Proof.
  intros Htip Hn.
  exists (filter (λ it, Payments.in_sync_window nHeight
                          (Payments.clamp_count e c) it.2)
            (std_map_iter (mapMasternodePayeeVotes L))).
  assert (Hin : ∀ k w,
    (k, w) ∈ filter (λ it, Payments.in_sync_window nHeight
                             (Payments.clamp_count e c) it.2)
               (std_map_iter (mapMasternodePayeeVotes L))
    ↔ mapMasternodePayeeVotes L !! k = Some w
      ∧ height_minus nHeight (Z.min c (5 * CountEnabled e / 4))
        ≤ winner_nBlockHeight w ≤ nHeight + 20).
  { intros k w. rewrite list_elem_of_filter, elem_of_std_map_iter.
    unfold Payments.in_sync_window. rewrite clamp_count_min by done. simpl.
    split; [intros [[? ?] ?] | intros [? [? ?]]]; split_and!; (done || lia). }
  split_and!.
  - unfold Payments.Sync. rewrite Htip, sync_fold. simpl. done.
  - apply NoDup_fmap_fst.
    + intros k w1 w2 [_ H1]%list_elem_of_filter [_ H2]%list_elem_of_filter.
      apply elem_of_std_map_iter in H1, H2. congruence.
    + apply NoDup_filter. eapply NoDup_fmap_1, NoDup_std_map_iter.
  - intros Htop Hc k w. rewrite Hin.
    assert (0 ≤ 5 * CountEnabled e / 4) by (apply Z.div_pos; lia).
    rewrite height_minus_exact by lia. done.
  - exact Hin.
Qed.

(** Tip 1000, eight enabled masternodes, votes at 989, 990, 1020: the request
    for 50 is clamped to 10, the votes at 990 and 1020 are announced. *)
Lemma Sync_announces_window_witness :
  ∃ announced : list (Z * CMasternodePaymentWinner),
    Payments.Sync (Scenario.env 1000 8)
      (Scenario.ledger_with 1005 20 [989; 990; 1020]) Scenario.peer 50
    = ((λ it, PushInventory 7 (Winner.GetHash (Scenario.env 1000 8) it.2))
         <$> announced) ++ [PushMessage_ssc 7 (Z.of_nat (length announced))]
    ∧ NoDup announced.*1
    ∧ ∀ k w, (k, w) ∈ announced
             ↔ mapMasternodePayeeVotes
                 (Scenario.ledger_with 1005 20 [989; 990; 1020]) !! k = Some w
               ∧ 1000 - Z.min 50 (5 * 8 / 4) ≤ winner_nBlockHeight w ≤ 1000 + 20.
Proof.
  destruct (Sync_announces_window (Scenario.env 1000 8)
              (Scenario.ledger_with 1005 20 [989; 990; 1020]) Scenario.peer
              50 1000 eq_refl) as (announced & H1 & H2 & H3 & _).
  - vm_compute. discriminate.
  - exists announced. split_and!; [exact H1 | exact H2 |].
    apply H3; vm_compute; discriminate.
Defined.

(** A peer asks for -2147483648 heights: 1000 + 2147483648 does not fit an
    int, the lower bound wraps around to -2147482648 and every vote up to
    height 1020 is announced. *)
Example Sync_negative_count :
  Payments.Sync (Scenario.env 1000 8)
    (Scenario.ledger_with 1005 20 [989; 990; 1020]) Scenario.peer (-2147483648)
  = [ PushInventory 7 (Winner.GetHash (Scenario.env 1000 8) (Scenario.vote 1 2 989));
      PushInventory 7 (Winner.GetHash (Scenario.env 1000 8) (Scenario.vote 1 2 990));
      PushInventory 7 (Winner.GetHash (Scenario.env 1000 8) (Scenario.vote 1 2 1020));
      PushMessage_ssc 7 3 ].
Proof. vm_compute. reflexivity. Qed.

Example Sync_scenario :
  Payments.Sync (Scenario.env 1000 8)
    (Scenario.ledger_with 1005 20 [989; 990; 1020]) Scenario.peer 50
  = [ PushInventory 7 (Winner.GetHash (Scenario.env 1000 8) (Scenario.vote 1 2 990));
      PushInventory 7 (Winner.GetHash (Scenario.env 1000 8) (Scenario.vote 1 2 1020));
      PushMessage_ssc 7 2 ].
Proof. vm_compute. reflexivity. Qed.

(** C9 as stated fails: with three enabled masternodes, 1.25 × 3 = 3.75; at
    tip 1000 and a request for 10, the window of the specification,
    [1000 - min (10, ceil 3.75), 1020], holds the vote of height 996, but the
    code clamps to 3 and announces nothing. *)
Lemma Sync_floor_not_ceil :
  mapMasternodePayeeVotes (Scenario.ledger_with 1000 8 [996])
    !! Winner.GetHash (Scenario.env 1000 3) (Scenario.vote 1 2 996)
  = Some (Scenario.vote 1 2 996)
  ∧ spec_sync_window 1000 10 (CountEnabled (Scenario.env 1000 3)) 996
  ∧ Payments.Sync (Scenario.env 1000 3) (Scenario.ledger_with 1000 8 [996])
      Scenario.peer 10
    = [PushMessage_ssc 7 0].
Proof.
  split_and!; [vm_compute; reflexivity | | vm_compute; reflexivity].
  unfold spec_sync_window. vm_compute. split; discriminate.
Qed.

(** ** The admission pipeline *)

Section admission.
Import Payments.

Lemma CanVote_false (e : Env) (L : CMasternodePayments) (w : CMasternodePaymentWinner) :
  (CanVote e L w).1 = false
  ↔ mapMasternodesLastVote L !! vote_key e w = Some (winner_nBlockHeight w).
Proof. unfold CanVote. case_decide; simpl; split; (done || congruence). Qed.

Lemma CanVote_rejects_keeps (e : Env) (L : CMasternodePayments)
    (w : CMasternodePaymentWinner) :
  (CanVote e L w).1 = false → (CanVote e L w).2 = L.
Proof. unfold CanVote. by case_decide. Qed.

Lemma CanVote_lastVote (e : Env) (L : CMasternodePayments)
    (w : CMasternodePaymentWinner) :
  mapMasternodesLastVote (CanVote e L w).2 !! vote_key e w
  = Some (winner_nBlockHeight w).
Proof.
  unfold CanVote. case_decide; simpl; [done |]. apply lookup_insert_eq.
Qed.

Lemma CanVote_frame (e : Env) (L : CMasternodePayments)
    (w : CMasternodePaymentWinner) (K : Z) :
  K ≠ vote_key e w →
  mapMasternodesLastVote (CanVote e L w).2 !! K = mapMasternodesLastVote L !! K.
Proof.
  intros HK. unfold CanVote. case_decide; simpl; [done |].
  by rewrite lookup_insert_ne.
Qed.

Lemma CanVote_indexes (e : Env) (L : CMasternodePayments)
    (w : CMasternodePaymentWinner) :
  mapMasternodePayeeVotes (CanVote e L w).2 = mapMasternodePayeeVotes L
  ∧ mapMasternodeBlocks (CanVote e L w).2 = mapMasternodeBlocks L.
Proof. unfold CanVote. by case_decide. Qed.

Lemma AddWinningMasternode_lastVote (e : Env) (L : CMasternodePayments)
    (w : CMasternodePaymentWinner) :
  mapMasternodesLastVote (AddWinningMasternode e L w).2 = mapMasternodesLastVote L.
Proof.
  unfold AddWinningMasternode.
  destruct (GetBlockHash e _); simpl; [| done]. by case_decide.
Qed.

Lemma AddWinningMasternode_known (e : Env) (L : CMasternodePayments)
    (w : CMasternodePaymentWinner) :
  is_Some (mapMasternodePayeeVotes L !! Winner.GetHash e w) →
  AddWinningMasternode e L w = (false, L).
Proof.
  intros Hk. unfold AddWinningMasternode.
  destruct (GetBlockHash e _); simpl; [| done]. by rewrite decide_True.
Qed.

(** What a successful AddWinningMasternode has done. *)
Lemma AddWinningMasternode_true (e : Env) (L : CMasternodePayments)
    (w : CMasternodePaymentWinner) :
  (AddWinningMasternode e L w).1 = true →
  GetBlockHash e (winner_nBlockHeight w - 100) = true
  ∧ mapMasternodePayeeVotes L !! Winner.GetHash e w = None
  ∧ mapMasternodePayeeVotes (AddWinningMasternode e L w).2
    = <[Winner.GetHash e w := w]> (mapMasternodePayeeVotes L)
  ∧ mapMasternodeBlocks (AddWinningMasternode e L w).2
    = <[winner_nBlockHeight w :=
          BlockPayees.AddPayee
            (default {| nBlockHeight := winner_nBlockHeight w; vecPayments := [] |}
               (mapMasternodeBlocks L !! winner_nBlockHeight w))
            (Winner.GetPayeeScript e w) (Winner.GetPayeePhase e w) 1]>
        (mapMasternodeBlocks L).
Proof.
  unfold AddWinningMasternode.
  destruct (GetBlockHash e _); simpl; [| done].
  destruct (decide (is_Some (mapMasternodePayeeVotes L !! Winner.GetHash e w)))
    as [Hk | Hk]; simpl; [done |].
  intros _. split_and!; [done | by apply eq_None_not_Some | done |].
  unfold blocks_at.
  destruct (decide (is_Some (mapMasternodeBlocks L !! winner_nBlockHeight w)))
    as [[bp Hbp] | Hn].
  - by rewrite Hbp.
  - apply eq_None_not_Some in Hn. rewrite Hn, lookup_insert_eq. simpl.
    by rewrite insert_insert_eq.
Qed.

(** The checks passed by an accepted "mnw" message, and the ledger it leaves. *)
Lemma mnw_accepted (e : Env) (pfrom : CNode) (L : CMasternodePayments)
    (w : CMasternodePaymentWinner) :
  outcome (ProcessMessage_mnw e pfrom L w) = Accepted →
  IsBlockchainSynced e = true ∧ fLiteMode e = false
  ∧ ¬ nVersion pfrom < ActiveProtocol e
  ∧ Winner.GetPhase e w ≠ 0 ∧ Winner.GetPayeePhase e w ≠ 0
  ∧ (∃ nHeight, chainTip e = Some nHeight
       ∧ nHeight - times_1_25 (CountEnabledOnLevel e (Winner.GetPayeePhase e w))
         ≤ winner_nBlockHeight w ≤ nHeight + 20)
  ∧ mapMasternodePayeeVotes L !! Winner.GetHash e w = None
  ∧ (CanVote e L w).1 = true
  ∧ (AddWinningMasternode e (CanVote e L w).2 w).1 = true
  ∧ ledger (ProcessMessage_mnw e pfrom L w)
    = (AddWinningMasternode e (CanVote e L w).2 w).2.
Proof.
  unfold ProcessMessage_mnw.
  destruct (IsBlockchainSynced e); simpl; [| done].
  destruct (fLiteMode e); simpl; [done |].
  destruct (decide (nVersion pfrom < ActiveProtocol e)); simpl; [done |].
  destruct (decide (Winner.GetPhase e w = 0)); simpl; [done |].
  destruct (decide (Winner.GetPayeePhase e w = 0)); simpl; [done |].
  destruct (chainTip e) as [nHeight |]; simpl; [| done].
  destruct (decide (is_Some _)) as [| Hnew]; simpl; [done |].
  destruct (decide (_ ∨ _)) as [| Hwin]; simpl; [done |].
  destruct (Winner.IsValid e pfrom w).1; simpl; [| done].
  destruct (CanVote e L w).1 eqn:Hcan; simpl; [| done].
  destruct (Winner.SignatureValid e w); simpl; [| done].
  destruct (AddWinningMasternode e (CanVote e L w).2 w).1 eqn:Hadd; simpl;
    [| done].
  intros _. split_and!; try done.
  - exists nHeight. split; [done | lia].
  - by apply eq_None_not_Some.
Qed.

(** Every return point of the "mnw" branch leaves the double-vote guard as it
    was, or with the height of the message recorded under its key. *)
Lemma mnw_lastVote (e : Env) (pfrom : CNode) (L : CMasternodePayments)
    (w : CMasternodePaymentWinner) (K : Z) :
  mapMasternodesLastVote (ledger (ProcessMessage_mnw e pfrom L w)) !! K
  = mapMasternodesLastVote L !! K
  ∨ (K = vote_key e w
     ∧ mapMasternodesLastVote (ledger (ProcessMessage_mnw e pfrom L w)) !! K
       = Some (winner_nBlockHeight w)).
Proof.
  assert (Hcan : mapMasternodesLastVote (CanVote e L w).2 !! K
                 = mapMasternodesLastVote L !! K
                 ∨ (K = vote_key e w
                    ∧ mapMasternodesLastVote (CanVote e L w).2 !! K
                      = Some (winner_nBlockHeight w))).
  { destruct (decide (K = vote_key e w)) as [-> | HK].
    - right. split; [done | apply CanVote_lastVote].
    - left. by apply CanVote_frame. }
  unfold ProcessMessage_mnw.
  destruct (IsBlockchainSynced e); simpl; [| by left].
  destruct (fLiteMode e); simpl; [by left |].
  destruct (decide (nVersion pfrom < ActiveProtocol e)); simpl; [by left |].
  destruct (decide (Winner.GetPhase e w = 0)); simpl; [by left |].
  destruct (decide (Winner.GetPayeePhase e w = 0)); simpl; [by left |].
  destruct (chainTip e) as [nHeight |]; simpl; [| by left].
  destruct (decide (is_Some _)); simpl; [by left |].
  destruct (decide (_ ∨ _)); simpl; [by left |].
  destruct (Winner.IsValid e pfrom w).1; simpl; [| by left].
  destruct (CanVote e L w).1; simpl; [| done].
  destruct (Winner.SignatureValid e w); simpl; [| done].
  destruct (AddWinningMasternode e (CanVote e L w).2 w).1 eqn:Hadd; simpl;
    by rewrite AddWinningMasternode_lastVote.
Qed.

(** A message whose hash is already in the vote index changes nothing. *)
Lemma mnw_known (e : Env) (pfrom : CNode) (L : CMasternodePayments)
    (w : CMasternodePaymentWinner) :
  is_Some (mapMasternodePayeeVotes L !! Winner.GetHash e w) →
  ledger (ProcessMessage_mnw e pfrom L w) = L
  ∧ outcome (ProcessMessage_mnw e pfrom L w) ∈ [Ignored; Incomplete; Duplicate].
Proof.
  intros Hk. unfold ProcessMessage_mnw.
  destruct (IsBlockchainSynced e); simpl; [| split; [done | set_solver]].
  destruct (fLiteMode e); simpl; [split; [done | set_solver] |].
  destruct (decide (nVersion pfrom < ActiveProtocol e)); simpl;
    [split; [done | set_solver] |].
  destruct (decide (Winner.GetPhase e w = 0)); simpl;
    [split; [done | set_solver] |].
  destruct (decide (Winner.GetPayeePhase e w = 0)); simpl;
    [split; [done | set_solver] |].
  destruct (chainTip e) as [nHeight |]; simpl; [| split; [done | set_solver]].
  rewrite decide_True by done. simpl. split; [done | set_solver].
Qed.

End admission.

Lemma run_keeps_lastVote (K h : Z) (mid : list Call) (L : CMasternodePayments) :
  mapMasternodesLastVote L !! K = Some h →
  Forall (λ c, ¬ (call_key c = K ∧ call_height c ≠ h)) mid →
  mapMasternodesLastVote (run L mid) !! K = Some h.
Proof.
  revert L. induction mid as [|c mid IH]; intros L HL Hall; [done |].
  apply Forall_cons in Hall as [Hc Hmid]. unfold run. cbn [foldl].
  apply IH; [| done]. unfold step.
  destruct (mnw_lastVote (call_env c) (call_peer c) L (call_winner c) K)
    as [-> | [HK ->]]; [done |].
  f_equal. destruct (decide (call_height c = h)) as [| Hne]; [done |].
  exfalso. apply Hc. by split.
Qed.

(** C2, as the code has it: the guard keeps one height per key, the last one.
    CanVote answers false exactly when the height recorded last under the key
    of the vote is the height of the vote.  Hence two votes of one key for one
    height are never both accepted unless, between them, a message of the same
    key for another height came in: in particular never back to back. *)
Theorem double_vote_needs_other_height (L : CMasternodePayments) (c1 : Call)
    (mid : list Call) (c2 : Call) :
  Payments.outcome (step L c1) = Payments.Accepted →
  Payments.outcome (step (run (Payments.ledger (step L c1)) mid) c2)
  = Payments.Accepted →
  call_key c2 = call_key c1 →
  call_height c2 = call_height c1 →
  Exists (λ c, call_key c = call_key c1 ∧ call_height c ≠ call_height c1) mid
  ∧ ∀ L', (Payments.CanVote (call_env c2) L' (call_winner c2)).1 = false
          ↔ mapMasternodesLastVote L' !! call_key c2 = Some (call_height c2).
Proof.
  intros H1 H2 Hkey Hheight. split; [| intros L'; apply CanVote_false].
  destruct (decide (Exists (λ c, call_key c = call_key c1
                                 ∧ call_height c ≠ call_height c1) mid))
    as [| Hno]; [done | exfalso].
  apply not_Exists_Forall in Hno; [| intros c; apply _].
  apply mnw_accepted in H1 as (_ & _ & _ & _ & _ & _ & _ & _ & _ & HL1).
  apply mnw_accepted in H2 as (_ & _ & _ & _ & _ & _ & _ & Hcan & _ & _).
  assert (Hrec : mapMasternodesLastVote (Payments.ledger (step L c1)) !! call_key c1
                 = Some (call_height c1)).
  { unfold step. rewrite HL1, AddWinningMasternode_lastVote.
    apply CanVote_lastVote. }
  apply (run_keeps_lastVote _ _ mid) in Hrec; [| done].
  assert (Hrej : (Payments.CanVote (call_env c2)
                    (run (Payments.ledger (step L c1)) mid) (call_winner c2)).1
                 = false).
  { apply CanVote_false. fold (call_key c2). fold (call_height c2).
    by rewrite Hkey, Hheight. }
  congruence.
Qed.

(** Masternode 1 votes payee 2 at 995, payee 2 at 996, then payee 3 at 995. *)
Lemma double_vote_needs_other_height_witness :
  Exists (λ c, call_key c = call_key (Scenario.call 1000 8 1 2 995)
               ∧ call_height c ≠ call_height (Scenario.call 1000 8 1 2 995))
    [Scenario.call 1000 8 1 2 996].
Proof.
  refine (proj1 (double_vote_needs_other_height Payments.empty
                   (Scenario.call 1000 8 1 2 995) [Scenario.call 1000 8 1 2 996]
                   (Scenario.call 1000 8 1 3 995) _ _ _ _));
    vm_compute; reflexivity.
Defined.

(** C2 as stated fails: masternode 1 votes for height 995, then for 996, then
    again for 995 with another payee of the same tier.  All three messages are
    accepted, and the ledger ends with two votes of that voter for tier 1 at
    height 995. *)
Lemma double_vote_accepted :
  Payments.outcome (step Payments.empty (Scenario.call 1000 8 1 2 995))
  = Payments.Accepted
  ∧ Payments.outcome (step (run Payments.empty (take 1 Scenario.three_calls))
                        (Scenario.call 1000 8 1 2 996)) = Payments.Accepted
  ∧ Payments.outcome (step (run Payments.empty (take 2 Scenario.three_calls))
                        (Scenario.call 1000 8 1 3 995)) = Payments.Accepted
  ∧ (accepted_votes (Scenario.env 1000 8) (run Payments.empty Scenario.three_calls)
       {| op_hash := 1; op_n := 0 |} 1 995).*2
    = [Scenario.vote 1 2 995; Scenario.vote 1 3 995]
  ∧ (1 < length (accepted_votes (Scenario.env 1000 8)
                   (run Payments.empty Scenario.three_calls)
                   {| op_hash := 1; op_n := 0 |} 1 995))%nat.
Proof. vm_compute. split_and!; (reflexivity || lia). Qed.

(** C4: for a message that reaches the window check (node synced, phases of
    voter and payee found, tip known, vote not yet seen), the outcome is
    "out of range" exactly when the height is below
    tip - floor (1.25 × enabled masternodes of the payee's level) or above
    tip + 20.  So the height just below the lower bound is rejected, and so is
    a height above tip + 20: the ledger stays as it was and nothing is sent.
    A vote at the lower bound that passes the remaining checks is accepted:
    it is inserted under its hash in the vote index, one vote is counted for
    its payee in the tally of its height, its height is recorded in the
    double-vote guard, and the vote is relayed. *)
Theorem vote_window_boundary (e : Env) (pfrom : CNode) (L : CMasternodePayments)
    (w : CMasternodePaymentWinner) (tip : Z) :
  IsBlockchainSynced e = true →
  fLiteMode e = false →
  ¬ nVersion pfrom < ActiveProtocol e →
  Winner.GetPhase e w ≠ 0 →
  Winner.GetPayeePhase e w ≠ 0 →
  chainTip e = Some tip →
  mapMasternodePayeeVotes L !! Winner.GetHash e w = None →
  0 ≤ CountEnabledOnLevel e (Winner.GetPayeePhase e w) →
  let first := tip - 5 * CountEnabledOnLevel e (Winner.GetPayeePhase e w) / 4 in
  let r := Payments.ProcessMessage_mnw e pfrom L w in
  (Payments.outcome r = Payments.OutOfWindow
   ↔ winner_nBlockHeight w < first ∨ winner_nBlockHeight w > tip + 20)
  ∧ (winner_nBlockHeight w = first - 1 →
     Payments.outcome r = Payments.OutOfWindow ∧ Payments.ledger r = L
     ∧ Payments.effects r = [])
  ∧ (winner_nBlockHeight w > tip + 20 →
     Payments.outcome r = Payments.OutOfWindow ∧ Payments.ledger r = L
     ∧ Payments.effects r = [])
  ∧ (winner_nBlockHeight w = first →
     (Winner.IsValid e pfrom w).1 = true →
     (Payments.CanVote e L w).1 = true →
     Winner.SignatureValid e w = true →
     GetBlockHash e (winner_nBlockHeight w - 100) = true →
     Payments.outcome r = Payments.Accepted
     ∧ Payments.effects r = [Relay (Winner.GetHash e w);
                             AddedMasternodeWinner (Winner.GetHash e w)]
     ∧ mapMasternodePayeeVotes (Payments.ledger r)
       = <[Winner.GetHash e w := w]> (mapMasternodePayeeVotes L)
     ∧ mapMasternodeBlocks (Payments.ledger r)
       = <[winner_nBlockHeight w :=
             BlockPayees.AddPayee
               (default {| nBlockHeight := winner_nBlockHeight w; vecPayments := [] |}
                  (mapMasternodeBlocks L !! winner_nBlockHeight w))
               (Winner.GetPayeeScript e w) (Winner.GetPayeePhase e w) 1]>
           (mapMasternodeBlocks L)
     ∧ mapMasternodesLastVote (Payments.ledger r)
       = <[Payments.vote_key e w := winner_nBlockHeight w]>
           (mapMasternodesLastVote L)).
Proof.
  intros Hsync Hlite Hver Hph Hpp Htip Hnew Hcount first r.
  assert (Hr : r = Payments.ProcessMessage_mnw e pfrom L w) by done.
  unfold Payments.ProcessMessage_mnw in Hr.
  rewrite Hsync, Hlite, Htip in Hr. simpl in Hr.
  rewrite (decide_False (P := nVersion pfrom < ActiveProtocol e)) in Hr by done.
  rewrite (decide_False (P := Winner.GetPhase e w = 0)) in Hr by done.
  rewrite (decide_False (P := Winner.GetPayeePhase e w = 0)) in Hr by done.
  rewrite (decide_False (P := is_Some _)) in Hr
    by (rewrite Hnew; apply is_Some_None).
  rewrite times_1_25_floor in Hr by done. fold first in Hr.
  assert (Hout : winner_nBlockHeight w < first ∨ winner_nBlockHeight w > tip + 20
                 → Payments.outcome r = Payments.OutOfWindow
                   ∧ Payments.ledger r = L ∧ Payments.effects r = []).
  { intros Hw. rewrite Hr. by rewrite decide_True. }
  split_and!.
  - split; [| by intros Hw; apply Hout].
    intros Ho. destruct (decide (winner_nBlockHeight w < first
                                 ∨ winner_nBlockHeight w > tip + 20))
      as [| Hin]; [done | exfalso].
    rewrite Hr in Ho. simpl in Ho.
    destruct (Winner.IsValid e pfrom w).1; simpl in Ho; [| done].
    destruct (Payments.CanVote e L w).1; simpl in Ho; [| done].
    destruct (Winner.SignatureValid e w); simpl in Ho; [| done].
    by destruct (Payments.AddWinningMasternode e _ w).1.
  - intros Hw. apply Hout. lia.
  - intros Hw. apply Hout. lia.
  - intros Hw Hvalid Hcan Hsig Hblock. rewrite Hr.
    assert (first ≤ tip).
    { unfold first. assert (0 ≤ 5 * CountEnabledOnLevel e (Winner.GetPayeePhase e w) / 4); [| lia].
      apply Z.div_pos; lia. }
    rewrite (decide_False (P := _ ∨ _)) by lia.
    rewrite Hvalid, Hcan, Hsig. simpl.
    assert (Hadd : (Payments.AddWinningMasternode e (Payments.CanVote e L w).2 w).1
                   = true).
    { unfold Payments.AddWinningMasternode. rewrite Hblock. simpl.
      rewrite (proj1 (CanVote_indexes e L w)).
      rewrite decide_False; [done |]. rewrite Hnew. apply is_Some_None. }
    rewrite Hadd. cbn [Payments.outcome Payments.effects Payments.ledger].
    destruct (AddWinningMasternode_true _ _ _ Hadd) as (_ & _ & Hvotes & Hblocks).
    destruct (CanVote_indexes e L w) as [Hcv Hcb].
    rewrite Hcv in Hvotes. rewrite Hcb in Hblocks.
    split_and!; [done | done | exact Hvotes | exact Hblocks |].
    rewrite AddWinningMasternode_lastVote.
    unfold Payments.CanVote in Hcan |- *. by case_decide.
Qed.

(** Scenario A: tip 1000 and eight masternodes give the lower bound 990; the
    vote at 989 is out of range, the vote at 990 is accepted and recorded,
    the vote at 1021 is out of range. *)
Lemma vote_window_boundary_witness :
  Payments.outcome (step Payments.empty (Scenario.call 1000 8 1 2 989))
  = Payments.OutOfWindow
  ∧ (Payments.outcome (step Payments.empty (Scenario.call 1000 8 1 2 990))
     = Payments.Accepted
     ∧ mapMasternodePayeeVotes
         (Payments.ledger (step Payments.empty (Scenario.call 1000 8 1 2 990)))
       = <[Winner.GetHash (Scenario.env 1000 8) (Scenario.vote 1 2 990)
             := Scenario.vote 1 2 990]> ∅)
  ∧ Payments.outcome (step Payments.empty (Scenario.call 1000 8 1 2 1021))
    = Payments.OutOfWindow.
Proof.
  split_and!.
  - refine (proj1 (proj1 (proj2 (vote_window_boundary (Scenario.env 1000 8)
              Scenario.peer Payments.empty (Scenario.vote 1 2 989) 1000
              eq_refl eq_refl _ _ _ eq_refl eq_refl _)) eq_refl));
      vm_compute; discriminate.
  - refine (proj1 (proj2 (proj2 (proj2 (vote_window_boundary (Scenario.env 1000 8)
              Scenario.peer Payments.empty (Scenario.vote 1 2 990) 1000
              eq_refl eq_refl _ _ _ eq_refl eq_refl _))) eq_refl eq_refl eq_refl
              eq_refl eq_refl));
      vm_compute; discriminate.
  - refine (proj1 (proj2 (proj2 (proj2 (proj2 (proj2 (vote_window_boundary
              (Scenario.env 1000 8)
              Scenario.peer Payments.empty (Scenario.vote 1 2 990) 1000
              eq_refl eq_refl _ _ _ eq_refl eq_refl _))) eq_refl eq_refl eq_refl
              eq_refl eq_refl))));
      vm_compute; discriminate.
  - refine (proj1 (proj1 (proj2 (proj2 (vote_window_boundary (Scenario.env 1000 8)
              Scenario.peer Payments.empty (Scenario.vote 1 2 1021) 1000
              eq_refl eq_refl _ _ _ eq_refl eq_refl _))) eq_refl));
      vm_compute; discriminate.
Defined.

(** C8: when a "mnw" message has been accepted, the same message sent again is
    answered "already seen" and leaves the whole ledger as the first call left
    it; so does a second direct AddWinningMasternode.  Whatever the
    collaborators answer at the second call, as long as the record hashes to
    the same value the ledger stays as it was.  The first call has inserted
    the record under its hash and counted one vote for its payee in the tally
    of its height. *)
Theorem add_twice_is_add_once (e : Env) (pfrom : CNode) (L : CMasternodePayments)
    (w : CMasternodePaymentWinner) :
  Payments.outcome (Payments.ProcessMessage_mnw e pfrom L w) = Payments.Accepted →
  let L1 := Payments.ledger (Payments.ProcessMessage_mnw e pfrom L w) in
  Payments.outcome (Payments.ProcessMessage_mnw e pfrom L1 w) = Payments.Duplicate
  ∧ Payments.ledger (Payments.ProcessMessage_mnw e pfrom L1 w) = L1
  ∧ Payments.AddWinningMasternode e L1 w = (false, L1)
  ∧ (∀ e' pfrom', Winner.GetHash e' w = Winner.GetHash e w →
       Payments.ledger (Payments.ProcessMessage_mnw e' pfrom' L1 w) = L1
       ∧ Payments.outcome (Payments.ProcessMessage_mnw e' pfrom' L1 w)
         ∈ [Payments.Ignored; Payments.Incomplete; Payments.Duplicate])
  ∧ mapMasternodePayeeVotes L !! Winner.GetHash e w = None
  ∧ mapMasternodePayeeVotes L1
    = <[Winner.GetHash e w := w]> (mapMasternodePayeeVotes L)
  ∧ mapMasternodeBlocks L1
    = <[winner_nBlockHeight w :=
          BlockPayees.AddPayee
            (default {| nBlockHeight := winner_nBlockHeight w; vecPayments := [] |}
               (mapMasternodeBlocks L !! winner_nBlockHeight w))
            (Winner.GetPayeeScript e w) (Winner.GetPayeePhase e w) 1]>
        (mapMasternodeBlocks L).
Proof.
  intros Hacc L1.
  destruct (mnw_accepted _ _ _ _ Hacc)
    as (Hsync & Hlite & Hver & Hph & Hpp & (tip & Htip & _) & Hnew & _ & Hadd & HL1).
  apply AddWinningMasternode_true in Hadd as (_ & _ & Hvotes & Hblocks).
  destruct (CanVote_indexes e L w) as [Hcv Hcb].
  rewrite Hcv in Hvotes. rewrite Hcb in Hblocks.
  assert (Hknown : is_Some (mapMasternodePayeeVotes L1 !! Winner.GetHash e w)).
  { unfold L1. rewrite HL1, Hvotes, lookup_insert_eq. by eexists. }
  assert (Hdup : Payments.ProcessMessage_mnw e pfrom L1 w
                 = {| Payments.outcome := Payments.Duplicate;
                      Payments.effects := [AddedMasternodeWinner (Winner.GetHash e w)];
                      Payments.ledger := L1 |}).
  { unfold Payments.ProcessMessage_mnw at 1.
    rewrite Hsync, Hlite, Htip. simpl.
    rewrite (decide_False (P := nVersion pfrom < ActiveProtocol e)) by done.
    rewrite (decide_False (P := Winner.GetPhase e w = 0)) by done.
    rewrite (decide_False (P := Winner.GetPayeePhase e w = 0)) by done.
    by rewrite (decide_True (P := is_Some _)). }
  split_and!.
  - by rewrite Hdup.
  - by rewrite Hdup.
  - by apply AddWinningMasternode_known.
  - intros e' pfrom' Hh. apply mnw_known. by rewrite Hh.
  - done.
  - unfold L1. by rewrite HL1.
  - unfold L1. by rewrite HL1.
Qed.

Lemma add_twice_is_add_once_witness :
  Payments.outcome
    (step (Payments.ledger (step Payments.empty (Scenario.call 1000 8 1 2 995)))
       (Scenario.call 1000 8 1 2 995))
  = Payments.Duplicate.
Proof.
  exact (proj1 (add_twice_is_add_once (Scenario.env 1000 8) Scenario.peer
                  Payments.empty (Scenario.vote 1 2 995) eq_refl)).
Defined.

(** ** The snapshot reader *)

Section snapshot.
Import PaymentDB.

Lemma CleanPaymentList_lastVote (e : Env) (L : CMasternodePayments) :
  mapMasternodesLastVote (Payments.CleanPaymentList e L).1
  = mapMasternodesLastVote L.
Proof.
  unfold Payments.CleanPaymentList. destruct (chainTip e); [| done].
  by rewrite clean_fold_lastVote.
Qed.

Lemma Read_stream_lastVote (c : Codec) (e : Env) (ssObj : list byte)
    (obj : CMasternodePayments) (fDryRun : bool) :
  mapMasternodesLastVote (Read_stream c e ssObj obj fDryRun).2
  = mapMasternodesLastVote obj.
Proof.
  unfold Read_stream.
  destruct (Unserialize_string c ssObj) as [[s rest] |]; [| done].
  repeat case_decide; try done.
  destruct (Unserialize_payments c _ _ _).1; simpl; [| done].
  destruct fDryRun; simpl; [done |]. by rewrite CleanPaymentList_lastVote.
Qed.

Lemma Read_lastVote (c : Codec) (e : Env) (file : option (list byte))
    (obj : CMasternodePayments) (fDryRun : bool) :
  mapMasternodesLastVote (Read c e file obj fDryRun).2 = mapMasternodesLastVote obj.
Proof.
  unfold Read. destruct file as [bytes |]; [| done].
  repeat case_decide; try done; apply Read_stream_lastVote.
Qed.

Lemma Read_stream_IncorrectFormat (c : Codec) (e : Env) (ssObj : list byte)
    (obj : CMasternodePayments) (fDryRun : bool) :
  (Read_stream c e ssObj obj fDryRun).1 = IncorrectFormat →
  mapMasternodePayeeVotes (Read_stream c e ssObj obj fDryRun).2 = ∅
  ∧ mapMasternodeBlocks (Read_stream c e ssObj obj fDryRun).2 = ∅.
Proof.
  unfold Read_stream.
  destruct (Unserialize_string c ssObj) as [[s rest] |]; [| done].
  repeat case_decide; try done.
  destruct (Unserialize_payments c _ _ _).1; simpl; [| done].
  by destruct fDryRun.
Qed.

Lemma Read_stream_fresh (c : Codec) (e : Env) (ssObj : list byte) (fDryRun : bool) :
  (Read_stream c e ssObj Payments.empty fDryRun).1 = IncorrectFormat →
  (Read_stream c e ssObj Payments.empty fDryRun).2 = Payments.empty.
Proof.
  unfold Read_stream.
  destruct (Unserialize_string c ssObj) as [[s rest] |]; [| done].
  repeat case_decide; try done.
  destruct (Unserialize_payments c _ _ _).1; simpl; [| done].
  by destruct fDryRun.
Qed.

(** A file of at least 32 bytes splits into the data and the stored hash. *)
Lemma Read_split (c : Codec) (e : Env) (bytes : list byte)
    (obj : CMasternodePayments) (fDryRun : bool) :
  (32 ≤ length bytes)%nat →
  Read c e (Some bytes) obj fDryRun
  = if decide (drop (length bytes - 32) bytes
               ≠ Hash c (take (length bytes - 32) bytes))
    then (IncorrectHash, obj)
    else Read_stream c e (take (length bytes - 32) bytes) obj fDryRun.
Proof.
  intros Hlen. unfold Read, sizeof_uint256.
  rewrite (decide_False (P := Z.of_nat (length bytes) - 32 < 0)) by lia.
  replace (Z.to_nat (Z.of_nat (length bytes) - 32)) with (length bytes - 32)%nat
    by lia.
  rewrite decide_False by (rewrite length_drop; lia).
  rewrite take_ge by (rewrite length_drop; lia). done.
Qed.

End snapshot.



Example Read_scenarios :
  let read payload sum :=
    (PaymentDB.Read Scenario.codec (Scenario.env 1000 8)
       (Scenario.snapshot payload sum) Payments.empty true).1 in
  read [x00; x00] (Scenario.toy_digest (Scenario.header ++ [x00; x00])) = PaymentDB.Ok
  ∧ read [] (Scenario.toy_digest Scenario.header) = PaymentDB.IncorrectFormat
  ∧ read [x01] (Scenario.toy_digest (Scenario.header ++ [x01]))
    = PaymentDB.IncorrectFormat
  ∧ read [x00; x00] (Scenario.toy_digest Scenario.header) = PaymentDB.IncorrectHash
  ∧ (PaymentDB.Read Scenario.codec (Scenario.env 1000 8) (Some [x00]) Payments.empty
       true).1 = PaymentDB.HashReadError.
Proof. vm_compute. by split_and!. Qed.

(** C10: Clear empties the vote index and the tally index and leaves the
    double-vote guard as it was: a vote that CanVote refused before the reset
    is refused after it, and a vote recorded by CanVote before the reset is
    refused when it comes again after the reset.  Read, which calls Clear on
    its IncorrectFormat path, never changes the guard either. *)
Theorem Clear_keeps_lastVote (e : Env) (L : CMasternodePayments)
    (w : CMasternodePaymentWinner) :
  mapMasternodePayeeVotes (Payments.Clear L) = ∅
  ∧ mapMasternodeBlocks (Payments.Clear L) = ∅
  ∧ mapMasternodesLastVote (Payments.Clear L) = mapMasternodesLastVote L
  ∧ ((Payments.CanVote e L w).1 = false →
     Payments.CanVote e (Payments.Clear L) w = (false, Payments.Clear L))
  ∧ (Payments.CanVote e (Payments.Clear (Payments.CanVote e L w).2) w).1 = false
  ∧ ∀ c file fDryRun,
      mapMasternodesLastVote (PaymentDB.Read c e file L fDryRun).2
      = mapMasternodesLastVote L.
Proof.
  split_and!; try done; [| | intros c file fDryRun; apply Read_lastVote].
  - intros Hrej. apply CanVote_false in Hrej.
    unfold Payments.CanVote. by rewrite decide_True.
  - apply CanVote_false. change (mapMasternodesLastVote (Payments.Clear ?X))
      with (mapMasternodesLastVote X). apply CanVote_lastVote.
Qed.

Lemma Clear_keeps_lastVote_witness :
  Payments.CanVote (Scenario.env 1000 8)
    (Payments.Clear (Payments.ledger (step Payments.empty (Scenario.call 1000 8 1 2 995))))
    (Scenario.vote 1 3 995)
  = (false,
     Payments.Clear (Payments.ledger (step Payments.empty (Scenario.call 1000 8 1 2 995)))).
Proof.
  exact (proj1 (proj2 (proj2 (proj2
           (Clear_keeps_lastVote (Scenario.env 1000 8)
              (Payments.ledger (step Payments.empty (Scenario.call 1000 8 1 2 995)))
              (Scenario.vote 1 3 995)))))
           eq_refl).
Defined.

(** * Further properties of the code *)

(** ** Tallies *)

Section tally_entries.
Import BlockPayees.

Lemma AddPayee_vec_keys (s : CScript) (level inc : Z) (v : list CMasternodePayee) :
  Tally.entry_key <$> AddPayee_vec s level inc v
  = if decide ((s, level) ∈ Tally.entry_key <$> v) then Tally.entry_key <$> v
    else (Tally.entry_key <$> v) ++ [(s, level)].
Proof.
  induction v as [|p v IH].
  - destruct (decide ((s, level) ∈ Tally.entry_key <$> []))
      as [Hin%elem_of_nil | _]; done.
  - cbn [AddPayee_vec].
    destruct (decide (payee_scriptPubKey p = s ∧ masternodeLevel p = level))
      as [[Hs Hl] | Hne]; rewrite !fmap_cons.
    + rewrite decide_True; [done |]. apply elem_of_cons. left.
      unfold Tally.entry_key. by rewrite Hs, Hl.
    + rewrite IH. destruct (decide ((s, level) ∈ Tally.entry_key <$> v)) as [Hin | Hin].
      * rewrite decide_True; [done | by right].
      * rewrite decide_False; [done |].
        intros [Heq | ?]%elem_of_cons; [| done].
        apply Hne. unfold Tally.entry_key in Heq. by injection Heq as -> ->.
Qed.

Lemma AddPayee_vec_votes_for (s : CScript) (level inc : Z)
    (v : list CMasternodePayee) (k : CScript * Z) :
  Tally.votes_for k (AddPayee_vec s level inc v)
  = if decide (k = (s, level)) then Tally.votes_for k v + inc
    else Tally.votes_for k v.
Proof.
  induction v as [|p v IH]; simpl.
  - unfold Tally.entry_key. simpl. destruct (decide (k = (s, level))) as [-> | Hk].
    + rewrite decide_True by done. lia.
    + rewrite decide_False by done. done.
  - destruct (decide (payee_scriptPubKey p = s ∧ masternodeLevel p = level))
      as [[Hs Hl] | Hne]; simpl.
    + assert (Hkey : Tally.entry_key (add_votes p inc) = Tally.entry_key p) by done.
      rewrite Hkey. assert (Tally.entry_key p = (s, level)) as Hp.
      { unfold Tally.entry_key. by rewrite Hs, Hl. }
      destruct (decide (k = (s, level))) as [-> | Hk].
      * rewrite !decide_True by done. lia.
      * rewrite !decide_False by congruence. done.
    + rewrite IH. destruct (decide (Tally.entry_key p = k)); [| done].
      case_decide; lia.
Qed.

Lemma AddPayee_vec_total (s : CScript) (level inc : Z) (v : list CMasternodePayee) :
  Tally.total_votes (AddPayee_vec s level inc v) = Tally.total_votes v + inc.
Proof.
  induction v as [|p v IH]; simpl; [lia |].
  case_decide; simpl; [lia |]. rewrite IH. lia.
Qed.

Lemma AddPayee_vec_NoDup (s : CScript) (level inc : Z) (v : list CMasternodePayee) :
  NoDup (Tally.entry_key <$> v) →
  NoDup (Tally.entry_key <$> AddPayee_vec s level inc v).
Proof.
  intros Hnd. rewrite AddPayee_vec_keys. case_decide as Hin; [done |].
  apply NoDup_app. split_and!; [done | | apply NoDup_singleton].
  intros k Hk ->%list_elem_of_singleton. done.
Qed.

Lemma AddPayee_vec_positive (s : CScript) (level inc : Z) (v : list CMasternodePayee) :
  1 ≤ inc → Forall (λ p, 1 ≤ nVotes p) v →
  Forall (λ p, 1 ≤ nVotes p) (AddPayee_vec s level inc v).
Proof.
  intros Hinc. induction v as [|p v IH]; intros Hall; simpl.
  - by repeat constructor.
  - apply Forall_cons in Hall as [Hp Hv]. case_decide.
    + constructor; [simpl; lia | done].
    + constructor; [done | by apply IH].
Qed.

(** The running pair of GetPayee does not depend on the script it starts
    with, once an entry has replaced it. *)
Lemma GetPayee_loop_start (level : Z) (v : list CMasternodePayee)
    (s1 s2 : CScript) (m : Z) :
  (GetPayee_loop level v (s1, m)).2 = (GetPayee_loop level v (s2, m)).2
  ∧ m ≤ (GetPayee_loop level v (s1, m)).2
  ∧ (m < (GetPayee_loop level v (s1, m)).2 →
     (GetPayee_loop level v (s1, m)).1 = (GetPayee_loop level v (s2, m)).1)
  ∧ ((GetPayee_loop level v (s1, m)).2 = m →
     (GetPayee_loop level v (s1, m)).1 = s1).
Proof.
  revert s1 s2 m. induction v as [|p v IH]; intros s1 s2 m.
  - simpl. split_and!; (done || lia).
  - unfold GetPayee_loop in *. simpl. case_decide as Hc.
    + destruct (IH (payee_scriptPubKey p) (payee_scriptPubKey p) (nVotes p))
        as (_ & Hle & _ & _).
      split_and!; [done | lia | done | lia].
    + apply IH.
Qed.

(** The entry picked by GetPayee: the first one of the level whose count is
    the largest. *)
Lemma GetPayee_loop_first (level : Z) (v : list CMasternodePayee) (acc : CScript * Z) :
  (GetPayee_loop level v acc = acc
   ∧ Forall (λ q, masternodeLevel q = level → nVotes q ≤ acc.2) v)
  ∨ (∃ l1 p l2, v = l1 ++ p :: l2 ∧ masternodeLevel p = level
       ∧ acc.2 < nVotes p
       ∧ GetPayee_loop level v acc = (payee_scriptPubKey p, nVotes p)
       ∧ Forall (λ q, masternodeLevel q = level → nVotes q < nVotes p) l1
       ∧ Forall (λ q, masternodeLevel q = level → nVotes q ≤ nVotes p) l2).
Proof.
  revert acc. induction v as [|p0 v IH]; intros acc.
  - left. split; [done | constructor].
  - unfold GetPayee_loop in *. simpl. case_decide as Hc.
    + destruct Hc as [Hl Hv].
      destruct (IH (payee_scriptPubKey p0, nVotes p0))
        as [[Heq Hall] | (l1 & p & l2 & -> & Hpl & Hlt & Heq & H1 & H2)].
      * right. exists [], p0, v. simpl in *.
        split_and!; [done | done | lia | done | constructor | done].
      * right. exists (p0 :: l1), p, l2. simpl in *.
        split_and!; [done | done | lia | done | | done].
        constructor; [lia | done].
    + destruct (IH acc)
        as [[Heq Hall] | (l1 & p & l2 & -> & Hpl & Hlt & Heq & H1 & H2)].
      * left. split; [done |]. constructor; [| done]. intros Hl.
        destruct (decide (nVotes p0 ≤ acc.2)); [done |].
        exfalso. apply Hc. split; [done | lia].
      * right. exists (p0 :: l1), p, l2.
        split_and!; [done | done | done | done | | done].
        constructor; [| done]. intros Hl.
        destruct (decide (nVotes p0 ≤ acc.2)); [lia |].
        exfalso. apply Hc. split; [done | lia].
Qed.

End tally_entries.


(** X2: GetPayee for a level answers false, and leaves the caller's script,
    exactly when no entry of the level has a count of 0 or more; otherwise it
    answers with the script of the first entry of the level whose count is the
    largest: every earlier entry of the level has strictly fewer votes, every
    later one at most as many. *)
Theorem GetPayee_first_of_the_largest (bp : CMasternodeBlockPayees)
    (payee0 : CScript) (level : Z) :
  (BlockPayees.GetPayee bp payee0 level = (false, payee0)
   ∧ Forall (λ q, masternodeLevel q = level → nVotes q < 0) (vecPayments bp))
  ∨ (∃ l1 p l2, vecPayments bp = l1 ++ p :: l2
       ∧ masternodeLevel p = level ∧ 0 ≤ nVotes p
       ∧ BlockPayees.GetPayee bp payee0 level = (true, payee_scriptPubKey p)
       ∧ Forall (λ q, masternodeLevel q = level → nVotes q < nVotes p) l1
       ∧ Forall (λ q, masternodeLevel q = level → nVotes q ≤ nVotes p) l2).
Proof.
  unfold BlockPayees.GetPayee.
  destruct (GetPayee_loop_first level (vecPayments bp) (payee0, -1))
    as [[Heq Hall] | (l1 & p & l2 & Hv & Hpl & Hlt & Heq & H1 & H2)].
  - left. rewrite Heq. simpl. split; [done |].
    eapply Forall_impl; [exact Hall |]. simpl. intros q Hq Hl.
    specialize (Hq Hl). lia.
  - right. exists l1, p, l2. rewrite Heq. simpl in *.
    split_and!; [done | done | lia | | done | done].
    rewrite bool_decide_eq_true_2; [done | lia].
Qed.

(** ** Admission: what a message leaves behind *)

Section admission_frame.
Import Payments.

Lemma AddWinningMasternode_false (e : Env) (L : CMasternodePayments)
    (w : CMasternodePaymentWinner) :
  (AddWinningMasternode e L w).1 = false → (AddWinningMasternode e L w).2 = L.
Proof.
  unfold AddWinningMasternode.
  destruct (GetBlockHash e _); simpl; [| done]. by case_decide.
Qed.

(** The ledger left by a "mnw" message that was not accepted. *)
Lemma mnw_not_accepted (e : Env) (pfrom : CNode) (L : CMasternodePayments)
    (w : CMasternodePaymentWinner) :
  outcome (ProcessMessage_mnw e pfrom L w) ≠ Accepted →
  ledger (ProcessMessage_mnw e pfrom L w) = L
  ∨ (outcome (ProcessMessage_mnw e pfrom L w) ∈ [BadSignature; NotAdded]
     ∧ (CanVote e L w).1 = true
     ∧ ledger (ProcessMessage_mnw e pfrom L w) = (CanVote e L w).2).
Proof.
  unfold ProcessMessage_mnw.
  destruct (IsBlockchainSynced e); simpl; [| by left].
  destruct (fLiteMode e); simpl; [by left |].
  destruct (decide (nVersion pfrom < ActiveProtocol e)); simpl; [by left |].
  destruct (decide (Winner.GetPhase e w = 0)); simpl; [by left |].
  destruct (decide (Winner.GetPayeePhase e w = 0)); simpl; [by left |].
  destruct (chainTip e) as [nHeight |]; simpl; [| by left].
  destruct (decide (is_Some _)); simpl; [by left |].
  destruct (decide (_ ∨ _)); simpl; [by left |].
  destruct (Winner.IsValid e pfrom w).1; simpl; [| by left].
  destruct (CanVote e L w).1 eqn:Hcan; simpl.
  - destruct (Winner.SignatureValid e w); simpl.
    + destruct (AddWinningMasternode e (CanVote e L w).2 w).1 eqn:Hadd; simpl;
        [done |].
      intros _. right. split_and!; [set_solver | done |].
      by apply AddWinningMasternode_false.
    + intros _. right. split_and!; [set_solver | done | done].
  - intros _. left. by apply CanVote_rejects_keeps.
Qed.

Lemma mnw_BadSignature (e : Env) (pfrom : CNode) (L : CMasternodePayments)
    (w : CMasternodePaymentWinner) :
  outcome (ProcessMessage_mnw e pfrom L w) = BadSignature →
  mapMasternodesLastVote (ledger (ProcessMessage_mnw e pfrom L w)) !! vote_key e w
  = Some (winner_nBlockHeight w).
Proof.
  unfold ProcessMessage_mnw.
  destruct (IsBlockchainSynced e); simpl; [| done].
  destruct (fLiteMode e); simpl; [done |].
  destruct (decide (nVersion pfrom < ActiveProtocol e)); simpl; [done |].
  destruct (decide (Winner.GetPhase e w = 0)); simpl; [done |].
  destruct (decide (Winner.GetPayeePhase e w = 0)); simpl; [done |].
  destruct (chainTip e) as [nHeight |]; simpl; [| done].
  destruct (decide (is_Some _)); simpl; [done |].
  destruct (decide (_ ∨ _)); simpl; [done |].
  destruct (Winner.IsValid e pfrom w).1; simpl; [| done].
  destruct (CanVote e L w).1 eqn:Hcan; simpl; [| done].
  destruct (Winner.SignatureValid e w); simpl.
  - by destruct (AddWinningMasternode e (CanVote e L w).2 w).1.
  - intros _. apply CanVote_lastVote.
Qed.

Lemma vote_key_mod16 (e : Env) (w : CMasternodePaymentWinner) :
  0 ≤ Winner.GetPayeePhase e w < 16 →
  vote_key e w mod 16 = Winner.GetPayeePhase e w.
Proof.
  intros Hp. unfold vote_key, u256. rewrite Z.shiftl_mul_pow2 by lia.
  set (X := (op_hash _ + op_n _) mod 2 ^ 256).
  replace (2 ^ 256) with (2 ^ 252 * 2 ^ 4) by reflexivity.
  rewrite Z.mul_mod_distr_r by lia.
  assert (0 ≤ X mod 2 ^ 252 < 2 ^ 252) as Hy by (apply Z.mod_pos_bound; lia).
  set (y := X mod 2 ^ 252) in *.
  rewrite (Z.mod_small (y * 2 ^ 4 + _)) by lia.
  change (2 ^ 4) with 16. rewrite Z.add_comm, Z_mod_plus_full.
  apply Z.mod_small. lia.
Qed.

Lemma no_entry_of_level_votes_for (s : CScript) (level : Z)
    (v : list CMasternodePayee) :
  Forall (λ p, masternodeLevel p ≠ level) v → Tally.votes_for (s, level) v = 0.
Proof.
  induction 1 as [|p v Hp _ IH]; simpl; [done |].
  rewrite decide_False; [done |]. unfold Tally.entry_key. congruence.
Qed.

Lemma first_of_level_leads (s payee0 : CScript) (level inc m : Z)
    (v : list CMasternodePayee) :
  Forall (λ p, masternodeLevel p ≠ level) v → m < inc →
  BlockPayees.GetPayee_loop level (BlockPayees.AddPayee_vec s level inc v) (payee0, m)
  = (s, inc).
Proof.
  intros Hall Hm. induction Hall as [|p v Hp _ IH]; unfold BlockPayees.GetPayee_loop in *; simpl.
  - rewrite decide_True; [done | split; [done | lia]].
  - rewrite (decide_False (P := _ ∧ masternodeLevel p = level)) by tauto. simpl.
    rewrite (decide_False (P := masternodeLevel p = level ∧ _)) by tauto. done.
Qed.

End admission_frame.

(** X3: a "mnw" message that is not accepted changes neither the vote index
    nor any tally; it leaves the whole ledger as it was unless it failed on the
    signature or in AddWinningMasternode, after CanVote had recorded its
    height in the double-vote guard. *)
Theorem rejected_message_changes_no_index (e : Env) (pfrom : CNode)
    (L : CMasternodePayments) (w : CMasternodePaymentWinner) :
  Payments.outcome (Payments.ProcessMessage_mnw e pfrom L w) ≠ Payments.Accepted →
  let L' := Payments.ledger (Payments.ProcessMessage_mnw e pfrom L w) in
  mapMasternodePayeeVotes L' = mapMasternodePayeeVotes L
  ∧ mapMasternodeBlocks L' = mapMasternodeBlocks L
  ∧ (L' = L
     ∨ (Payments.outcome (Payments.ProcessMessage_mnw e pfrom L w)
          ∈ [Payments.BadSignature; Payments.NotAdded]
        ∧ L' = Payments.set_lastVote L
                 (<[Payments.vote_key e w := winner_nBlockHeight w]>
                    (mapMasternodesLastVote L)))).
Proof.
  intros Hrej L'. unfold L'.
  destruct (mnw_not_accepted e pfrom L w Hrej) as [-> | (Hout & Hcan & ->)].
  - split_and!; [done | done | by left].
  - destruct (CanVote_indexes e L w) as [Hv Hb].
    split_and!; [done | done |]. right. split; [done |].
    unfold Payments.CanVote in *. by case_decide.
Qed.

Lemma rejected_message_changes_no_index_witness :
  mapMasternodePayeeVotes
    (Payments.ledger (Payments.ProcessMessage_mnw (Scenario.env 1000 8)
                        Scenario.peer Payments.empty Fixtures.forged))
  = ∅.
Proof.
  refine (proj1 (rejected_message_changes_no_index (Scenario.env 1000 8)
                   Scenario.peer Payments.empty Fixtures.forged _)).
  vm_compute. discriminate.
Defined.

(** X4: CanVote runs before the signature check, so a message rejected for its
    signature has taken the slot of its key: as long as no message of that key
    for another height comes in, no message of the same key and height is
    accepted, whatever its signature. *)
Theorem bad_signature_takes_the_slot (e : Env) (pfrom : CNode)
    (L : CMasternodePayments) (w : CMasternodePaymentWinner)
    (e' : Env) (pfrom' : CNode) (w' : CMasternodePaymentWinner) :
  Payments.outcome (Payments.ProcessMessage_mnw e pfrom L w) = Payments.BadSignature →
  Payments.vote_key e' w' = Payments.vote_key e w →
  winner_nBlockHeight w' = winner_nBlockHeight w →
  Payments.outcome
    (Payments.ProcessMessage_mnw e' pfrom'
       (Payments.ledger (Payments.ProcessMessage_mnw e pfrom L w)) w')
  ≠ Payments.Accepted.
Proof.
  intros Hbad Hkey Hh Hacc.
  apply mnw_BadSignature in Hbad.
  apply mnw_accepted in Hacc as (_ & _ & _ & _ & _ & _ & _ & Hcan & _ & _).
  assert (Hrej : (Payments.CanVote e'
                    (Payments.ledger (Payments.ProcessMessage_mnw e pfrom L w)) w').1
                 = false).
  { apply CanVote_false. by rewrite Hkey, Hh. }
  congruence.
Qed.

(** A forged vote of masternode 1 for height 995 comes first; the vote with
    the right signature is then answered "already voted". *)
Lemma bad_signature_takes_the_slot_witness :
  Payments.outcome
    (Payments.ProcessMessage_mnw (Scenario.env 1000 8) Scenario.peer
       (Payments.ledger (Payments.ProcessMessage_mnw (Scenario.env 1000 8)
                           Scenario.peer Payments.empty Fixtures.forged))
       (Scenario.vote 1 2 995))
  ≠ Payments.Accepted.
Proof.
  refine (bad_signature_takes_the_slot (Scenario.env 1000 8) Scenario.peer
            Payments.empty Fixtures.forged (Scenario.env 1000 8) Scenario.peer
            (Scenario.vote 1 2 995) _ _ _);
    vm_compute; reflexivity.
Defined.

(** X5: the key of the double-vote guard ends in the payee's level: for levels
    below 16, votes for payees of different levels use different keys, so
    CanVote for one level is never affected by a vote for another level,
    whoever the voters are. *)
Theorem guard_keys_separate_levels (e1 e2 : Env) (L : CMasternodePayments)
    (w1 w2 : CMasternodePaymentWinner) :
  0 ≤ Winner.GetPayeePhase e1 w1 < 16 →
  0 ≤ Winner.GetPayeePhase e2 w2 < 16 →
  Winner.GetPayeePhase e1 w1 ≠ Winner.GetPayeePhase e2 w2 →
  Payments.vote_key e1 w1 ≠ Payments.vote_key e2 w2
  ∧ (Payments.CanVote e2 (Payments.CanVote e1 L w1).2 w2).1
    = (Payments.CanVote e2 L w2).1.
Proof.
  intros H1 H2 Hne.
  assert (Hk : Payments.vote_key e1 w1 ≠ Payments.vote_key e2 w2).
  { intros Heq. apply Hne.
    rewrite <- (vote_key_mod16 e1 w1), <- (vote_key_mod16 e2 w2) by done.
    by rewrite Heq. }
  split; [done |].
  assert (Hl : mapMasternodesLastVote (Payments.CanVote e1 L w1).2
                 !! Payments.vote_key e2 w2
               = mapMasternodesLastVote L !! Payments.vote_key e2 w2).
  { apply CanVote_frame. congruence. }
  unfold Payments.CanVote at 1 3. rewrite Hl. by case_decide.
Qed.

(** Masternode 1 votes payee 2 (level 1) and payee 9 (level 2) at height 995. *)
Lemma guard_keys_separate_levels_witness :
  Payments.vote_key Fixtures.env2 (Scenario.vote 1 2 995)
  ≠ Payments.vote_key Fixtures.env2 (Scenario.vote 1 9 995).
Proof.
  refine (proj1 (guard_keys_separate_levels Fixtures.env2 Fixtures.env2
                   Payments.empty (Scenario.vote 1 2 995) (Scenario.vote 1 9 995)
                   _ _ _));
    vm_compute; first [discriminate | split; [discriminate | reflexivity]].
Defined.

(** X6: the first accepted vote for a payee of some level at a height makes
    that payee the leader of the level at that height, with one vote: when the
    tally of the height had no entry of the level (or did not exist),
    GetBlockPayee for the level then answers with the script of the payee. *)
Theorem first_vote_of_a_level_leads (e : Env) (pfrom : CNode)
    (L : CMasternodePayments) (w : CMasternodePaymentWinner) (payee0 : CScript) :
  Payments.outcome (Payments.ProcessMessage_mnw e pfrom L w) = Payments.Accepted →
  (∀ bp p, mapMasternodeBlocks L !! winner_nBlockHeight w = Some bp →
           p ∈ vecPayments bp → masternodeLevel p ≠ Winner.GetPayeePhase e w) →
  let L' := Payments.ledger (Payments.ProcessMessage_mnw e pfrom L w) in
  Payments.GetBlockPayee L' (winner_nBlockHeight w) (Winner.GetPayeePhase e w) payee0
  = (true, Winner.GetPayeeScript e w)
  ∧ ∃ bp', mapMasternodeBlocks L' !! winner_nBlockHeight w = Some bp'
           ∧ Tally.votes_for (Winner.GetPayeeScript e w, Winner.GetPayeePhase e w)
               (vecPayments bp') = 1.
Proof.
  intros Hacc Hnone L'.
  destruct (mnw_accepted _ _ _ _ Hacc)
    as (_ & _ & _ & _ & _ & _ & _ & _ & Hadd & HL1).
  apply AddWinningMasternode_true in Hadd as (_ & _ & _ & Hblocks).
  rewrite (proj2 (CanVote_indexes e L w)) in Hblocks.
  set (bp0 := default {| nBlockHeight := winner_nBlockHeight w; vecPayments := [] |}
                (mapMasternodeBlocks L !! winner_nBlockHeight w)) in *.
  assert (Hall : Forall (λ p, masternodeLevel p ≠ Winner.GetPayeePhase e w)
                   (vecPayments bp0)).
  { apply Forall_forall. intros p Hp. unfold bp0 in Hp.
    destruct (mapMasternodeBlocks L !! winner_nBlockHeight w) as [bp |] eqn:Hbp;
      simpl in Hp; [by eapply Hnone | by apply elem_of_nil in Hp]. }
  assert (Hlook : mapMasternodeBlocks L' !! winner_nBlockHeight w
                  = Some (BlockPayees.AddPayee bp0 (Winner.GetPayeeScript e w)
                            (Winner.GetPayeePhase e w) 1)).
  { unfold L'. by rewrite HL1, Hblocks, lookup_insert_eq. }
  split.
  - unfold Payments.GetBlockPayee. rewrite Hlook.
    unfold BlockPayees.GetPayee, BlockPayees.AddPayee. simpl.
    by rewrite first_of_level_leads.
  - eexists. split; [exact Hlook |]. simpl.
    rewrite AddPayee_vec_votes_for, decide_True by done.
    by rewrite no_entry_of_level_votes_for.
Qed.

(** Scenario A: tip 1000, eight masternodes, a first vote at height 995. *)
Lemma first_vote_of_a_level_leads_witness :
  Payments.GetBlockPayee
    (Payments.ledger (Payments.ProcessMessage_mnw (Scenario.env 1000 8)
                        Scenario.peer Payments.empty (Scenario.vote 1 2 995)))
    995 1 []
  = (true, Scenario.script_of 2).
Proof.
  refine (proj1 (first_vote_of_a_level_leads (Scenario.env 1000 8) Scenario.peer
                   Payments.empty (Scenario.vote 1 2 995) [] eq_refl _)).
  intros bp p Hbp. discriminate Hbp.
Defined.

(** ** Cleaning twice, oldest and newest tally *)

Lemma clean_fold_nothing_old (nHeight limit : Z)
    (l : list (Z * CMasternodePaymentWinner))
    (st : CMasternodePayments * list Effect) :
  Forall (λ it, ¬ height_minus nHeight (winner_nBlockHeight it.2) > limit) l →
  foldl (Payments.clean_step nHeight limit) st l = st.
Proof.
  induction 1 as [|it l Hit _ IH]; [done |]. simpl.
  unfold Payments.clean_step at 2. by rewrite decide_False.
Qed.

(** X7: CleanPaymentList is idempotent: run again with the same tip and roster
    it removes nothing and erases nothing from the sync bookkeeping. *)
Theorem CleanPaymentList_twice (e : Env) (L : CMasternodePayments) :
  Payments.CleanPaymentList e (Payments.CleanPaymentList e L).1
  = ((Payments.CleanPaymentList e L).1, []).
Proof.
  destruct (chainTip e) as [nHeight |] eqn:Htip.
  - unfold Payments.CleanPaymentList at 1. rewrite Htip.
    apply clean_fold_nothing_old, Forall_forall. intros [k w] Hin. simpl.
    apply elem_of_std_map_iter in Hin.
    apply (clean_votes_lookup e L nHeight) in Hin as [_ Hnew]; done.
  - unfold Payments.CleanPaymentList. by rewrite Htip.
Qed.

Lemma oldest_fold (l : list (Z * CMasternodeBlockPayees)) (init : Z) :
  let r := foldl (λ nOldestBlock (it : Z * CMasternodeBlockPayees),
                    if decide (it.1 < nOldestBlock) then it.1 else nOldestBlock)
                 init l in
  r ≤ init ∧ Forall (λ it, r ≤ it.1) l ∧ (r = init ∨ r ∈ l.*1).
Proof.
  revert init. induction l as [|it l IH]; intros init; simpl.
  - split_and!; [lia | constructor | by left].
  - case_decide as Hc.
    + destruct (IH it.1) as (Hle & Hall & Hor). split_and!; [lia | | ].
      * constructor; [done | done].
      * right. destruct Hor as [-> | Hin]; [left | by right].
    + destruct (IH init) as (Hle & Hall & Hor). split_and!; [done | | ].
      * constructor; [lia | done].
      * destruct Hor as [-> | Hin]; [by left | right; by right].
Qed.

Lemma newest_fold (l : list (Z * CMasternodeBlockPayees)) (init : Z) :
  let r := foldl (λ nNewestBlock (it : Z * CMasternodeBlockPayees),
                    if decide (it.1 > nNewestBlock) then it.1 else nNewestBlock)
                 init l in
  init ≤ r ∧ Forall (λ it, it.1 ≤ r) l ∧ (r = init ∨ r ∈ l.*1).
Proof.
  revert init. induction l as [|it l IH]; intros init; simpl.
  - split_and!; [lia | constructor | by left].
  - case_decide as Hc.
    + destruct (IH it.1) as (Hle & Hall & Hor). split_and!; [lia | | ].
      * constructor; [done | done].
      * right. destruct Hor as [-> | Hin]; [left | by right].
    + destruct (IH init) as (Hle & Hall & Hor). split_and!; [done | | ].
      * constructor; [lia | done].
      * destruct Hor as [-> | Hin]; [by left | right; by right].
Qed.

Lemma std_map_iter_keys {V} (m : gmap Z V) (k : Z) :
  k ∈ (std_map_iter m).*1 ↔ is_Some (m !! k).
Proof.
  rewrite list_elem_of_fmap. split.
  - intros ([k' v] & -> & Hin). apply elem_of_std_map_iter in Hin. by eexists.
  - intros [v Hv]. exists (k, v). split; [done | by apply elem_of_std_map_iter].
Qed.

(** X8: every height that has a tally lies between GetOldestBlock and
    GetNewestBlock.  GetOldestBlock is the height of a tally, or INT_MAX when
    there is none; GetNewestBlock is the height of a tally, or 0 when there is
    none or when all heights are negative. *)
Theorem oldest_and_newest_bound_the_tallies (L : CMasternodePayments) :
  (∀ h, is_Some (mapMasternodeBlocks L !! h) →
        Ledger.GetOldestBlock L ≤ h ≤ Ledger.GetNewestBlock L)
  ∧ (Ledger.GetOldestBlock L = Ledger.INT_MAX
     ∨ is_Some (mapMasternodeBlocks L !! Ledger.GetOldestBlock L))
  ∧ (Ledger.GetNewestBlock L = 0
     ∨ is_Some (mapMasternodeBlocks L !! Ledger.GetNewestBlock L))
  ∧ Ledger.GetOldestBlock L ≤ Ledger.INT_MAX
  ∧ 0 ≤ Ledger.GetNewestBlock L
  ∧ (mapMasternodeBlocks L = ∅ →
     Ledger.GetOldestBlock L = Ledger.INT_MAX ∧ Ledger.GetNewestBlock L = 0).
Proof.
  unfold Ledger.GetOldestBlock, Ledger.GetNewestBlock.
  destruct (oldest_fold (std_map_iter (mapMasternodeBlocks L)) Ledger.INT_MAX)
    as (Ho1 & Ho2 & Ho3).
  destruct (newest_fold (std_map_iter (mapMasternodeBlocks L)) 0)
    as (Hn1 & Hn2 & Hn3).
  rewrite Forall_forall in Ho2, Hn2.
  split_and!.
  - intros h [bp Hbp]. apply elem_of_std_map_iter in Hbp.
    specialize (Ho2 _ Hbp). specialize (Hn2 _ Hbp). simpl in *. lia.
  - destruct Ho3 as [-> | Hin]; [by left | right]. by apply std_map_iter_keys.
  - destruct Hn3 as [-> | Hin]; [by left | right]. by apply std_map_iter_keys.
  - done.
  - done.
  - intros Hempty.
    destruct Ho3 as [Ho3 | Hin%std_map_iter_keys];
      [| rewrite Hempty, lookup_empty in Hin; by destruct Hin].
    destruct Hn3 as [Hn3 | Hin%std_map_iter_keys];
      [| rewrite Hempty, lookup_empty in Hin; by destruct Hin].
    done.
Qed.

Lemma oldest_and_newest_bound_the_tallies_witness :
  Ledger.GetOldestBlock (Scenario.ledger_with 1000 8 [995; 997; 1003])
  ≤ 997
  ≤ Ledger.GetNewestBlock (Scenario.ledger_with 1000 8 [995; 997; 1003]).
Proof.
  refine (proj1 (oldest_and_newest_bound_the_tallies
                   (Scenario.ledger_with 1000 8 [995; 997; 1003])) 997 _).
  vm_compute. by eexists.
Defined.

Example oldest_and_newest :
  Ledger.GetOldestBlock (Scenario.ledger_with 1000 8 [995; 997; 1003]) = 995
  ∧ Ledger.GetNewestBlock (Scenario.ledger_with 1000 8 [995; 997; 1003]) = 1003
  ∧ Ledger.GetOldestBlock Payments.empty = 2147483647.
Proof. vm_compute. by split_and!. Qed.

(** ** Writing and reading the snapshot *)

Section store.
Import PaymentDB Store.

Lemma Read_concat (c : Codec) (e : Env) (data sum : list byte)
    (obj : CMasternodePayments) (fDryRun : bool) :
  length sum = 32%nat →
  Read c e (Some (data ++ sum)) obj fDryRun
  = if decide (sum ≠ Hash c data) then (IncorrectHash, obj)
    else Read_stream c e data obj fDryRun.
Proof.
  intros Hsum. rewrite Read_split by (rewrite length_app; lia).
  replace (length (data ++ sum) - 32)%nat with (length data)
    by (rewrite length_app; lia).
  by rewrite take_app_length, drop_app_length.
Qed.

Lemma Read_stream_header (c : Codec) (e : Env) (magic payload rest : list byte)
    (obj : CMasternodePayments) (fDryRun : bool) :
  length magic = 4%nat → magic = MessageStart c →
  Unserialize_string c rest = Some (strMagicMessage, magic ++ payload) →
  Read_stream c e rest obj fDryRun
  = let r := Unserialize_payments c payload
               (mapMasternodePayeeVotes obj) (mapMasternodeBlocks obj) in
    if negb r.1 then (IncorrectFormat, Payments.Clear (load obj r.2))
    else if fDryRun then (Ok, load obj r.2)
    else (Ok, (Payments.CleanPaymentList e (load obj r.2)).1).
Proof.
  intros Hlen Hmagic Hstr. unfold Read_stream. rewrite Hstr.
  rewrite (decide_False (P := strMagicMessage ≠ strMagicMessage))
    by (intros Hne; by apply Hne).
  rewrite (decide_False (P := (length _ < 4)%nat)) by (rewrite length_app; lia).
  replace (take 4 (magic ++ payload)) with magic
    by (by rewrite <- Hlen, take_app_length).
  replace (drop 4 (magic ++ payload)) with payload
    by (by rewrite <- Hlen, drop_app_length).
  rewrite (decide_False (P := magic ≠ MessageStart c)) by (intros Hne; by apply Hne).
  done.
Qed.

Lemma Read_of_Write_stream (c : Codec) (enc : Encoder) (e : Env)
    (obj objToLoad : CMasternodePayments) (fDryRun : bool) :
  length (Hash c (Serialize_string enc strMagicMessage ++ MessageStart c
                  ++ Serialize_payments enc obj)) = 32%nat →
  length (MessageStart c) = 4%nat →
  Unserialize_string c (Serialize_string enc strMagicMessage ++ MessageStart c
                        ++ Serialize_payments enc obj)
  = Some (strMagicMessage, MessageStart c ++ Serialize_payments enc obj) →
  Read c e (Some (Write_stream c enc obj)) objToLoad fDryRun
  = let r := Unserialize_payments c (Serialize_payments enc obj)
               (mapMasternodePayeeVotes objToLoad) (mapMasternodeBlocks objToLoad) in
    if negb r.1 then (IncorrectFormat, Payments.Clear (load objToLoad r.2))
    else if fDryRun then (Ok, load objToLoad r.2)
    else (Ok, (Payments.CleanPaymentList e (load objToLoad r.2)).1).
Proof.
  intros Hhash Hmagic Hstr. unfold Write_stream.
  rewrite Read_concat by done.
  rewrite decide_False by (intros Hne; by apply Hne).
  by apply (Read_stream_header c e (MessageStart c)).
Qed.

End store.

(** ** Streams: what is written is read back *)

Section streams.
Import Stream.

Lemma reads_as_pair {A B} (FA : Format A) (FB : Format B) (a a' : A) (b b' : B) :
  reads_as FA a a' → reads_as FB b b' →
  reads_as (pair_format FA FB) (a, b) (a', b').
Proof. intros Ha Hb rest. simpl. by rewrite <- app_assoc, Ha, Hb. Qed.

Lemma reads_as_class {A B} (F : Format A) (make : A → B) (fields : B → A)
    (x y : B) (f : A) :
  reads_as F (fields x) f → make f = y →
  reads_as (class_format F make fields) x y.
Proof. intros H <- rest. simpl. by rewrite H. Qed.

Lemma Unserialize_many_reads {A} (F : Format A) (v v' : list A) (rest : list byte) :
  Forall2 (reads_as F) v v' →
  Unserialize_many (Unserialize F) (length v) (concat (Serialize F <$> v) ++ rest)
  = (v', Some rest).
Proof.
  induction 1 as [|x y v v' Hxy _ IH]; [done |].
  rewrite fmap_cons. cbn [length Unserialize_many concat].
  by rewrite <- app_assoc, Hxy, IH.
Qed.

Lemma reads_as_vector (F_size : Format Z) {A} (F : Format A) (v v' : list A) :
  reads_as F_size (Z.of_nat (length v)) (Z.of_nat (length v)) →
  Forall2 (reads_as F) v v' →
  reads_as (vector_format F_size F) v v'.
Proof.
  intros Hn Hv rest. simpl. rewrite <- app_assoc, Hn, Nat2Z.id.
  by rewrite (Unserialize_many_reads F v v').
Qed.

Lemma insert_new_union {V} (m : gmap Z V) (item : Z * V) :
  insert_new m item = m ∪ {[item.1 := item.2]}.
Proof.
  unfold insert_new. case_decide as Hk.
  - destruct Hk as [x Hx]. apply map_eq. intros k. rewrite lookup_union.
    destruct (decide (k = item.1)) as [-> | Hne].
    + by rewrite Hx, lookup_singleton_eq.
    + rewrite lookup_singleton_ne by done. by destruct (m !! k).
  - apply eq_None_not_Some in Hk. by rewrite insert_union_singleton_r.
Qed.

Lemma foldl_insert_new {V} (l : list (Z * V)) (acc : gmap Z V) :
  foldl insert_new acc l = acc ∪ list_to_map l.
Proof.
  revert acc. induction l as [|[k x] l IH]; intros acc; simpl.
  - by rewrite (right_id_L ∅ (∪)).
  - rewrite IH, insert_new_union. simpl.
    by rewrite <- (assoc_L (∪)), <- insert_union_singleton_l.
Qed.

Lemma length_std_map_iter {V} (m : gmap Z V) : length (std_map_iter m) = size m.
Proof.
  unfold std_map_iter. rewrite merge_sort_Permutation.
  symmetry. by rewrite length_map_to_list.
Qed.

End streams.

Lemma Unserialize_map_reads (F_size FK : Stream.Format Z) {V} (FV : Stream.Format V)
    (norm : V → V) (m : gmap Z V) (rest : list byte) :
  Stream.reads_as F_size (Z.of_nat (size m)) (Z.of_nat (size m)) →
  map_Forall (λ k x, Stream.reads_as FK k k ∧ Stream.reads_as FV x (norm x)) m →
  Stream.Unserialize_map F_size FK FV (Stream.Serialize_map F_size FK FV m ++ rest)
  = (norm <$> m, Some rest).
Proof.
  intros Hn Hm. unfold Stream.Unserialize_map, Stream.Serialize_map.
  rewrite <- app_assoc, Hn, Nat2Z.id, <- length_std_map_iter.
  rewrite (Unserialize_many_reads _ _ (prod_map id norm <$> std_map_iter m)).
  - cbn [fst snd]. f_equal. rewrite foldl_insert_new, (left_id_L ∅ (∪)).
    assert (Hnd : NoDup (prod_map id norm <$> std_map_iter m).*1).
    { rewrite <- list_fmap_compose.
      rewrite (list_fmap_ext _ fst (std_map_iter m)) by (by intros ? []).
      apply NoDup_std_map_iter. }
    apply map_eq. intros k. apply option_eq. intros y.
    rewrite <- elem_of_list_to_map by done.
    rewrite list_elem_of_fmap, lookup_fmap_Some. split.
    + intros ([k' x] & [= -> ->] & Hin%elem_of_std_map_iter). by exists x.
    + intros (x & <- & Hx). exists (k, x). split; [done |].
      by apply elem_of_std_map_iter.
  - apply Forall2_fmap_r, Forall_Forall2_diag, Forall_forall.
    intros [k x] Hin%elem_of_std_map_iter. destruct (Hm k x Hin) as [Hk Hx].
    by apply reads_as_pair.
Qed.

(** ** The classes on a stream *)

Section classes_on_a_stream.
Import Stream.
Context (p : Primitives) (Hp : Lawful p).

Lemma Payee_reads (x : CMasternodePayee) :
  Wire.payee_ok p x → reads_as (Wire.Payee p) x x.
Proof.
  intros (Hs & Hl & Hv). destruct x as [s l v]. simpl in *.
  unfold Wire.Payee. eapply reads_as_class; [simpl |].
  - apply reads_as_pair; [by apply bytes_exact |].
    apply reads_as_pair; [by apply uint_exact | by apply int_exact].
  - done.
Qed.

Lemma BlockPayees_reads (bp : CMasternodeBlockPayees) :
  Wire.tally_ok p bp → reads_as (Wire.BlockPayees p) bp bp.
Proof.
  intros (Hh & Hn & Hv). destruct bp as [h v]. simpl in *.
  unfold Wire.BlockPayees. eapply reads_as_class; [simpl |].
  - apply reads_as_pair; [by apply int_exact |].
    apply reads_as_vector; [by apply size_exact |].
    apply Forall_Forall2_diag. eapply Forall_impl; [exact Hv |].
    intros x Hx. by apply Payee_reads.
  - done.
Qed.

Lemma PaymentWinner_reads (MNW_VIN nVersion : Z) (w : CMasternodePaymentWinner) :
  Wire.winner_ok p MNW_VIN nVersion w →
  reads_as (Wire.PaymentWinner p MNW_VIN nVersion Wire.Winner_default) w
    (Wire.stored MNW_VIN nVersion w).
Proof.
  unfold Wire.winner_ok, Wire.PaymentWinner, Wire.stored.
  intros (Hvm & Hh & Hpay & Hsig). destruct w as [vm h py vp sig]. simpl in *.
  case_decide.
  - eapply reads_as_class; [simpl |].
    + apply reads_as_pair; [by apply txin_exact |].
      apply reads_as_pair; [by apply int_exact |].
      apply reads_as_pair; by apply bytes_exact.
    + done.
  - eapply reads_as_class; [simpl |].
    + apply reads_as_pair; [by apply txin_exact |].
      apply reads_as_pair; [by apply int_exact |].
      apply reads_as_pair; [by apply txin_exact | by apply bytes_exact].
    + done.
Qed.

(** The payload written for a ledger is read back without a throw: the tallies
    as they were, the votes as SerializationOp stores them. *)
Lemma Unserialize_Serialize_payments (MNW_VIN nVersion : Z) (L : CMasternodePayments)
    (votes : gmap Z CMasternodePaymentWinner) (blocks : gmap Z CMasternodeBlockPayees) :
  Wire.storable p MNW_VIN nVersion L →
  Wire.Unserialize_payments p MNW_VIN nVersion
    (Wire.Serialize_payments p MNW_VIN nVersion L) votes blocks
  = (true, (Wire.stored MNW_VIN nVersion <$> mapMasternodePayeeVotes L,
            mapMasternodeBlocks L)).
Proof.
  intros (Hnv & Hv & Hnb & Hb).
  unfold Wire.Unserialize_payments, Wire.Serialize_payments.
  rewrite (Unserialize_map_reads _ _ _ (Wire.stored MNW_VIN nVersion)).
  - cbn [fst snd].
    rewrite <- (app_nil_r (Serialize_map _ _ _ (mapMasternodeBlocks L))).
    rewrite (Unserialize_map_reads _ _ _ id).
    + cbn [fst snd]. rewrite map_fmap_id.
      by rewrite bool_decide_eq_true_2 by (by eexists).
    + by apply size_exact.
    + intros h bp Hbp. destruct (Hb h bp Hbp) as [Hh Hbp']. split.
      * by apply int_exact.
      * by apply BlockPayees_reads.
  - by apply size_exact.
  - intros k w Hw. destruct (Hv k w Hw) as [Hk Hw']. split.
    + by apply uint256_exact.
    + by apply PaymentWinner_reads.
Qed.

End classes_on_a_stream.

(** ** The Bitcoin encodings are lawful *)

Section bitcoin.
Import Stream Bitcoin.

Lemma byte_val_of (z : Z) : byte_val (byte_of z) = z mod 256.
Proof.
  unfold byte_val, byte_of. pose proof (Z.mod_pos_bound z 256 eq_refl) as Hb.
  destruct (Byte.of_N (Z.to_N (z mod 256))) as [b |] eqn:Hof; simpl.
  - apply Byte.to_of_N in Hof. rewrite Hof. lia.
  - apply Byte.of_N_None_iff in Hof. lia.
Qed.

Lemma length_le_bytes (n : nat) (z : Z) : length (le_bytes n z) = n.
Proof. revert z. induction n as [|n IH]; intros z; simpl; [done | by rewrite IH]. Qed.

Lemma le_value_bytes (n : nat) (z : Z) :
  le_value (le_bytes n z) = z mod 256 ^ Z.of_nat n.
Proof.
  revert z. induction n as [|n IH]; intros z.
  - simpl. by rewrite Z.mod_1_r.
  - cbn [le_bytes le_value]. rewrite byte_val_of, IH.
    rewrite Nat2Z.inj_succ, Z.pow_succ_r by lia.
    rewrite Z.rem_mul_r; [done | lia |]. apply Z.pow_pos_nonneg; lia.
Qed.

Lemma read_app (a rest : list byte) : read (length a) (a ++ rest) = Some (a, rest).
Proof.
  unfold read. rewrite decide_False by (rewrite length_app; lia).
  by rewrite take_app_length, drop_app_length.
Qed.

Lemma read_le_bytes (n : nat) (z : Z) (rest : list byte) :
  read_le n (le_bytes n z ++ rest) = Some (z mod 256 ^ Z.of_nat n, rest).
Proof.
  unfold read_le. rewrite <- (length_le_bytes n z) at 1.
  by rewrite read_app, le_value_bytes.
Qed.

Lemma unsigned_reads (n : nat) (z : Z) :
  0 ≤ z < 256 ^ Z.of_nat n → reads_as (unsigned n) z z.
Proof.
  intros Hz rest. cbn [Serialize Unserialize unsigned].
  rewrite read_le_bytes. by rewrite Z.mod_small.
Qed.

Lemma signed32_reads (z : Z) : is_int z → reads_as signed32 z z.
Proof.
  unfold is_int, int_min, int_max. intros Hz rest.
  cbn [Serialize Unserialize signed32].
  rewrite read_le_bytes. change (256 ^ Z.of_nat 4) with (2 ^ 32).
  destruct (decide (0 ≤ z)).
  - rewrite Z.mod_small by lia. by rewrite decide_False by (unfold int_max; lia).
  - replace (z mod 2 ^ 32) with (z + 2 ^ 32).
    + rewrite decide_True by (unfold int_max; lia). do 2 f_equal. lia.
    + replace z with (z + 2 ^ 32 + (-1) * 2 ^ 32) at 2 by lia.
      rewrite Z.mod_add by lia. rewrite Z.mod_small; lia.
Qed.

Lemma compact_size_reads (n : Z) :
  0 ≤ n ≤ MAX_SIZE → reads_as compact_size n n.
Proof.
  unfold MAX_SIZE. intros Hn rest. cbn [Serialize Unserialize compact_size].
  unfold WriteCompactSize.
  destruct (decide (n < 253)).
  - cbn [app ReadCompactSize]. rewrite byte_val_of, Z.mod_small by lia.
    rewrite decide_True by done. rewrite decide_False by lia.
    by rewrite decide_False by (unfold MAX_SIZE; lia).
  - destruct (decide (n <= 65535)).
    + cbn [app ReadCompactSize]. change (byte_val xfd) with 253.
      rewrite decide_False by lia. rewrite decide_True by done.
      rewrite read_le_bytes. change (256 ^ Z.of_nat 2) with 65536.
      rewrite Z.mod_small by lia. rewrite decide_False by lia.
      by rewrite decide_False by (unfold MAX_SIZE; lia).
    + rewrite decide_True by lia.
      cbn [app ReadCompactSize]. change (byte_val xfe) with 254.
      rewrite decide_False by lia. rewrite decide_False by lia.
      rewrite decide_True by done.
      rewrite read_le_bytes. change (256 ^ Z.of_nat 4) with 4294967296.
      rewrite Z.mod_small by lia. rewrite decide_False by lia.
      by rewrite decide_False by (unfold MAX_SIZE; lia).
Qed.

Lemma bytes_reads (l : list byte) :
  Z.of_nat (length l) ≤ MAX_SIZE → reads_as bytes l l.
Proof.
  intros Hl rest. cbn [Serialize Unserialize bytes]. rewrite <- app_assoc.
  pose proof (compact_size_reads (Z.of_nat (length l))) as Hc.
  cbn [Serialize Unserialize compact_size] in Hc. unfold reads_as in Hc.
  cbn [Serialize Unserialize compact_size] in Hc. rewrite Hc by lia.
  rewrite Nat2Z.id. apply read_app.
Qed.

Lemma str_reads (s : string) :
  Z.of_nat (length (String.list_byte_of_string s)) ≤ MAX_SIZE → reads_as str s s.
Proof.
  intros Hs. unfold str.
  eapply reads_as_class; [by apply bytes_reads |].
  apply String.string_of_list_byte_of_string.
Qed.

Lemma txin_reads (v : CTxIn) : is_txin primitives v → reads_as txin v v.
Proof.
  unfold is_txin, is_uint256, is_uint, is_size.
  intros (Hh & Hn & Hs & Hq). destruct v as [[h n] s q]. simpl in *.
  unfold txin. eapply reads_as_class; [simpl |].
  - apply reads_as_pair.
    + unfold outpoint. eapply reads_as_class; [simpl |].
      * apply reads_as_pair; by apply unsigned_reads.
      * done.
    + apply reads_as_pair; [by apply bytes_reads | by apply unsigned_reads].
  - done.
Qed.

Lemma primitives_lawful : Lawful primitives.
Proof.
  split; simpl.
  - intros n Hn. apply compact_size_reads. unfold is_size in Hn. simpl in Hn. lia.
  - apply signed32_reads.
  - intros z Hz. by apply unsigned_reads.
  - intros z Hz. by apply unsigned_reads.
  - intros l Hl. by apply bytes_reads.
  - apply txin_reads.
  - intros s Hs. by apply str_reads.
Qed.

End bitcoin.

(** ** Writing and reading mnpayments.dat *)

Lemma Read_of_Write (p : Stream.Primitives) (hash : list byte → list byte)
    (start : list byte) (MNW_VIN CLIENT_VERSION : Z) (e : Env)
    (L objToLoad : CMasternodePayments) :
  Stream.Lawful p →
  (∀ l, length (hash l) = 32%nat) →
  length start = 4%nat →
  Stream.is_size p (length (String.list_byte_of_string PaymentDB.strMagicMessage)) →
  Wire.storable p MNW_VIN CLIENT_VERSION L →
  PaymentDB.Read (Wire.codec p hash start MNW_VIN CLIENT_VERSION) e
    (Some (Store.Write_stream (Wire.codec p hash start MNW_VIN CLIENT_VERSION)
             (Wire.encoder p MNW_VIN CLIENT_VERSION) L))
    objToLoad true
  = (PaymentDB.Ok,
     PaymentDB.load objToLoad
       (Wire.stored MNW_VIN CLIENT_VERSION <$> mapMasternodePayeeVotes L,
        mapMasternodeBlocks L)).
Proof.
  intros Hp Hhash Hstart Hmagic HL.
  rewrite Read_of_Write_stream; [| apply Hhash | exact Hstart |].
  - cbn [PaymentDB.Unserialize_payments Wire.codec Store.Serialize_payments
         Wire.encoder].
    by rewrite Unserialize_Serialize_payments.
  - cbn [PaymentDB.Unserialize_string Wire.codec Store.Serialize_string
         Wire.encoder PaymentDB.MessageStart].
    by apply (Stream.string_exact p Hp).
Qed.



Example produced_votes_lose_payee :
  let r := PaymentDB.Read Scenario.codec (Scenario.env 1000 8)
             (Some (Fixtures.file_of Fixtures.produced)) Payments.empty true in
  r.1 = PaymentDB.Ok
  ∧ length (Fixtures.file_of Fixtures.produced) = 335%nat
  ∧ (λ it, payee it.2) <$> std_map_iter (mapMasternodePayeeVotes Fixtures.produced)
    = [Scenario.script_of 2; Scenario.script_of 9]
  ∧ (λ it, payee it.2) <$> std_map_iter (mapMasternodePayeeVotes r.2) = [[]; []]
  ∧ mapMasternodeBlocks r.2 = mapMasternodeBlocks Fixtures.produced.
Proof. vm_compute. by split_and!. Qed.



Example Dump_scenarios :
  let dump fopen thrown file :=
    Store.DumpMasternodePayments Scenario.codec Scenario.encoder
      (Scenario.env 1000 8) fopen thrown file Fixtures.produced in
  dump true None None = Some (Fixtures.file_of Fixtures.produced)
  ∧ dump true (Some 40%nat) None = Some (take 40 (Fixtures.file_of Fixtures.produced))
  ∧ dump true None (Some (Fixtures.file_of Payments.empty))
    = Some (Fixtures.file_of Fixtures.produced)
  ∧ dump false None (Some (Fixtures.file_of Payments.empty))
    = Some (Fixtures.file_of Payments.empty)
  ∧ dump true None (Some (take 40 (Fixtures.file_of Fixtures.produced)))
    = Some (take 40 (Fixtures.file_of Fixtures.produced)).
Proof. vm_compute. by split_and!. Qed.

(* X9X10 *)

(** ** ProcessBlock *)

Section process_block.
Import Producer.

Variables (e : Env) (n : Node) (pubKey : list byte) (nBlockHeight : Z).

(** A pass of the loop keeps the state, or adds one vote, relays it and sets
    nLastBlockHeight. *)
Lemma process_step_cases (st : CMasternodePayments * list Effect) (phase : Z) :
  process_step e n pubKey nBlockHeight st phase = st
  ∨ ∃ w, (Payments.AddWinningMasternode e st.1 w).1 = true
         ∧ winner_nBlockHeight w = nBlockHeight
         ∧ vinMasternode w = activeMasternode_vin n
         ∧ process_step e n pubKey nBlockHeight st phase
           = (Ledger.set_nLastBlockHeight
                (Payments.AddWinningMasternode e st.1 w).2 nBlockHeight,
              st.2 ++ [Relay (Winner.GetHash e w)]).
Proof.
  unfold process_step.
  destruct (GetNextMasternodeInQueueForPayment n _ phase) as [pmn |]; [| by left].
  destruct (Sign e n pubKey _) as [w |] eqn:Hsign; [| by left].
  assert (Hw : winner_nBlockHeight w = nBlockHeight
               ∧ vinMasternode w = activeMasternode_vin n).
  { unfold Sign in Hsign. destruct (SignMessage n _); [| done].
    destruct (VerifyMessage e _ _ _); [| done]. by injection Hsign as <-. }
  destruct (Payments.AddWinningMasternode e st.1 w).1 eqn:Hadd.
  - right. exists w. by destruct Hw.
  - left. rewrite AddWinningMasternode_false by done. by destruct st.
Qed.

Lemma process_fold_cases (phases : list Z) (st : CMasternodePayments * list Effect) :
  foldl (process_step e n pubKey nBlockHeight) st phases = st
  ∨ nLastBlockHeight (foldl (process_step e n pubKey nBlockHeight) st phases).1
    = nBlockHeight.
Proof.
  revert st. induction phases as [|ph phases IH]; intros st; [by left |].
  cbn [foldl].
  destruct (process_step_cases st ph) as [-> | (w & _ & _ & _ & Hstep)]; [apply IH |].
  right. destruct (IH (process_step e n pubKey nBlockHeight st ph)) as [-> | ->];
    [by rewrite Hstep | done].
Qed.

(** What the loop keeps, whatever it adds. *)
Lemma process_fold_frame (phases : list Z) (st : CMasternodePayments * list Effect) :
  let st' := foldl (process_step e n pubKey nBlockHeight) st phases in
  mapMasternodesLastVote st'.1 = mapMasternodesLastVote st.1
  ∧ mapMasternodePayeeVotes st.1 ⊆ mapMasternodePayeeVotes st'.1
  ∧ (∃ relayed, st'.2 = st.2 ++ (Relay <$> relayed)
       ∧ (size (mapMasternodePayeeVotes st'.1)
          = size (mapMasternodePayeeVotes st.1) + length relayed)%nat
       ∧ Forall (λ h, ∃ w, mapMasternodePayeeVotes st'.1 !! h = Some w
                           ∧ mapMasternodePayeeVotes st.1 !! h = None
                           ∧ winner_nBlockHeight w = nBlockHeight
                           ∧ vinMasternode w = activeMasternode_vin n) relayed).
Proof.
  revert st. induction phases as [|ph phases IH]; intros st.
  - simpl. split_and!; [done | done |]. exists []. simpl.
    split_and!; [by rewrite app_nil_r | lia | constructor].
  - cbn [foldl]. cbv zeta.
    destruct (process_step_cases st ph) as [-> | (w & Hadd & Hh & Hvin & ->)];
      [apply IH |].
    destruct (IH (Ledger.set_nLastBlockHeight
                    (Payments.AddWinningMasternode e st.1 w).2 nBlockHeight,
                  st.2 ++ [Relay (Winner.GetHash e w)]))
      as (Hg & Hsub & relayed & Heff & Hsize & Hall).
    apply AddWinningMasternode_true in Hadd as (_ & Hnew & Hvotes & _).
    simpl in *. rewrite Hvotes in Hsub, Hsize, Hall.
    split_and!.
    + by rewrite Hg, AddWinningMasternode_lastVote.
    + etrans; [by apply (insert_subseteq _ (Winner.GetHash e w) w) | done].
    + exists (Winner.GetHash e w :: relayed). split_and!.
      * rewrite Heff, <- app_assoc. done.
      * rewrite Hsize, map_size_insert_None by done. simpl. lia.
      * constructor.
        -- exists w. split_and!; [| done | done | done].
           eapply lookup_weaken; [apply lookup_insert_eq | done].
        -- eapply Forall_impl; [exact Hall |]. simpl.
           intros h (w' & Hw' & Hn' & Hh' & Hv'). exists w'.
           split_and!; [done | | done | done].
           destruct (decide (h = Winner.GetHash e w)) as [-> | Hne].
           ++ by rewrite lookup_insert_eq in Hn'.
           ++ by rewrite lookup_insert_ne in Hn'.
Qed.

End process_block.

Lemma ProcessBlock_cases (e : Env) (n : Node) (L : CMasternodePayments) (h : Z) :
  Producer.ProcessBlock e n L h = (false, (L, []))
  ∨ (Producer.ProcessBlock e n L h = (true, (L, []))
     ∧ IsBudgetPaymentBlock n h = true)
  ∨ (fMasterNode n = true
     ∧ GetMasternodeRank e (activeMasternode_vin n) (h - 100) (ActiveProtocol e) ≠ -1
     ∧ ¬ GetMasternodeRank e (activeMasternode_vin n) (h - 100) (ActiveProtocol e)
         > MNPAYMENTS_SIGNATURES_TOTAL
     ∧ nLastBlockHeight (Producer.ProcessBlock e n L h).2.1 = h).
Proof.
  unfold Producer.ProcessBlock.
  destruct (fMasterNode n); simpl; [| by left].
  destruct (decide (_ = -1)); [by left |].
  destruct (decide (_ > _)); [by left |].
  destruct (decide (h <= nLastBlockHeight L)); [by left |].
  destruct (IsBudgetPaymentBlock n h); [right; by left |].
  destruct (SetKey n) as [pubKey |]; [| by left]. simpl.
  destruct (process_fold_cases e n pubKey h (BlockPayees.phases e (h + 1)) (L, []))
    as [-> | Hset].
  - left. simpl. rewrite bool_decide_eq_false_2; [done | lia].
  - right. right. by split_and!.
Qed.

Lemma ProcessBlock_done (e : Env) (n : Node) (L : CMasternodePayments) (h : Z) :
  h ≤ nLastBlockHeight L → Producer.ProcessBlock e n L h = (false, (L, [])).
Proof.
  intros Hdone. unfold Producer.ProcessBlock.
  destruct (fMasterNode n); simpl; [| done].
  repeat case_decide; (done || lia).
Qed.

(** X11: asked again for the same height, with the collaborators answering as
    before, ProcessBlock changes nothing and relays nothing, and it answers
    true only for a budget payment block. *)
Theorem ProcessBlock_twice (e : Env) (n : Node) (L : CMasternodePayments) (h : Z) :
  let L1 := (Producer.ProcessBlock e n L h).2.1 in
  (Producer.ProcessBlock e n L1 h).2 = (L1, [])
  ∧ ((Producer.ProcessBlock e n L1 h).1 = true → IsBudgetPaymentBlock n h = true).
Proof.
  intros L1. unfold L1.
  destruct (ProcessBlock_cases e n L h)
    as [H1 | [[H1 Hb] | (Hmn & Hr1 & Hr2 & Hlast)]].
  - rewrite H1. simpl. rewrite H1. done.
  - rewrite H1. simpl. rewrite H1. done.
  - rewrite ProcessBlock_done by lia. done.
Qed.

Lemma ProcessBlock_twice_witness :
  (Producer.ProcessBlock Fixtures.env2 Fixtures.node
     (Producer.ProcessBlock Fixtures.env2 Fixtures.node Payments.empty 1001).2.1
     1001).2
  = ((Producer.ProcessBlock Fixtures.env2 Fixtures.node Payments.empty 1001).2.1, []).
Proof.
  exact (proj1 (ProcessBlock_twice Fixtures.env2 Fixtures.node Payments.empty 1001)).
Defined.

Example ProcessBlock_votes :
  let r := Producer.ProcessBlock Fixtures.env2 Fixtures.node Payments.empty 1001 in
  r.1 = true
  ∧ nLastBlockHeight r.2.1 = 1001
  ∧ size (mapMasternodePayeeVotes r.2.1) = 2%nat
  ∧ mapMasternodesLastVote r.2.1 = ∅
  ∧ Producer.ProcessBlock Fixtures.env2 Fixtures.node r.2.1 1001 = (false, (r.2.1, [])).
Proof. vm_compute. by split_and!. Qed.

(** X12: ProcessBlock never touches the double-vote guard (the node's own
    votes do not pass through CanVote), never removes a vote, and relays
    exactly the votes it adds: one Relay per new entry of the vote index, each
    a vote of this masternode for the height asked. *)
Theorem ProcessBlock_relays_what_it_adds (e : Env) (n : Node)
    (L : CMasternodePayments) (h : Z) :
  let r := Producer.ProcessBlock e n L h in
  mapMasternodesLastVote r.2.1 = mapMasternodesLastVote L
  ∧ mapMasternodePayeeVotes L ⊆ mapMasternodePayeeVotes r.2.1
  ∧ ∃ relayed, r.2.2 = Relay <$> relayed
      ∧ (size (mapMasternodePayeeVotes r.2.1)
         = size (mapMasternodePayeeVotes L) + length relayed)%nat
      ∧ Forall (λ k, ∃ w, mapMasternodePayeeVotes r.2.1 !! k = Some w
                          ∧ mapMasternodePayeeVotes L !! k = None
                          ∧ winner_nBlockHeight w = h
                          ∧ vinMasternode w = activeMasternode_vin n) relayed.
Proof.
  assert (Hnone : mapMasternodesLastVote L = mapMasternodesLastVote L
    ∧ mapMasternodePayeeVotes L ⊆ mapMasternodePayeeVotes L
    ∧ ∃ relayed, ([] : list Effect) = Relay <$> relayed
        ∧ (size (mapMasternodePayeeVotes L)
           = size (mapMasternodePayeeVotes L) + length relayed)%nat
        ∧ Forall (λ k, ∃ w, mapMasternodePayeeVotes L !! k = Some w
                            ∧ mapMasternodePayeeVotes L !! k = None
                            ∧ winner_nBlockHeight w = h
                            ∧ vinMasternode w = activeMasternode_vin n) relayed).
  { split_and!; [done | done |]. exists []. split_and!; [done | simpl; lia | constructor]. }
  unfold Producer.ProcessBlock.
  destruct (fMasterNode n); simpl; [| exact Hnone].
  repeat case_decide; try exact Hnone.
  destruct (IsBudgetPaymentBlock n h); [exact Hnone |].
  destruct (SetKey n) as [pubKey |]; [| exact Hnone]. simpl.
  apply (process_fold_frame e n pubKey h (BlockPayees.phases e (h + 1)) (L, [])).
Qed.

(** ** Invariants of the ledgers a node builds *)

Section built_invariant.

(** A property of the two indexes that holds of the empty ledger and is kept
    by a successful AddWinningMasternode and by CleanPaymentList holds after
    every sequence of messages, own votes, clean-ups and resets. *)
Variable P : gmap Z CMasternodePaymentWinner → gmap Z CMasternodeBlockPayees → Prop.

Hypothesis P_empty : P ∅ ∅.

Hypothesis P_add : ∀ e L w,
  P (mapMasternodePayeeVotes L) (mapMasternodeBlocks L) →
  (Payments.AddWinningMasternode e L w).1 = true →
  P (mapMasternodePayeeVotes (Payments.AddWinningMasternode e L w).2)
    (mapMasternodeBlocks (Payments.AddWinningMasternode e L w).2).

Hypothesis P_clean : ∀ e L,
  P (mapMasternodePayeeVotes L) (mapMasternodeBlocks L) →
  P (mapMasternodePayeeVotes (Payments.CleanPaymentList e L).1)
    (mapMasternodeBlocks (Payments.CleanPaymentList e L).1).

Lemma P_step (L : CMasternodePayments) (c : Call) :
  P (mapMasternodePayeeVotes L) (mapMasternodeBlocks L) →
  P (mapMasternodePayeeVotes (Payments.ledger (step L c)))
    (mapMasternodeBlocks (Payments.ledger (step L c))).
Proof.
  intros HP. unfold step.
  destruct (decide (Payments.outcome
                      (Payments.ProcessMessage_mnw (call_env c) (call_peer c) L
                         (call_winner c)) = Payments.Accepted)) as [Hacc | Hrej].
  - apply mnw_accepted in Hacc as (_ & _ & _ & _ & _ & _ & _ & _ & Hadd & ->).
    apply P_add; [| done].
    by destruct (CanVote_indexes (call_env c) L (call_winner c)) as [-> ->].
  - apply mnw_not_accepted in Hrej as [-> | (_ & _ & ->)]; [done |].
    by destruct (CanVote_indexes (call_env c) L (call_winner c)) as [-> ->].
Qed.

Lemma P_process_fold (e : Env) (n : Node) (pubKey : list byte) (h : Z)
    (phases : list Z) (st : CMasternodePayments * list Effect) :
  P (mapMasternodePayeeVotes st.1) (mapMasternodeBlocks st.1) →
  P (mapMasternodePayeeVotes (foldl (Producer.process_step e n pubKey h) st phases).1)
    (mapMasternodeBlocks (foldl (Producer.process_step e n pubKey h) st phases).1).
Proof.
  revert st. induction phases as [|ph phases IH]; intros st HP; [done |].
  cbn [foldl]. apply IH.
  destruct (process_step_cases e n pubKey h st ph) as [-> | (w & Hadd & _ & _ & ->)];
    [done |].
  simpl. by apply P_add.
Qed.

Lemma P_ProcessBlock (e : Env) (n : Node) (L : CMasternodePayments) (h : Z) :
  P (mapMasternodePayeeVotes L) (mapMasternodeBlocks L) →
  P (mapMasternodePayeeVotes (Producer.ProcessBlock e n L h).2.1)
    (mapMasternodeBlocks (Producer.ProcessBlock e n L h).2.1).
Proof.
  intros HP. unfold Producer.ProcessBlock.
  destruct (fMasterNode n); simpl; [| done].
  repeat case_decide; try done.
  destruct (IsBudgetPaymentBlock n h); [done |].
  destruct (SetKey n) as [pubKey |]; [| done]. simpl.
  by apply P_process_fold.
Qed.

Lemma P_after (ops : list Built.Op) :
  P (mapMasternodePayeeVotes (Built.after ops)) (mapMasternodeBlocks (Built.after ops)).
Proof.
  unfold Built.after.
  assert (Hgen : ∀ L, P (mapMasternodePayeeVotes L) (mapMasternodeBlocks L) →
                      P (mapMasternodePayeeVotes (foldl Built.apply L ops))
                        (mapMasternodeBlocks (foldl Built.apply L ops))).
  { induction ops as [|op ops IH]; intros L HP; [done |].
    cbn [foldl]. apply IH. destruct op as [c | e n h | e |]; simpl.
    - by apply P_step.
    - by apply P_ProcessBlock.
    - by apply P_clean.
    - exact P_empty. }
  apply Hgen. exact P_empty.
Qed.

End built_invariant.

Section counting.

Lemma votes_at_insert (m : gmap Z CMasternodePaymentWinner) (k h : Z)
    (w : CMasternodePaymentWinner) :
  m !! k = None →
  size (filter (λ it : Z * CMasternodePaymentWinner, winner_nBlockHeight it.2 = h)
          (<[k := w]> m))
  = ((if decide (winner_nBlockHeight w = h) then 1 else 0)
     + size (filter (λ it : Z * CMasternodePaymentWinner,
                       winner_nBlockHeight it.2 = h) m))%nat.
Proof.
  intros Hk. case_decide as Hh.
  - rewrite map_filter_insert_True by done.
    rewrite map_size_insert_None; [done |].
    apply map_lookup_filter_None. by left.
  - rewrite map_filter_insert_False by done. by rewrite delete_id.
Qed.

Lemma clean_votes_filter (e : Env) (L : CMasternodePayments) (nHeight : Z) :
  chainTip e = Some nHeight →
  mapMasternodePayeeVotes (Payments.CleanPaymentList e L).1
  = filter (λ it : Z * CMasternodePaymentWinner,
              ¬ height_minus nHeight (winner_nBlockHeight it.2) > Payments.nLimit e)
      (mapMasternodePayeeVotes L).
Proof.
  intros Htip. apply map_eq. intros k. apply option_eq. intros w.
  rewrite clean_votes_lookup by done. by rewrite map_lookup_filter_Some.
Qed.

End counting.

Lemma counts_match_add (e : Env) (L : CMasternodePayments)
    (w : CMasternodePaymentWinner) :
  Built.counts_match (mapMasternodePayeeVotes L) (mapMasternodeBlocks L) →
  (Payments.AddWinningMasternode e L w).1 = true →
  Built.counts_match (mapMasternodePayeeVotes (Payments.AddWinningMasternode e L w).2)
    (mapMasternodeBlocks (Payments.AddWinningMasternode e L w).2).
Proof.
  intros HP Hadd h.
  apply AddWinningMasternode_true in Hadd as (_ & Hnew & -> & ->).
  rewrite votes_at_insert by done. specialize (HP h).
  destruct (decide (winner_nBlockHeight w = h)) as [<- | Hne].
  - rewrite lookup_insert_eq. simpl. rewrite AddPayee_vec_total.
    destruct (mapMasternodeBlocks L !! winner_nBlockHeight w); simpl in *; lia.
  - rewrite lookup_insert_ne by done. simpl. exact HP.
Qed.

Lemma counts_match_clean (e : Env) (L : CMasternodePayments) :
  Built.counts_match (mapMasternodePayeeVotes L) (mapMasternodeBlocks L) →
  Built.counts_match (mapMasternodePayeeVotes (Payments.CleanPaymentList e L).1)
    (mapMasternodeBlocks (Payments.CleanPaymentList e L).1).
Proof.
  intros HP. destruct (chainTip e) as [nHeight |] eqn:Htip;
    [| unfold Payments.CleanPaymentList; by rewrite Htip].
  intros h. rewrite (clean_blocks_lookup e L nHeight) by done.
  rewrite (clean_votes_filter e L nHeight) by done.
  rewrite map_filter_filter. specialize (HP h).
  destruct (decide (height_minus nHeight h > Payments.nLimit e)) as [Hold | Hnew].
  - assert (Hempty : filter (λ '(i, x),
                       winner_nBlockHeight (i, x).2 = h
                       ∧ ¬ height_minus nHeight (winner_nBlockHeight (i, x).2)
                           > Payments.nLimit e)
                       (mapMasternodePayeeVotes L) = ∅).
    { apply map_empty_filter. intros k w _ [Hh Hn]. simpl in *. by subst h. }
    rewrite Hempty, map_size_empty. case_decide as Hex; [done |].
    rewrite HP.
    assert (Hnone : filter (λ it : Z * CMasternodePaymentWinner,
                              winner_nBlockHeight it.2 = h)
                      (mapMasternodePayeeVotes L) = ∅).
    { apply map_empty_filter. intros k w Hw Hh. simpl in *.
      apply Hex. split; [done |]. by exists k, w. }
    by rewrite Hnone, map_size_empty.
  - rewrite decide_False by tauto. rewrite HP. do 2 f_equal.
    apply map_filter_ext. intros k w _. simpl. split; [| tauto].
    intros Hh. split; [done | by subst h].
Qed.

(** X13: on every ledger a node builds from the empty one by "mnw" messages,
    its own ProcessBlock votes, clean-ups and resets, the tally of each height
    counts exactly the votes recorded for that height: the sum of its counts
    is the number of entries of the vote index with that height (none, when
    the height has no tally).  In particular every recorded vote has a tally
    at its height. *)
Theorem tallies_count_the_recorded_votes (ops : list Built.Op) (h : Z) :
  Built.counted_at (Built.after ops) h = Z.of_nat (Built.votes_at (Built.after ops) h)
  ∧ ∀ k w, mapMasternodePayeeVotes (Built.after ops) !! k = Some w →
           winner_nBlockHeight w = h →
           is_Some (mapMasternodeBlocks (Built.after ops) !! h).
Proof.
  assert (HP : Built.counts_match (mapMasternodePayeeVotes (Built.after ops))
                 (mapMasternodeBlocks (Built.after ops))).
  { apply P_after.
    - intros h'. by rewrite lookup_empty, map_filter_empty, map_size_empty.
    - apply counts_match_add.
    - apply counts_match_clean. }
  specialize (HP h). split; [exact HP |].
  intros k w Hw Hh.
  destruct (mapMasternodeBlocks (Built.after ops) !! h) as [bp |]; [by eexists |].
  exfalso.
  assert (Hin : filter (λ it : Z * CMasternodePaymentWinner,
                          winner_nBlockHeight it.2 = h)
                  (mapMasternodePayeeVotes (Built.after ops)) !! k = Some w).
  { by apply map_lookup_filter_Some. }
  assert (Hsize : size (filter (λ it : Z * CMasternodePaymentWinner,
                            winner_nBlockHeight it.2 = h)
                    (mapMasternodePayeeVotes (Built.after ops))) ≠ 0%nat).
  { apply map_size_non_empty_iff. intros Hempty.
    by rewrite Hempty, lookup_empty in Hin. }
  lia.
Qed.

Lemma tallies_count_the_recorded_votes_witness :
  is_Some (mapMasternodeBlocks
             (Built.after [Built.Mnw (Scenario.call 1000 8 1 2 995);
                           Built.Block Fixtures.env2 Fixtures.node 1001;
                           Built.Clean (Scenario.env 1000 8)]) !! 1001).
Proof.
  refine (proj2 (tallies_count_the_recorded_votes
                   [Built.Mnw (Scenario.call 1000 8 1 2 995);
                    Built.Block Fixtures.env2 Fixtures.node 1001;
                    Built.Clean (Scenario.env 1000 8)] 1001)
            (Winner.GetHash Fixtures.env2
               {| vinMasternode := Scenario.vin_of 1; winner_nBlockHeight := 1001;
                  payee := Scenario.script_of 2; vinPayee := Scenario.vin_of 2;
                  vchSig := Scenario.script_of 1 |})
            {| vinMasternode := Scenario.vin_of 1; winner_nBlockHeight := 1001;
               payee := Scenario.script_of 2; vinPayee := Scenario.vin_of 2;
               vchSig := Scenario.script_of 1 |} _ eq_refl).
  vm_compute. reflexivity.
Defined.

Lemma tallies_wf_add (e : Env) (L : CMasternodePayments)
    (w : CMasternodePaymentWinner) :
  Built.tallies_wf (mapMasternodePayeeVotes L) (mapMasternodeBlocks L) →
  (Payments.AddWinningMasternode e L w).1 = true →
  Built.tallies_wf (mapMasternodePayeeVotes (Payments.AddWinningMasternode e L w).2)
    (mapMasternodeBlocks (Payments.AddWinningMasternode e L w).2).
Proof.
  intros HP Hadd h bp.
  apply AddWinningMasternode_true in Hadd as (_ & _ & _ & ->).
  destruct (decide (winner_nBlockHeight w = h)) as [<- | Hne].
  - rewrite lookup_insert_eq. intros [= <-].
    assert (Hbp0 : Built.tally_wf (winner_nBlockHeight w)
                     (default {| nBlockHeight := winner_nBlockHeight w;
                                 vecPayments := [] |}
                        (mapMasternodeBlocks L !! winner_nBlockHeight w))).
    { destruct (mapMasternodeBlocks L !! winner_nBlockHeight w) as [bp0 |] eqn:Hbp0;
        simpl; [by apply HP |].
      split_and!; [done | apply NoDup_nil_2 | constructor]. }
    destruct Hbp0 as (Hh & Hnd & Hpos). split_and!.
    + done.
    + by apply AddPayee_vec_NoDup.
    + by apply AddPayee_vec_positive.
  - rewrite lookup_insert_ne by done. apply HP.
Qed.

Lemma tallies_wf_clean (e : Env) (L : CMasternodePayments) :
  Built.tallies_wf (mapMasternodePayeeVotes L) (mapMasternodeBlocks L) →
  Built.tallies_wf (mapMasternodePayeeVotes (Payments.CleanPaymentList e L).1)
    (mapMasternodeBlocks (Payments.CleanPaymentList e L).1).
Proof.
  intros HP. destruct (chainTip e) as [nHeight |] eqn:Htip;
    [| unfold Payments.CleanPaymentList; by rewrite Htip].
  intros h bp. rewrite (clean_blocks_lookup e L nHeight) by done.
  case_decide; [done | apply HP].
Qed.

(** X14: on every ledger a node builds from the empty one, each tally is
    stored under its own height, holds at most one entry per (script, level)
    pair, and every entry has at least one vote. *)
Theorem built_tallies_are_well_formed (ops : list Built.Op) (h : Z)
    (bp : CMasternodeBlockPayees) :
  mapMasternodeBlocks (Built.after ops) !! h = Some bp →
  nBlockHeight bp = h
  ∧ NoDup (Tally.entry_key <$> vecPayments bp)
  ∧ Forall (λ p, 1 ≤ nVotes p) (vecPayments bp).
Proof.
  revert h bp.
  apply (P_after Built.tallies_wf).
  - intros h bp Hbp. by rewrite lookup_empty in Hbp.
  - apply tallies_wf_add.
  - apply tallies_wf_clean.
Qed.

Lemma built_tallies_are_well_formed_witness :
  nBlockHeight Scenario.one_quorum = 995
  ∧ NoDup (Tally.entry_key <$> vecPayments Scenario.one_quorum)
  ∧ Forall (λ p, 1 ≤ nVotes p) (vecPayments Scenario.one_quorum).
Proof.
  refine (built_tallies_are_well_formed
            (Built.Mnw <$> ((λ v, Scenario.call 1000 8 v 2 995)
                              <$> [11; 12; 13; 14; 15; 16]))
            995 Scenario.one_quorum _).
  vm_compute. reflexivity.
Defined.

(** ** FillBlockPayee *)

Section fill.
Import Producer Amounts.

Lemma total_value_app (l1 l2 : list CTxOut) :
  total_value (l1 ++ l2) = total_value l1 + total_value l2.
Proof. induction l1 as [|o l1 IH]; simpl; [done |]. rewrite IH. lia. Qed.

Lemma total_value_insert (l : list CTxOut) (i : nat) (old new : CTxOut) :
  l !! i = Some old →
  total_value (<[i := new]> l) = total_value l - nValue old + nValue new.
Proof.
  revert i. induction l as [|o l IH]; intros [|i] Hi; simpl in *; try done.
  - injection Hi as ->. lia.
  - rewrite (IH i Hi). lia.
Qed.

Variables (e : Env) (n : Node) (L : CMasternodePayments) (nHeightPrev : Z)
  (fProofOfStake fZLENOStake : bool) (out0 : CTxOut).

Hypothesis not_mint : ∀ v, IsZerocoinMint n (with_value out0 v) = false.

Lemma fill_fold (phases : list Z) (vcur : list CTxOut) (payee : CScript) (v : Z) :
  vcur !! primary fProofOfStake = Some (with_value out0 v) →
  (∀ phase payee0, phase ∈ phases →
     (Payments.GetBlockPayee L (nHeightPrev + 1) phase payee0).1 = true
     ∨ is_Some (GetCurrentMasternodeOnLevel n phase 1)) →
  ∃ paid payee',
    foldl (fill_step e n L nHeightPrev fProofOfStake fZLENOStake)
          (Some (vcur, payee)) phases
    = Some (<[primary fProofOfStake :=
               with_value out0
                 (v - sum ((λ ph, GetMasternodePayment e (nHeightPrev + 1) ph
                                    (GetBlockValue e nHeightPrev) 0 fZLENOStake)
                           <$> phases))]> vcur ++ paid, payee')
    ∧ nValue <$> paid
      = (λ ph, GetMasternodePayment e (nHeightPrev + 1) ph
                 (GetBlockValue e nHeightPrev) 0 fZLENOStake) <$> phases.
Proof.
  revert vcur payee v. induction phases as [|ph phases IH]; intros vcur payee v Hcur Hpay.
  - exists [], payee. simpl. rewrite Z.sub_0_r, app_nil_r.
    rewrite list_insert_id by done. done.
  - cbn [foldl]. rewrite !fmap_cons.
    set (pay := GetMasternodePayment e (nHeightPrev + 1) ph
                  (GetBlockValue e nHeightPrev) 0 fZLENOStake).
    assert (Hlt : (primary fProofOfStake < length vcur)%nat)
      by (by eapply lookup_lt_Some).
    assert (∃ payee1,
      fill_step e n L nHeightPrev fProofOfStake fZLENOStake (Some (vcur, payee)) ph
      = Some (<[primary fProofOfStake := with_value out0 (v - pay)]> vcur
              ++ [ {| nValue := pay; scriptPubKey := payee1 |} ], payee1))
      as [payee1 Hstep].
    { unfold fill_step.
      set (r := Payments.GetBlockPayee L (nHeightPrev + 1) ph payee).
      assert (Hhas : ∃ payee1,
                (if r.1 then (true, r.2)
                 else match GetCurrentMasternodeOnLevel n ph 1 with
                      | None => (false, r.2)
                      | Some winningNode => (true, mn_collateralScript winningNode)
                      end) = (true, payee1)).
      { destruct (Hpay ph payee) as [Hr | [mn Hmn]]; [by left | |].
        - fold r in Hr. rewrite Hr. by eexists.
        - destruct r.1; [by eexists |]. rewrite Hmn. by eexists. }
      destruct Hhas as [payee1 ->]. exists payee1. simpl. fold pay.
      rewrite lookup_app_l by done. rewrite Hcur. rewrite not_mint.
      rewrite insert_app_l by done. done. }
    rewrite Hstep.
    destruct (IH (<[primary fProofOfStake := with_value out0 (v - pay)]> vcur
                  ++ [ {| nValue := pay; scriptPubKey := payee1 |} ]) payee1 (v - pay))
      as (paid & payee' & Hfold & Hvals).
    { rewrite lookup_app_l by (by rewrite length_insert).
      by apply list_lookup_insert_eq. }
    { intros phase payee0 Hin. apply Hpay. by right. }
    exists ({| nValue := pay; scriptPubKey := payee1 |} :: paid), payee'.
    split; [| by rewrite fmap_cons, Hvals].
    rewrite Hfold. f_equal. f_equal.
    rewrite insert_app_l by (by rewrite length_insert).
    rewrite list_insert_insert_eq, <- app_assoc. simpl.
    do 3 f_equal. unfold sum. simpl. lia.
Qed.

End fill.

(** X15: FillBlockPayee conserves the value of the transaction.  When every
    level has a payee (a leader in the tally of the next height, or the
    masternode the roster names) and the primary output (index 1 of a stake
    transaction, index 0 otherwise) is not a zerocoin mint, the function
    appends one output per level, carrying the payment of the level, and takes
    the sum of these payments off the primary output: all other outputs and
    the total are unchanged. *)
Theorem FillBlockPayee_conserves_value (e : Env) (n : Node)
    (L : CMasternodePayments) (vout : list CTxOut)
    (fProofOfStake fZLENOStake : bool) (nHeightPrev : Z) (out0 : CTxOut) :
  chainTip e = Some nHeightPrev →
  vout !! Producer.primary fProofOfStake = Some out0 →
  (∀ v, IsZerocoinMint n (Producer.with_value out0 v) = false) →
  (∀ phase payee0, phase ∈ BlockPayees.phases e (nHeightPrev + 1) →
     (Payments.GetBlockPayee L (nHeightPrev + 1) phase payee0).1 = true
     ∨ is_Some (GetCurrentMasternodeOnLevel n phase 1)) →
  ∃ paid vout',
    Producer.FillBlockPayee e n L vout fProofOfStake fZLENOStake = Some vout'
    ∧ vout' = <[Producer.primary fProofOfStake :=
                  Producer.with_value out0
                    (nValue out0
                     - Amounts.sum (Amounts.payments_due e nHeightPrev fZLENOStake))]>
                vout ++ paid
    ∧ nValue <$> paid = Amounts.payments_due e nHeightPrev fZLENOStake
    ∧ Amounts.total_value vout' = Amounts.total_value vout.
Proof.
  intros Htip Hprim Hmint Hpay.
  assert (Hout0 : out0 = Producer.with_value out0 (nValue out0)) by (by destruct out0).
  rewrite Hout0 in Hprim.
  destruct (fill_fold e n L nHeightPrev fProofOfStake fZLENOStake out0 Hmint
              (BlockPayees.phases e (nHeightPrev + 1)) vout [] (nValue out0)
              Hprim Hpay) as (paid & payee' & Hfold & Hvals).
  exists paid. eexists. split_and!.
  - unfold Producer.FillBlockPayee. rewrite Htip, Hfold. simpl. done.
  - done.
  - done.
  - rewrite total_value_app.
    rewrite (total_value_insert _ _ (Producer.with_value out0 (nValue out0))) by done.
    simpl.
    assert (Hsum : Amounts.total_value paid
                   = Amounts.sum (Amounts.payments_due e nHeightPrev fZLENOStake)).
    { unfold Amounts.payments_due. rewrite <- Hvals. clear.
      induction paid as [|o paid IH]; simpl; [done |]. rewrite IH. done. }
    rewrite Hsum. unfold Amounts.payments_due. lia.
Qed.

(** A stake transaction of 250 at tip 1000 with two levels paid 10 and 20. *)
Lemma FillBlockPayee_conserves_value_witness :
  ∃ paid vout',
    Producer.FillBlockPayee Fixtures.env2 Fixtures.node Payments.empty
      Fixtures.coinstake true false = Some vout'
    ∧ vout' = <[1%nat := Producer.with_value
                           {| nValue := 250; scriptPubKey := Scenario.script_of 7 |}
                           (250 - Amounts.sum (Amounts.payments_due Fixtures.env2 1000 false))]>
                Fixtures.coinstake ++ paid
    ∧ nValue <$> paid = Amounts.payments_due Fixtures.env2 1000 false
    ∧ Amounts.total_value vout' = Amounts.total_value Fixtures.coinstake.
Proof.
  refine (FillBlockPayee_conserves_value Fixtures.env2 Fixtures.node Payments.empty
            Fixtures.coinstake true false 1000
            {| nValue := 250; scriptPubKey := Scenario.script_of 7 |}
            eq_refl eq_refl (λ _, eq_refl) _).
  intros phase payee0 Hin. right.
  change (BlockPayees.phases Fixtures.env2 (1000 + 1)) with [1; 2] in Hin.
  apply elem_of_cons in Hin as [-> | Hin]; [vm_compute; by eexists |].
  apply list_elem_of_singleton in Hin as ->. vm_compute. by eexists.
Defined.

Example FillBlockPayee_stake :
  Producer.FillBlockPayee Fixtures.env2 Fixtures.node Payments.empty
    Fixtures.coinstake true false
  = Some [ {| nValue := 0; scriptPubKey := [] |};
           {| nValue := 220; scriptPubKey := Scenario.script_of 7 |};
           {| nValue := 10; scriptPubKey := Scenario.script_of 3 |};
           {| nValue := 20; scriptPubKey := Scenario.script_of 9 |} ].
Proof. vm_compute. reflexivity. Qed.

(** ** Block validation *)



Lemma forallb_false {A} (f : A → bool) (l : list A) :
  forallb f l = false → ∃ x, x ∈ l ∧ f x = false.
Proof.
  induction l as [|x l IH]; simpl; [done |].
  destruct (f x) eqn:Hx; simpl.
  - intros (y & Hy & Hf)%IH. exists y. split; [by right | done].
  - intros _. exists x. split; [left | done].
Qed.

Lemma nMaxSignatures_reached (bp : CMasternodeBlockPayees) (phase : Z) :
  ¬ BlockPayees.nMaxSignatures phase (vecPayments bp) < MNPAYMENTS_SIGNATURES_REQUIRED →
  BlockPayees.has_quorum bp phase.
Proof.
  intros Hm.
  destruct (decide (Exists (λ p, masternodeLevel p = phase
                                 ∧ MNPAYMENTS_SIGNATURES_REQUIRED ≤ nVotes p)
                      (vecPayments bp))) as [Hex | Hnex].
  - apply Exists_exists in Hex as (p & Hin & Hl & Hv). by exists p.
  - exfalso. apply Hm, nMaxSignatures_below.
    intros (p & Hin & Hl & Hv). apply Hnex, Exists_exists. by exists p.
Qed.

Lemma IsTransactionValid_false (e : Env) (L : CMasternodePayments)
    (txNew : CTransaction) (h : Z) :
  Payments.IsTransactionValid e L txNew h = false →
  ∃ bp phase,
    mapMasternodeBlocks L !! h = Some bp
    ∧ phase ∈ BlockPayees.phases e (nBlockHeight bp)
    ∧ BlockPayees.has_quorum bp phase
    ∧ ∀ p, p ∈ vecPayments bp → masternodeLevel p = phase →
           MNPAYMENTS_SIGNATURES_REQUIRED ≤ nVotes p →
           ¬ BlockPayees.pays txNew (payee_scriptPubKey p)
               (BlockPayees.requiredMasternodePayment e bp phase).
Proof.
  unfold Payments.IsTransactionValid.
  destruct (mapMasternodeBlocks L !! h) as [bp |]; [| done].
  rewrite IsTransactionValid_levels.
  intros (phase & Hin & Hlv)%forallb_false. exists bp, phase.
  assert (Hq : BlockPayees.has_quorum bp phase).
  { apply nMaxSignatures_reached. intros Hm.
    unfold BlockPayees.level_valid in Hlv. by rewrite decide_True in Hlv. }
  split_and!; [done | done | done |].
  intros p Hp Hl Hv Hpays. rewrite level_valid_quorum in Hlv by done.
  apply not_true_iff_false in Hlv. apply Hlv, hasLevelPayment_true. by exists p.
Qed.

(** X17: IsBlockPayeeValid rejects a block only on a synced node, and then
    only for one of two reasons: the budget found the payment of a budget
    block invalid while budget enforcement is on, or payment enforcement is on
    and the tally of the height has a level with a quorum none of whose
    payees with six votes is paid the required amount. *)
Theorem IsBlockPayeeValid_rejects_only_unpaid_quorum (e : Env) (n : Node)
    (L : CMasternodePayments) (vtx : list CTransaction) (h : Z) :
  Validation.IsBlockPayeeValid e n L vtx h = Some false →
  IsSynced e = true
  ∧ ∃ txNew,
      vtx !! (if decide (h > LAST_POW_BLOCK n) then 1%nat else 0%nat)
      = Some txNew
      ∧ ((SPORK_13_ENABLE_SUPERBLOCKS n = true
          ∧ IsBudgetPaymentBlock n h = true
          ∧ budget_IsTransactionValid n txNew h = InValid
          ∧ SPORK_9_MASTERNODE_BUDGET_ENFORCEMENT n = true)
         ∨ (SPORK_8_MASTERNODE_PAYMENT_ENFORCEMENT e = true
            ∧ ∃ bp phase,
                mapMasternodeBlocks L !! h = Some bp
                ∧ phase ∈ BlockPayees.phases e (nBlockHeight bp)
                ∧ BlockPayees.has_quorum bp phase
                ∧ ∀ p, p ∈ vecPayments bp → masternodeLevel p = phase →
                       MNPAYMENTS_SIGNATURES_REQUIRED ≤ nVotes p →
                       ¬ BlockPayees.pays txNew (payee_scriptPubKey p)
                           (BlockPayees.requiredMasternodePayment e bp phase))).
Proof.
  unfold Validation.IsBlockPayeeValid.
  destruct (IsSynced e); simpl; [| done].
  destruct (vtx !! _) as [txNew |]; [| done].
  intros Hfalse. split; [done |]. exists txNew. split; [done |].
  destruct (Validation.budget_verdict n txNew h) as [b |] eqn:Hbud.
  - left. injection Hfalse as ->. unfold Validation.budget_verdict in Hbud.
    destruct (SPORK_13_ENABLE_SUPERBLOCKS n); [| done].
    destruct (IsBudgetPaymentBlock n h); [| done].
    destruct (budget_IsTransactionValid n txNew h); try done.
    by destruct (SPORK_9_MASTERNODE_BUDGET_ENFORCEMENT n).
  - right.
    destruct (Payments.IsTransactionValid e L txNew h) eqn:Hmn; [done |].
    destruct (SPORK_8_MASTERNODE_PAYMENT_ENFORCEMENT e); [| done].
    split; [done |]. by apply IsTransactionValid_false.
Qed.

(** A block at height 995 that pays the leader only 40 of the required 50. *)
Lemma IsBlockPayeeValid_rejects_only_unpaid_quorum_witness :
  Validation.IsBlockPayeeValid (Scenario.env 1000 8) Fixtures.node
    (run Payments.empty
       ((λ v, Scenario.call 1000 8 v 2 995) <$> [11; 12; 13; 14; 15; 16]))
    [Scenario.pay 7 100; Scenario.pay 2 40] 995 = Some false
  ∧ IsSynced (Scenario.env 1000 8) = true.
Proof.
  split; [vm_compute; reflexivity |].
  refine (proj1 (IsBlockPayeeValid_rejects_only_unpaid_quorum (Scenario.env 1000 8)
                   Fixtures.node
                   (run Payments.empty
                      ((λ v, Scenario.call 1000 8 v 2 995) <$> [11; 12; 13; 14; 15; 16]))
                   [Scenario.pay 7 100; Scenario.pay 2 40] 995 _)).
  vm_compute. reflexivity.
Defined.

(** ** IsScheduled *)

Lemma GetPayee_start (bp : CMasternodeBlockPayees) (p1 p2 s : CScript) (level : Z) :
  BlockPayees.GetPayee bp p1 level = (true, s) →
  BlockPayees.GetPayee bp p2 level = (true, s).
Proof.
  unfold BlockPayees.GetPayee.
  destruct (GetPayee_loop_start level (vecPayments bp) p1 p2 (-1))
    as (Hv & _ & Hs & _).
  intros [= Hb Hs1]. apply bool_decide_eq_true in Hb.
  rewrite <- Hv, <- Hs by lia. rewrite Hs1.
  by rewrite bool_decide_eq_true_2.
Qed.

Lemma IsScheduled_level_loop_true (L : CMasternodePayments) (s : CScript)
    (level nNot : Z) (payee : CScript) (hs : list Z) :
  Ledger.IsScheduled_level_loop L s level nNot payee hs = true
  ↔ ∃ h bp, h ∈ hs ∧ h ≠ nNot ∧ mapMasternodeBlocks L !! h = Some bp
            ∧ BlockPayees.GetPayee bp [] level = (true, s).
Proof.
  revert payee. induction hs as [|h hs IH]; intros payee;
    cbn [Ledger.IsScheduled_level_loop].
  - split; [done | intros (h & bp & Hin & _); by apply elem_of_nil in Hin].
  - assert (Hrest : (∃ h' bp, h' ∈ hs ∧ h' ≠ nNot
                       ∧ mapMasternodeBlocks L !! h' = Some bp
                       ∧ BlockPayees.GetPayee bp [] level = (true, s))
                    → ∃ h' bp, h' ∈ h :: hs ∧ h' ≠ nNot
                       ∧ mapMasternodeBlocks L !! h' = Some bp
                       ∧ BlockPayees.GetPayee bp [] level = (true, s)).
    { intros (h' & bp & Hin & Hr). exists h', bp. split; [by right | done]. }
    destruct (decide (h = nNot)) as [-> | Hne].
    + rewrite IH. split; [done |].
      intros (h' & bp & [-> | Hin]%elem_of_cons & Hn & Hr); [done |].
      by exists h', bp.
    + destruct (mapMasternodeBlocks L !! h) as [bp |] eqn:Hbp.
      * cbv zeta.
        destruct (BlockPayees.GetPayee bp payee level) as [b s'] eqn:Hget.
        cbn [fst snd negb]. destruct b; cbn [negb].
        -- destruct (decide (s = s')) as [<- | Hs].
           ++ split; [intros _ | done]. exists h, bp.
              split_and!; [left | done | done |]. by eapply GetPayee_start.
           ++ rewrite IH. split; [done |].
              intros (h' & bp' & [-> | Hin]%elem_of_cons & Hn & Hb' & Hr);
                [| by exists h', bp'].
              rewrite Hbp in Hb'. injection Hb' as <-.
              apply (GetPayee_start _ _ payee) in Hr. congruence.
        -- rewrite IH. split; [done |].
           intros (h' & bp' & [-> | Hin]%elem_of_cons & Hn & Hb' & Hr);
             [| by exists h', bp'].
           rewrite Hbp in Hb'. injection Hb' as <-.
           apply (GetPayee_start _ _ payee) in Hr. congruence.
      * rewrite IH. split; [done |].
        intros (h' & bp' & [-> | Hin]%elem_of_cons & Hn & Hb' & Hr);
          [congruence | by exists h', bp'].
Qed.

(** X18: IsScheduled for a level answers true exactly when the masternode's
    script leads its level in the tally of some height other than the excluded
    one among the last min (10, mnLevelCount - 1) heights below tip + 10.  It
    never looks below the tip or at tip + 10 and beyond, and with at most one
    masternode on the level it looks at no height at all. *)
Theorem IsScheduled_level_window (e : Env) (L : CMasternodePayments)
    (mn : CMasternode) (phase mnLevelCount nNotBlockHeight nHeight : Z) :
  chainTip e = Some nHeight →
  (Ledger.IsScheduled_level e L mn phase mnLevelCount nNotBlockHeight = true
   ↔ ∃ h bp, nHeight + 10 - Z.min 10 (mnLevelCount - 1) ≤ h < nHeight + 10
             ∧ h ≠ nNotBlockHeight
             ∧ mapMasternodeBlocks L !! h = Some bp
             ∧ BlockPayees.GetPayee bp [] phase = (true, mn_collateralScript mn))
  ∧ (mnLevelCount ≤ 1 →
     Ledger.IsScheduled_level e L mn phase mnLevelCount nNotBlockHeight = false).
Proof.
  intros Htip. unfold Ledger.IsScheduled_level. rewrite Htip.
  assert (Hiff : Ledger.IsScheduled_level_loop L (mn_collateralScript mn) phase
                   nNotBlockHeight [] (Ledger.scheduled_heights nHeight mnLevelCount)
                 = true
    ↔ ∃ h bp, nHeight + 10 - Z.min 10 (mnLevelCount - 1) ≤ h < nHeight + 10
              ∧ h ≠ nNotBlockHeight
              ∧ mapMasternodeBlocks L !! h = Some bp
              ∧ BlockPayees.GetPayee bp [] phase = (true, mn_collateralScript mn)).
  { rewrite IsScheduled_level_loop_true. unfold Ledger.scheduled_heights.
    split; intros (h & bp & Hin & Hr); exists h, bp; (split; [| done]).
    - apply elem_of_seqZ in Hin. lia.
    - apply elem_of_seqZ. lia. }
  split; [exact Hiff |].
  intros Hone. apply not_true_is_false. rewrite Hiff.
  intros (h & bp & Hin & _). lia.
Qed.

(** At tip 1000, with three masternodes on the level, the heights looked at
    are 1008 and 1009. *)
Lemma IsScheduled_level_window_witness :
  Ledger.IsScheduled_level (Scenario.env 1000 8)
    (Scenario.ledger_with 1000 8 [1008]) (Scenario.masternode 2) 1 3 0
  = true.
Proof.
  refine (proj2 (proj1 (IsScheduled_level_window (Scenario.env 1000 8)
                          (Scenario.ledger_with 1000 8 [1008]) (Scenario.masternode 2)
                          1 3 0 1000 eq_refl)) _).
  exists 1008, {| nBlockHeight := 1008;
                  vecPayments := [ {| payee_scriptPubKey := Scenario.script_of 2;
                                      masternodeLevel := 1; nVotes := 1 |} ] |}.
  vm_compute. split_and!; (reflexivity || discriminate).
Defined.

(** ** Loading is a dry run followed by a clean-up *)

(** X19: a load (fDryRun false) differs from a dry run only by the
    CleanPaymentList pass after a successful read: every error is answered
    the same way with the same ledger.  After a successful load at a known
    tip the vote index holds exactly the votes of the file that the clean-up
    keeps: those whose distance from the tip, as the compiled code computes
    it, does not exceed the retention.  A vote of the file whose height is
    within 2147483647 of the tip is therefore kept exactly when its height is
    at least tip - max (floor (1.25 × roster size), 1000), for a roster whose
    1.25-fold fits an int; a file may also hold a height further below the
    tip, for which the subtraction wraps around. *)
Theorem Read_is_dry_run_then_clean (c : PaymentDB.Codec) (e : Env)
    (file : option (list byte)) (obj : CMasternodePayments) :
  PaymentDB.Read c e file obj false
  = (if decide ((PaymentDB.Read c e file obj true).1 = PaymentDB.Ok)
     then (PaymentDB.Ok,
           (Payments.CleanPaymentList e (PaymentDB.Read c e file obj true).2).1)
     else PaymentDB.Read c e file obj true)
  ∧ ∀ nHeight k w,
      chainTip e = Some nHeight →
      (PaymentDB.Read c e file obj false).1 = PaymentDB.Ok →
      (mapMasternodePayeeVotes (PaymentDB.Read c e file obj false).2 !! k = Some w
       ↔ mapMasternodePayeeVotes (PaymentDB.Read c e file obj true).2 !! k = Some w
         ∧ ¬ height_minus nHeight (winner_nBlockHeight w) > Payments.nLimit e)
      ∧ (nHeight - winner_nBlockHeight w ≤ int_max →
         0 ≤ mn_size e → 5 * mn_size e / 4 ≤ int_max →
         (mapMasternodePayeeVotes (PaymentDB.Read c e file obj false).2 !! k = Some w
          ↔ mapMasternodePayeeVotes (PaymentDB.Read c e file obj true).2 !! k = Some w
            ∧ nHeight - Z.max (5 * mn_size e / 4) 1000 ≤ winner_nBlockHeight w)).
Proof.
  assert (Heq : PaymentDB.Read c e file obj false
    = (if decide ((PaymentDB.Read c e file obj true).1 = PaymentDB.Ok)
       then (PaymentDB.Ok,
             (Payments.CleanPaymentList e (PaymentDB.Read c e file obj true).2).1)
       else PaymentDB.Read c e file obj true)).
  { unfold PaymentDB.Read. destruct file as [bytes |]; [| done].
    destruct (decide (Z.of_nat (length (drop _ bytes)) < _)); [done |].
    destruct (decide (take _ (drop _ bytes) ≠ _)); [done |].
    unfold PaymentDB.Read_stream.
    destruct (PaymentDB.Unserialize_string c _) as [[s rest] |]; [| done].
    destruct (decide (PaymentDB.strMagicMessage ≠ s)); [done |].
    destruct (decide (length rest < 4)%nat); [done |].
    destruct (decide (take 4 rest ≠ _)); [done |].
    by destruct (PaymentDB.Unserialize_payments c _ _ _).1. }
  split; [exact Heq |].
  intros nHeight k w Htip Hok. rewrite Heq in Hok. rewrite !Heq.
  destruct (decide ((PaymentDB.Read c e file obj true).1 = PaymentDB.Ok));
    [| done].
  cbn [snd]. rewrite (clean_votes_lookup e _ nHeight) by done.
  split; [done |]. intros Hd Hsize Hfits. rewrite height_minus_exact by done.
  unfold Payments.nLimit. rewrite times_1_25_floor by done.
  split; intros [? ?]; split; (done || lia).
Qed.

(** The file of a node that recorded votes of heights 999, 1000, 1875 and
    1876 is loaded at tip 2000 with a roster of 100: the retention is 1000,
    the vote of height 1000 is in the ledger after the load and the vote of
    height 999 is not. *)
Lemma Read_is_dry_run_then_clean_witness :
  mapMasternodePayeeVotes
    (PaymentDB.Read Scenario.codec (Scenario.env 2000 100)
       (Some Fixtures.old_file) Payments.empty false).2
    !! Winner.GetHash (Scenario.env 2000 100) (Scenario.vote 1 2 1000)
  = Some (Wire.stored 70920 Scenario.CLIENT_VERSION (Scenario.vote 1 2 1000))
  ∧ mapMasternodePayeeVotes
      (PaymentDB.Read Scenario.codec (Scenario.env 2000 100)
         (Some Fixtures.old_file) Payments.empty false).2
      !! Winner.GetHash (Scenario.env 2000 100) (Scenario.vote 1 2 999)
    ≠ Some (Wire.stored 70920 Scenario.CLIENT_VERSION (Scenario.vote 1 2 999)).
Proof.
  split.
  - refine (proj2 (proj2 (proj2 (Read_is_dry_run_then_clean Scenario.codec
                                   (Scenario.env 2000 100) (Some Fixtures.old_file)
                                   Payments.empty)
                            2000 _ _ eq_refl _) _ _ _) (conj _ _)).
    + vm_compute. reflexivity.
    + vm_compute. discriminate.
    + vm_compute. discriminate.
    + vm_compute. discriminate.
    + vm_compute. reflexivity.
    + vm_compute. discriminate.
  - intros Hin.
    refine (proj2 (proj1 (proj2 (proj2 (Read_is_dry_run_then_clean Scenario.codec
                                   (Scenario.env 2000 100) (Some Fixtures.old_file)
                                   Payments.empty)
                            2000 _ _ eq_refl _) _ _ _) Hin) _).
    + vm_compute. reflexivity.
    + vm_compute. discriminate.
    + vm_compute. discriminate.
    + vm_compute. discriminate.
    + vm_compute. reflexivity.
Defined.

(** The dry run of that file holds the four votes; the load drops the vote of
    height 999.  A file may hold any int as a height: for a vote 2147484000
    below the tip the subtraction wraps around, and the load keeps it. *)
Example Read_scenario_E :
  let heights (r : PaymentDB.ReadResult * CMasternodePayments) :=
    (λ it, winner_nBlockHeight it.2) <$> std_map_iter (mapMasternodePayeeVotes r.2) in
  heights (PaymentDB.Read Scenario.codec (Scenario.env 2000 100)
             (Some Fixtures.old_file) Payments.empty true)
  = [999; 1000; 1875; 1876]
  ∧ heights (PaymentDB.Read Scenario.codec (Scenario.env 2000 100)
               (Some Fixtures.old_file) Payments.empty false)
    = [1000; 1875; 1876]
  ∧ heights (PaymentDB.Read Scenario.codec (Scenario.env 1000 8)
               (Some Fixtures.ancient_file) Payments.empty false)
    = [-2147483000].
Proof. vm_compute. by split_and!. Qed.

(** ** getmasternodewinners *)

(** X20: for a known tip, getmasternodewinners answers with one row per
    height from a first height to tip + 19, in order, and no row has an empty
    list of winners: outside budget payment blocks a height with entries in
    its tally shows them in the order of the tally, and a height without any
    shows the single placeholder "Unknown" with 0 votes on level 0.  For an
    argument nLast of at least tip - 2147483647 the first height is
    tip - nLast (no row when nLast is below -19); nLast is the caller's int,
    and below that range tip - nLast does not fit an int: the first height is
    then what the wrapped subtraction of the compiled code gives. *)
Theorem getmasternodewinners_rows (e : Env) (n : Node) (L : CMasternodePayments)
    (nLast nHeight : Z) :
  chainTip e = Some nHeight →
  ∃ rows,
    Rpc.getmasternodewinners e n L nLast = Some rows
    ∧ (nHeight - nLast ≤ int_max →
       rows.*1 = seqZ (nHeight - nLast) (nLast + 20))
    ∧ rows.*1 = seqZ (height_minus nHeight nLast)
                  (nHeight + 20 - height_minus nHeight nLast)
    ∧ Forall (λ row, row.2 ≠ []) rows
    ∧ ∀ i ws, (i, ws) ∈ rows →
        SPORK_13_ENABLE_SUPERBLOCKS n && IsBudgetPaymentBlock n i = false →
        ws = match mapMasternodeBlocks L !! i with
             | Some bp =>
                 if decide (vecPayments bp = [])
                 then [ {| Rpc.row_address := "Unknown"; Rpc.row_nVotes := 0;
                           Rpc.row_phase := 0 |} ]
                 else (λ p, {| Rpc.row_address := EncodeAddress n (payee_scriptPubKey p);
                               Rpc.row_nVotes := nVotes p mod 2 ^ 64;
                               Rpc.row_phase := masternodeLevel p |})
                      <$> vecPayments bp
             | None => [ {| Rpc.row_address := "Unknown"; Rpc.row_nVotes := 0;
                            Rpc.row_phase := 0 |} ]
             end.
Proof.
  intros Htip. unfold Rpc.getmasternodewinners. rewrite Htip.
  eexists. split; [done |]. cbv zeta.
  assert (Hkeys : ((λ i, (i, Rpc.winner_rows (Validation.GetRequiredPayments n L i)))
                     <$> seqZ (height_minus nHeight nLast)
                           (nHeight + 20 - height_minus nHeight nLast)).*1
                  = seqZ (height_minus nHeight nLast)
                      (nHeight + 20 - height_minus nHeight nLast)).
  { rewrite <- list_fmap_compose. by rewrite list_fmap_id. }
  split_and!.
  - intros Hd. rewrite Hkeys, height_minus_exact by done.
    f_equal. lia.
  - exact Hkeys.
  - apply Forall_fmap, Forall_forall. intros i _. simpl.
    unfold Rpc.winner_rows. case_decide as Hlen.
    + by intros [_ ?]%app_eq_nil.
    + destruct (Validation.GetRequiredPayments n L i); [done |]. done.
  - intros i ws Hin Hnb. apply list_elem_of_fmap in Hin as (i' & [= <- ->] & _).
    unfold Validation.GetRequiredPayments. rewrite Hnb.
    unfold Ledger.GetRequiredPayments, Rpc.winner_rows.
    destruct (mapMasternodeBlocks L !! i) as [bp |]; [| done].
    unfold Tally.GetRequiredPayments.
    destruct (vecPayments bp) as [|p v]; [done |].
    rewrite decide_False by done. rewrite decide_False by done.
    by rewrite <- list_fmap_compose.
Qed.

Lemma getmasternodewinners_rows_witness :
  ∃ rows,
    Rpc.getmasternodewinners (Scenario.env 1000 8) Fixtures.node
      (Scenario.ledger_with 1000 8 [995]) 10 = Some rows
    ∧ rows.*1 = seqZ (1000 - 10) (10 + 20)
    ∧ Forall (λ row, row.2 ≠ []) rows.
Proof.
  destruct (getmasternodewinners_rows (Scenario.env 1000 8) Fixtures.node
              (Scenario.ledger_with 1000 8 [995]) 10 1000 eq_refl)
    as (rows & H1 & H2 & _ & H3 & _).
  exists rows. split_and!; [exact H1 | | exact H3].
  apply H2. vm_compute. discriminate.
Defined.

(** ** Accepted votes, Sync and CleanPaymentList *)

Lemma accepted_is_recorded (e : Env) (pfrom : CNode) (L : CMasternodePayments)
    (w : CMasternodePaymentWinner) :
  Payments.outcome (Payments.ProcessMessage_mnw e pfrom L w) = Payments.Accepted →
  mapMasternodePayeeVotes (Payments.ledger (Payments.ProcessMessage_mnw e pfrom L w))
    !! Winner.GetHash e w = Some w
  ∧ ∃ nHeight, chainTip e = Some nHeight
      ∧ nHeight - times_1_25 (CountEnabledOnLevel e (Winner.GetPayeePhase e w))
        ≤ winner_nBlockHeight w ≤ nHeight + 20.
Proof.
  intros Hacc.
  destruct (mnw_accepted _ _ _ _ Hacc)
    as (_ & _ & _ & _ & _ & Hwin & _ & _ & Hadd & ->).
  apply AddWinningMasternode_true in Hadd as (_ & _ & -> & _).
  split; [apply lookup_insert_eq | done].
Qed.

(** X21: what is accepted can be synced.  After a "mnw" message has been
    accepted, Sync at the same tip announces that vote to every peer asking
    for at least floor (1.25 × masternodes enabled on the payee's level)
    heights, the level holding at most all enabled masternodes. *)
Theorem accepted_vote_is_announced (e : Env) (pfrom node : CNode)
    (L : CMasternodePayments) (w : CMasternodePaymentWinner) (nCountNeeded : Z) :
  Payments.outcome (Payments.ProcessMessage_mnw e pfrom L w) = Payments.Accepted →
  0 ≤ CountEnabledOnLevel e (Winner.GetPayeePhase e w) ≤ CountEnabled e →
  5 * CountEnabledOnLevel e (Winner.GetPayeePhase e w) / 4 ≤ nCountNeeded →
  PushInventory (node_id node) (Winner.GetHash e w)
  ∈ Payments.Sync e (Payments.ledger (Payments.ProcessMessage_mnw e pfrom L w))
      node nCountNeeded.
Proof.
  intros Hacc Hlevel Hcount.
  destruct (accepted_is_recorded _ _ _ _ Hacc) as (Hrec & nHeight & Htip & Hwin).
  rewrite times_1_25_floor in Hwin by lia.
  unfold Payments.Sync. rewrite Htip, sync_fold. simpl.
  apply elem_of_app. left. apply list_elem_of_fmap.
  exists (Winner.GetHash e w, w). split; [done |].
  apply list_elem_of_filter. split; [| by apply elem_of_std_map_iter].
  unfold Payments.in_sync_window. simpl.
  rewrite clamp_count_min by lia.
  assert (5 * CountEnabledOnLevel e (Winner.GetPayeePhase e w) / 4
          ≤ 5 * CountEnabled e / 4) by (apply Z.div_le_mono; lia).
  pose proof (height_minus_le nHeight (Z.min nCountNeeded (5 * CountEnabled e / 4))).
  lia.
Qed.

Lemma accepted_vote_is_announced_witness :
  PushInventory 7 (Winner.GetHash (Scenario.env 1000 8) (Scenario.vote 1 2 990))
  ∈ Payments.Sync (Scenario.env 1000 8)
      (Payments.ledger (Payments.ProcessMessage_mnw (Scenario.env 1000 8)
                          Scenario.peer Payments.empty (Scenario.vote 1 2 990)))
      Scenario.peer 10.
Proof.
  refine (accepted_vote_is_announced (Scenario.env 1000 8) Scenario.peer
            Scenario.peer Payments.empty (Scenario.vote 1 2 990) 10 eq_refl _ _).
  - vm_compute. split; discriminate.
  - vm_compute. discriminate.
Defined.

(** X22: the clean-up never removes a vote the node has just accepted.  With
    at most max (roster size, 800) masternodes enabled on the payee's level,
    the admission window is no deeper than the retention, so a vote accepted
    at some tip is still in the vote index, with its tally, after
    CleanPaymentList at that tip. *)
Theorem accepted_vote_survives_cleaning (e : Env) (pfrom : CNode)
    (L : CMasternodePayments) (w : CMasternodePaymentWinner) :
  Payments.outcome (Payments.ProcessMessage_mnw e pfrom L w) = Payments.Accepted →
  0 ≤ CountEnabledOnLevel e (Winner.GetPayeePhase e w) ≤ Z.max (mn_size e) 800 →
  let L' := (Payments.CleanPaymentList e
               (Payments.ledger (Payments.ProcessMessage_mnw e pfrom L w))).1 in
  mapMasternodePayeeVotes L' !! Winner.GetHash e w = Some w
  ∧ mapMasternodeBlocks L' !! winner_nBlockHeight w
    = mapMasternodeBlocks (Payments.ledger (Payments.ProcessMessage_mnw e pfrom L w))
        !! winner_nBlockHeight w.
Proof.
  intros Hacc Hlevel L'.
  destruct (accepted_is_recorded _ _ _ _ Hacc) as (Hrec & nHeight & Htip & Hwin).
  rewrite times_1_25_floor in Hwin by lia.
  assert (Hdepth : 5 * CountEnabledOnLevel e (Winner.GetPayeePhase e w) / 4
                   ≤ Payments.nLimit e).
  { unfold Payments.nLimit.
    destruct (Z.max_spec (mn_size e) 800) as [[Hlt Hmax] | [Hlt Hmax]];
      rewrite Hmax in Hlevel.
    - assert (5 * CountEnabledOnLevel e (Winner.GetPayeePhase e w) / 4
              ≤ 5 * 800 / 4) by (apply Z.div_le_mono; lia).
      change (5 * 800 / 4) with 1000 in *. lia.
    - assert (0 ≤ mn_size e) by lia. rewrite times_1_25_floor by done.
      assert (5 * CountEnabledOnLevel e (Winner.GetPayeePhase e w) / 4
              ≤ 5 * mn_size e / 4) by (apply Z.div_le_mono; lia).
      lia. }
  assert (Hkept : ¬ height_minus nHeight (winner_nBlockHeight w) > Payments.nLimit e).
  { pose proof (height_minus_le nHeight (winner_nBlockHeight w)). lia. }
  split.
  - unfold L'. apply (clean_votes_lookup e _ nHeight); [done |]. by split.
  - unfold L'. rewrite (clean_blocks_lookup e _ nHeight) by done.
    rewrite decide_False; [done |]. by intros [Hold _].
Qed.

Lemma accepted_vote_survives_cleaning_witness :
  mapMasternodePayeeVotes
    (Payments.CleanPaymentList (Scenario.env 1000 8)
       (Payments.ledger (Payments.ProcessMessage_mnw (Scenario.env 1000 8)
                           Scenario.peer Payments.empty (Scenario.vote 1 2 990)))).1
    !! Winner.GetHash (Scenario.env 1000 8) (Scenario.vote 1 2 990)
  = Some (Scenario.vote 1 2 990).
Proof.
  refine (proj1 (accepted_vote_survives_cleaning (Scenario.env 1000 8) Scenario.peer
                   Payments.empty (Scenario.vote 1 2 990) eq_refl _)).
  vm_compute. split; discriminate.
Defined.
